(** * AutomaticCurrencyCreator: a shallow embedding of [main.py]

    The development follows the layout of the program:

    - [Py]: the few Python string operations the program relies on
      ([str.split], [str.strip], [readlines], the [in] test on strings);
    - the browser driver ([BrowserDriver]): [launch], [login],
      [wait_for_page_to_settle], [create_standard_user], [close];
    - the helper functions [parse_user_data] and [parse_credentials_file];
    - the worker ([AutomationWorker]): [run] and [stop];
    - the part of [MainWindow.start_automation] that decides whether a
      worker is started at all.

    The browser and the operator are the environment.  An environment
    fixes, for every step of the worker, how the browser answers a call
    issued at that step and whether the presentation thread invokes
    [stop] just before it.  Everything the worker does is recorded in a
    log of events: the signals it emits, the browser calls it issues,
    the methods it enters and the values it reads from [is_running]. *)

From Stdlib Require Import List String Ascii Bool Arith NArith Lia DecimalString.
Import ListNotations.
Open Scope string_scope.
Open Scope list_scope.

Set Implicit Arguments.

(** String concatenation, the + of Python strings and the juxtaposition
    inside an f-string. *)
Infix "+++" := String.append (right associativity, at level 60).

(* ================================================================== *)
(** * Python text operations *)
(* ================================================================== *)

Module Py.

(** The line feed character, written \n in the source. *)
Definition LF : string := String (ascii_of_nat 10) EmptyString.
Definition TAB : string := String (ascii_of_nat 9) EmptyString.

(** [s.split(c)] with an explicit one-character separator: every
    occurrence of [c] ends a field, fields may be empty, and the result
    always has at least one field. *)
Fixpoint split_on (c : ascii) (s : string) : list string :=
  match s with
  | EmptyString => [EmptyString]
  | String a s' =>
      if Ascii.eqb a c then EmptyString :: split_on c s'
      else match split_on c s' with
           | w :: ws => String a w :: ws
           | [] => [String a EmptyString]
           end
  end.

(** Indexing with [[0]]; the list [split_on] returns is never empty. *)
Definition first_field (l : list string) : string :=
  match l with
  | w :: _ => w
  | [] => EmptyString
  end.

(** [str.isspace] on the ASCII range: tab, line feed, vertical tab, form
    feed, carriage return, the four separators 28 to 31 and space. *)
Definition is_space (a : ascii) : bool :=
  let n := nat_of_ascii a in
  (((9 <=? n) && (n <=? 13)) || ((28 <=? n) && (n <=? 32)))%nat.

Fixpoint lstrip (s : string) : string :=
  match s with
  | EmptyString => EmptyString
  | String a s' => if is_space a then lstrip s' else s
  end.

Fixpoint rstrip (s : string) : string :=
  match s with
  | EmptyString => EmptyString
  | String a s' =>
      match rstrip s' with
      | EmptyString => if is_space a then EmptyString else String a EmptyString
      | r => String a r
      end
  end.

(** [s.strip()] *)
Definition strip (s : string) : string := rstrip (lstrip s).

(** [f.readlines()] on the decoded text of a file: a line ends after each
    line feed and keeps it; a last line without line feed is a line too;
    the empty text has no line. *)
Fixpoint readlines_from (cur : string) (s : string) : list string :=
  match s with
  | EmptyString =>
      match cur with
      | EmptyString => []
      | _ => [cur]
      end
  | String a s' =>
      if Ascii.eqb a (ascii_of_nat 10)
      then (cur +++ String a EmptyString) :: readlines_from EmptyString s'
      else readlines_from (cur +++ String a EmptyString) s'
  end.

Definition readlines (text : string) : list string :=
  readlines_from EmptyString text.

(** [needle in s] on strings. *)
Fixpoint contains (needle s : string) : bool :=
  prefix needle s ||
  match s with
  | EmptyString => false
  | String _ s' => contains needle s'
  end.

(** [not s] on a string: true for the empty string only. *)
Definition is_empty (s : string) : bool :=
  match s with
  | EmptyString => true
  | _ => false
  end.

(** [sep.join(l)] *)
Fixpoint join (sep : string) (l : list string) : string :=
  match l with
  | [] => EmptyString
  | [x] => x
  | x :: l' => x +++ sep +++ join sep l'
  end.

End Py.

(* ================================================================== *)
(** * Data *)
(* ================================================================== *)

(** A spreadsheet cell as pandas hands it over: [None] is a blank cell
    (NaN), [Some t] a cell whose value prints as the text [t]. *)
Definition cell := option string.

(** [str(v)] and the formatting of [v] inside an f-string. *)
Definition str (v : cell) : string :=
  match v with
  | Some t => t
  | None => "nan"
  end.

(** One entry of [lvc_users] or [standard_users]: the dictionary with the
    keys Currency, Username and Postfix that [to_dict('records')] builds. *)
Record UserRecord := mkUser {
  Currency : cell;
  Username : cell;
  Postfix : cell
}.

(** A Python exception: [type(e).__name__] and [str(e)]. *)
Record exn := mkExn {
  exn_type : string;
  exn_msg : string
}.

(** The page elements the driver locates, under the names of the local
    variables that hold them in the source; the two dropdown entries that
    are clicked without a variable are named after their text. *)
Inductive locator :=
| email_locator
| next_button_locator
| password_locator
| verify_button_locator
| push_option_locator
| push_sent_locator
| market_dropdown_button
| market_no_regulated
| product_dropdown_button
| product_island_paradise
| username_locator
| new_password_locator
| currency_locator
| create_button_locator
| success_locator.

(** Calls into Playwright.  Timeouts are in milliseconds. *)
Inductive call :=
| SyncPlaywrightStart
| ChromiumLaunch
| NewPage
| Goto (url : string) (timeout : N)
| ExpectVisible (l : locator) (timeout : N)
| Fill (l : locator) (text : string)
| Click (l : locator)
| SelectOption (l : locator) (label : string)
| WaitForUrlNotOkta (timeout : N)
| WaitForLoadStateIdle (timeout : N)
| BrowserClose
| PlaywrightStop.

(** Methods whose entry is recorded in the log. *)
Inductive method :=
| m_launch
| m_login (url email password : string)
| m_wait_for_page_to_settle
| m_create_standard_user (base_url : string) (user : UserRecord)
                         (user_password : string)
| m_close
| m_stop.

(** What a run leaves behind, in order. *)
Inductive event :=
| Progress (line : string)          (* progress_update.emit *)
| AutomationError (message : string) (* automation_error.emit *)
| AutomationFinished                 (* automation_finished.emit *)
| Browser (c : call)                 (* a call into Playwright *)
| Invoke (m : method)                (* a method is entered *)
| ReadFlag (b : bool).               (* the worker reads is_running *)

(** How the browser answers one call. *)
Inductive reply :=
| Done
| TimedOut (details : string)
| Failed (details : string).

(** The environment of a run. [reply_at k] is the answer to a browser call
    issued at step [k]; [stop_at k] says that the presentation thread
    invokes [stop] just before the worker performs step [k]. *)
Record env := mkEnv {
  reply_at : nat -> reply;
  stop_at : nat -> bool
}.

(** The exception Playwright raises for an answer: an [expect] assertion
    that times out raises AssertionError, any other wait that times out
    raises Playwright's TimeoutError, every other failure its Error. *)
Definition raised (c : call) (r : reply) : option exn :=
  match r with
  | Done => None
  | TimedOut d =>
      match c with
      | ExpectVisible _ _ => Some (mkExn "AssertionError" d)
      | _ => Some (mkExn "TimeoutError" d)
      end
  | Failed d => Some (mkExn "Error" d)
  end.

(** The mutable fields of the worker and of its driver, and the number of
    steps performed so far. *)
Record state := mkState {
  is_running : bool;
  driver : bool;      (* self.driver is not None *)
  playwright : bool;  (* driver.playwright is not None *)
  browser : bool;     (* driver.browser is not None *)
  page : bool;        (* driver.page is not None *)
  clock : nat
}.

Definition set_is_running (b : bool) (s : state) : state :=
  mkState b (driver s) (playwright s) (browser s) (page s) (clock s).
Definition set_driver (b : bool) (s : state) : state :=
  mkState (is_running s) b (playwright s) (browser s) (page s) (clock s).
Definition set_playwright (b : bool) (s : state) : state :=
  mkState (is_running s) (driver s) b (browser s) (page s) (clock s).
Definition set_browser (b : bool) (s : state) : state :=
  mkState (is_running s) (driver s) (playwright s) b (page s) (clock s).
Definition set_page (b : bool) (s : state) : state :=
  mkState (is_running s) (driver s) (playwright s) (browser s) b (clock s).
Definition advance (s : state) : state :=
  mkState (is_running s) (driver s) (playwright s) (browser s) (page s)
          (S (clock s)).

(** The constructor arguments of [AutomationWorker]. *)
Record AutomationWorker := mkWorker {
  gtp_url : string;
  email : string;
  password : string;
  lvc_users : list UserRecord;
  standard_users : list UserRecord;
  user_password : string;
  debug_mode : bool
}.

(** [AutomationWorker.__init__]: [is_running] is True, no driver yet. *)
Definition init : state := mkState true false false false false 0.

(* ================================================================== *)
(** * Control flow *)
(* ================================================================== *)

(** How a block of Python statements ends. *)
Inductive ctl (A : Type) :=
| Val (a : A)     (* falls through with a value *)
| Ret             (* return *)
| Brk             (* break *)
| Exc (e : exn).  (* an exception propagates *)

Arguments Val {A} a.
Arguments Ret {A}.
Arguments Brk {A}.
Arguments Exc {A} e.

(** A block: from a state to how it ends, the new state and its log. *)
Definition M (A : Type) : Type := state -> ctl A * state * list event.

Definition result {A} (x : ctl A * state * list event) : ctl A := fst (fst x).
Definition final {A} (x : ctl A * state * list event) : state := snd (fst x).
Definition log {A} (x : ctl A * state * list event) : list event := snd x.

Definition ret {A} (a : A) : M A := fun s => (Val a, s, []).

Definition bind {A B} (m : M A) (k : A -> M B) : M B :=
  fun s =>
    match m s with
    | (Val a, s1, t1) =>
        match k a s1 with
        | (r, s2, t2) => (r, s2, t1 ++ t2)
        end
    | (Ret, s1, t1) => (Ret, s1, t1)
    | (Brk, s1, t1) => (Brk, s1, t1)
    | (Exc e, s1, t1) => (Exc e, s1, t1)
    end.

Notation "x <- m ;; k" := (bind m (fun x => k))
  (at level 61, m at next level, right associativity).
Notation "m ;; k" := (bind m (fun _ => k))
  (at level 61, right associativity).

Definition raise {A} (e : exn) : M A := fun s => (Exc e, s, []).
Definition return_ {A} : M A := fun s => (Ret, s, []).
Definition break {A} : M A := fun s => (Brk, s, []).
Definition when (b : bool) (m : M unit) : M unit := if b then m else ret tt.
Definition get {A} (f : state -> A) : M A := fun s => (Val (f s), s, []).
Definition modify (f : state -> state) : M unit := fun s => (Val tt, f s, []).
Definition record (e : event) : M unit := fun s => (Val tt, s, [e]).

(** try: m except Exception as e: h e *)
Definition try_except {A} (m : M A) (h : exn -> M A) : M A :=
  fun s =>
    match m s with
    | (Exc e, s1, t1) =>
        match h e s1 with
        | (r, s2, t2) => (r, s2, t1 ++ t2)
        end
    | x => x
    end.

(** try: m finally: f.  The finally block runs however [m] ends; when it
    falls through, the block ends the way [m] did. *)
Definition try_finally {A} (m : M A) (f : M unit) : M A :=
  fun s =>
    match m s with
    | (r, s1, t1) =>
        match f s1 with
        | (Val _, s2, t2) => (r, s2, t1 ++ t2)
        | (Ret, s2, t2) => (Ret, s2, t1 ++ t2)
        | (Brk, s2, t2) => (Brk, s2, t1 ++ t2)
        | (Exc e, s2, t2) => (Exc e, s2, t1 ++ t2)
        end
    end.

(** for x in xs: body x *)
Fixpoint for_each {X} (xs : list X) (body : X -> M unit) : M unit :=
  match xs with
  | [] => ret tt
  | x :: xs' =>
      fun s =>
        match body x s with
        | (Val _, s1, t1) =>
            match for_each xs' body s1 with
            | (r, s2, t2) => (r, s2, t1 ++ t2)
            end
        | (Brk, s1, t1) => (Val tt, s1, t1)
        | (Ret, s1, t1) => (Ret, s1, t1)
        | (Exc e, s1, t1) => (Exc e, s1, t1)
        end
  end.

(** The body of a method that returns no value: a return ends the method
    normally. *)
Definition def (m : M unit) : M unit :=
  fun s =>
    match m s with
    | (Ret, s1, t1) => (Val tt, s1, t1)
    | x => x
    end.

(* ================================================================== *)
(** * The browser driver and the worker *)
(* ================================================================== *)

Section Automation.

Variable E : env.

(** ** Steps *)

(** [AutomationWorker.stop], run by the presentation thread: it emits a
    progress line and clears the flag. *)
Definition stop (s : state) : state * list event :=
  (set_is_running false s, [Invoke m_stop; Progress "Stopping process..."]).

(** One step of the worker.  If the environment schedules [stop] just
    before this step, [stop] happens first.  The step returns its index. *)
Definition step : M nat :=
  fun s =>
    if stop_at E (clock s)
    then (Val (clock s), advance (fst (stop s)), snd (stop s))
    else (Val (clock s), advance s, []).

(** Emitting a signal. *)
Definition emit (e : event) : M unit := step ;; record e.

(** [self.progress_callback], bound to [progress_update.emit]. *)
Definition progress_callback (line : string) : M unit := emit (Progress line).

(** A call into Playwright that the browser may fail. *)
Definition playwright_call (c : call) : M unit :=
  k <- step ;;
  record (Browser c) ;;
  match raised c (reply_at E k) with
  | Some e => raise e
  | None => ret tt
  end.

(** The two teardown calls, [browser.close()] and [playwright.stop()].
    They release the session and are taken to return: the environment
    answers the calls of the try block of [run], not these two. *)
Definition teardown_call (c : call) : M unit := step ;; record (Browser c).

(** Reading [self.is_running]. *)
Definition read_is_running : M bool :=
  step ;;
  b <- get is_running ;;
  record (ReadFlag b) ;;
  ret b.

(** ** BrowserDriver *)

Definition launch : M unit :=
  record (Invoke m_launch) ;;
  progress_callback "Launching browser..." ;;
  playwright_call SyncPlaywrightStart ;;
  modify (set_playwright true) ;;
  playwright_call ChromiumLaunch ;;
  modify (set_browser true) ;;
  playwright_call NewPage ;;
  modify (set_page true) ;;
  progress_callback "Browser launched successfully.".

(** Lines 40 to 68 of [login]: the page check, the navigation, the email
    and the password. *)
Definition login_steps (url email password : string) : M unit :=
  p <- get page ;;
  (if negb p
   then raise (mkExn "Exception" "Browser is not launched. Call launch() first.")
   else ret tt) ;;
  progress_callback ("Navigating to login page: " +++ url) ;;
  playwright_call (Goto url 60000) ;;
  progress_callback "Entering email..." ;;
  playwright_call (ExpectVisible email_locator 30000) ;;
  playwright_call (Fill email_locator email) ;;
  progress_callback "Clicking 'Next' button..." ;;
  playwright_call (ExpectVisible next_button_locator 30000) ;;
  playwright_call (Click next_button_locator) ;;
  progress_callback "Email submitted." ;;
  progress_callback "Entering password..." ;;
  playwright_call (ExpectVisible password_locator 30000) ;;
  playwright_call (Fill password_locator password) ;;
  progress_callback "Clicking 'Verify' button..." ;;
  playwright_call (ExpectVisible verify_button_locator 30000) ;;
  playwright_call (Click verify_button_locator) ;;
  progress_callback "Password submitted." ;;
  progress_callback "Looking for MFA options...".

(** The body of the try block, lines 70 to 78. *)
Definition mfa_selection : M unit :=
  playwright_call (ExpectVisible push_option_locator 30000) ;;
  progress_callback "Push notification option found. Clicking it." ;;
  playwright_call (Click push_option_locator) ;;
  progress_callback "Waiting for push sent confirmation..." ;;
  playwright_call (ExpectVisible push_sent_locator 15000) ;;
  progress_callback "Confirmation received: Push notification sent.".

(** The line logged by the except clause of line 80. *)
Definition mfa_info_line (e : exn) : string :=
  "[INFO] Did not find MFA selection screen, or an error occurred. Assuming push was sent by default. Details: "
  +++ exn_msg e.

(** The try statement of lines 69 to 80 of [login]. *)
Definition mfa_detection : M unit :=
  try_except mfa_selection (fun e => progress_callback (mfa_info_line e)).

(** Lines 82 to 86 of [login]: the wait for the operator's approval. *)
Definition approval_wait : M unit :=
  progress_callback "Waiting for Multi-Factor Authentication (MFA)..." ;;
  progress_callback ">>> Please approve the notification on your phone. <<<" ;;
  playwright_call (WaitForUrlNotOkta 120000) ;;
  progress_callback "MFA approved. Login successful!".

Definition login (url email password : string) : M unit :=
  record (Invoke (m_login url email password)) ;;
  login_steps url email password ;;
  mfa_detection ;;
  approval_wait.

Definition wait_for_page_to_settle : M unit :=
  record (Invoke m_wait_for_page_to_settle) ;;
  progress_callback "Waiting for page to fully load..." ;;
  playwright_call (WaitForLoadStateIdle 30000) ;;
  progress_callback "Page has settled.".

(** Line 106: the name of the account to create. *)
Definition username_of (user_details : UserRecord) : string :=
  str (Username user_details) +++ str (Postfix user_details).

(** Line 107: [str(user_details['Currency']).split(' ')[0]]. *)
Definition currency_code_of (user_details : UserRecord) : string :=
  Py.first_field (Py.split_on " " (str (Currency user_details))).

(** Lines 98 to 155, the statements of [create_standard_user]. *)
Definition create_steps (base_url : string) (user_details : UserRecord)
           (user_password : string) : M unit :=
  p <- get page ;;
  (if negb p
   then raise (mkExn "Exception" "Browser is not launched.")
   else ret tt) ;;
  let create_url := base_url +++ "/CreateUserAccount" in
  progress_callback ("Navigating to Create User page: " +++ create_url) ;;
  playwright_call (Goto create_url 60000) ;;
  wait_for_page_to_settle ;;
  let username := username_of user_details in
  let currency_code := currency_code_of user_details in
  progress_callback ("Creating user: " +++ username +++ " with currency "
                     +++ currency_code) ;;
  progress_callback "  - Player Type: Skipped." ;;
  progress_callback "  - Setting Market..." ;;
  playwright_call (ExpectVisible market_dropdown_button 15000) ;;
  playwright_call (Click market_dropdown_button) ;;
  playwright_call (Click market_no_regulated) ;;
  progress_callback "  - Setting Product..." ;;
  playwright_call (ExpectVisible product_dropdown_button 15000) ;;
  playwright_call (Click product_dropdown_button) ;;
  playwright_call (Click product_island_paradise) ;;
  progress_callback "  - Filling Username..." ;;
  playwright_call (ExpectVisible username_locator 15000) ;;
  playwright_call (Fill username_locator username) ;;
  progress_callback "  - Filling Password..." ;;
  playwright_call (ExpectVisible new_password_locator 15000) ;;
  playwright_call (Fill new_password_locator user_password) ;;
  progress_callback "  - Setting Currency..." ;;
  playwright_call (ExpectVisible currency_locator 30000) ;;
  playwright_call (SelectOption currency_locator currency_code) ;;
  progress_callback "  - Clicking 'Create Account'..." ;;
  playwright_call (ExpectVisible create_button_locator 30000) ;;
  playwright_call (Click create_button_locator) ;;
  playwright_call (ExpectVisible success_locator 30000) ;;
  progress_callback ("Successfully created user: " +++ username).

Definition create_standard_user (base_url : string) (user_details : UserRecord)
           (user_password : string) : M unit :=
  record (Invoke (m_create_standard_user base_url user_details user_password)) ;;
  create_steps base_url user_details user_password.

(** Lines 158 to 162, the statements of [close]. *)
Definition close_steps : M unit :=
  b <- get browser ;;
  when b (teardown_call BrowserClose ;;
          progress_callback "Browser closed.") ;;
  p <- get playwright ;;
  when p (teardown_call PlaywrightStop).

Definition close : M unit :=
  record (Invoke m_close) ;;
  close_steps.

(** ** AutomationWorker *)

(** [if not self.is_running: return] *)
Definition return_if_stopped : M unit :=
  b <- read_is_running ;;
  if negb b then return_ else ret tt.

(** [if not self.is_running: break] *)
Definition break_if_stopped : M unit :=
  b <- read_is_running ;;
  if negb b then break else ret tt.

(** Lines 244 to 249. *)
Definition lvc_loop (w : AutomationWorker) : M unit :=
  for_each (lvc_users w) (fun user =>
    break_if_stopped ;;
    create_standard_user (gtp_url w) user (user_password w) ;;
    when (debug_mode w)
      (emit (Progress "--- DEBUG MODE: Halting after first LVC user. ---") ;;
       break)).

(** Lines 254 to 256. *)
Definition standard_loop (w : AutomationWorker) : M unit :=
  for_each (standard_users w) (fun user =>
    break_if_stopped ;;
    create_standard_user (gtp_url w) user (user_password w)).

(** Lines 251 to 256. *)
Definition standard_phase (w : AutomationWorker) : M unit :=
  when (negb (debug_mode w))
    (return_if_stopped ;;
     emit (Progress (Py.LF +++ "Step 3: Processing Standard users...")) ;;
     standard_loop w).

(** Lines 258 and 259. *)
Definition announce_completion : M unit :=
  b <- read_is_running ;;
  when b (emit (Progress (Py.LF +++ "Automation complete!"))).

(** Lines 229 to 243: everything up to the announcement of the LVC
    batch. *)
Definition prelude (w : AutomationWorker) : M unit :=
  emit (Progress "Automation thread started.") ;;
  when (debug_mode w)
    (emit (Progress "--- DEBUG MODE ENABLED: Processing first LVC user only. ---")) ;;
  return_if_stopped ;;
  launch ;;
  return_if_stopped ;;
  login (gtp_url w) (email w) (password w) ;;
  return_if_stopped ;;
  wait_for_page_to_settle ;;
  return_if_stopped ;;
  emit (Progress (Py.LF +++ "Step 2: Processing LVC users...")).

(** The try block of [run], lines 229 to 259. *)
Definition run_body (w : AutomationWorker) : M unit :=
  prelude w ;;
  lvc_loop w ;;
  standard_phase w ;;
  announce_completion.

(** Lines 266 to 272. *)
Definition full_error_message (e : exn) : string :=
  "A critical error stopped the automation." +++ Py.LF +++ Py.LF +++
  "Error Type: " +++ exn_type e +++ Py.LF +++
  "Details: " +++ exn_msg e.

(** The except clause of [run], lines 261 to 274.  What it prints on the
    standard output is not part of the log. *)
Definition report_error (e : exn) : M unit :=
  emit (Progress ("[ERROR] " +++ full_error_message e)) ;;
  emit (AutomationError (full_error_message e)).

(** The finally clause of [run], lines 275 to 278. *)
Definition release : M unit :=
  d <- get driver ;;
  when d close ;;
  emit AutomationFinished.

Definition run (w : AutomationWorker) : M unit :=
  def (modify (set_driver true) ;;
       try_finally (try_except (run_body w) report_error) release).

End Automation.

(** The log of a whole run of a fresh worker. *)
Definition trace (E : env) (w : AutomationWorker) : list event :=
  log (run E w init).

(** The records for which an account-creation sequence was started. *)
Fixpoint attempts (t : list event) : list UserRecord :=
  match t with
  | [] => []
  | Invoke (m_create_standard_user _ u _) :: t' => u :: attempts t'
  | _ :: t' => attempts t'
  end.

(* ================================================================== *)
(** * Helper functions: the input files *)
(* ================================================================== *)

(** How a Python function that may raise ends. *)
Inductive raises (A : Type) :=
| Returned (a : A)
| Raised (e : exn).

Arguments Returned {A} a.
Arguments Raised {A} e.

(** A worksheet read with [header=None]: its rows, each a list of cells. *)
Definition sheet := list (list cell).

(** What [pd.ExcelFile] finds at a path. *)
Inductive excel_file :=
| NoSuchFile
| Unreadable (details : string)
| Workbook (sheets : list (string * sheet)).

(** The files of the operator's machine: the decoded text of a text file,
    if it can be opened, and the Excel file at a path. *)
Record files := mkFiles {
  read_text : string -> option string;
  read_excel : string -> excel_file
}.

(** A three-column section of the sheet once its first row has been made
    the header: [X.columns] and the rows of [X]. *)
Record frame := mkFrame {
  columns : list cell;
  rows : list (list cell)
}.

Definition is_column (name : string) (c : cell) : bool :=
  match c with
  | Some t => String.eqb t name
  | None => false
  end.

(** [name in X.columns] *)
Definition has_column (name : string) (X : frame) : bool :=
  existsb (is_column name) (columns X).

(** [df.iloc[:, lo:lo+3]]: the slice takes the columns that exist. *)
Definition iloc_columns (lo : nat) (df : sheet) : sheet :=
  map (fun row => firstn 3 (skipn lo row)) df.

(** [X.columns = X.iloc[0]] followed by [X = X[1:].reset_index(drop=True)].
    [iloc[0]] raises IndexError on a frame without rows. *)
Definition promote_header (X : sheet) : raises frame :=
  match X with
  | [] => Raised (mkExn "IndexError" "single positional indexer is out-of-bounds")
  | header :: data => Returned (mkFrame header data)
  end.

(** [X.rename(columns={old: new}, inplace=True)] *)
Definition rename (old new : string) (X : frame) : frame :=
  mkFrame (map (fun c => if is_column old c then Some new else c) (columns X))
          (rows X).

(** The row has a value in every column called [name]; a row is as wide as
    the header, a cell it lacks counts as blank. *)
Fixpoint filled (name : string) (header row : list cell) : bool :=
  match header with
  | [] => true
  | h :: header' =>
      (if is_column name h
       then match hd None row with
            | Some _ => true
            | None => false
            end
       else true)
      && filled name header' (tl row)
  end.

(** [X.dropna(subset=[name], inplace=True)]: KeyError when no column is
    called [name], otherwise the rows with a blank there are dropped. *)
Definition dropna (name : string) (X : frame) : raises frame :=
  if has_column name X
  then Returned (mkFrame (columns X) (filter (filled name (columns X)) (rows X)))
  else Raised (mkExn "KeyError" ("['" +++ name +++ "']")).

(** [d[name]] in the dictionary that [to_dict('records')] builds for a row:
    when two columns share a name the later one wins. *)
Fixpoint dict_get (name : string) (header row : list cell) (found : cell) : cell :=
  match header with
  | [] => found
  | h :: header' =>
      dict_get name header' (tl row)
               (if is_column name h then hd None row else found)
  end.

(** One record of [X.to_dict('records')], read at the three keys the driver
    uses. *)
Definition record_of (header row : list cell) : UserRecord :=
  mkUser (dict_get "Currency" header row None)
         (dict_get "Username" header row None)
         (dict_get "Postfix" header row None).

Definition to_dict_records (X : frame) : list UserRecord :=
  map (record_of (columns X)) (rows X).

(** [all(col in X.columns for col in required_columns)] *)
Definition has_required_columns (X : frame) : bool :=
  forallb (fun col => has_column col X) ["Currency"; "Username"; "Postfix"].

Definition bind_raises {A B} (r : raises A) (k : A -> raises B) : raises B :=
  match r with
  | Returned a => k a
  | Raised e => Raised e
  end.

Notation "x <~ r ;;; k" := (bind_raises r (fun x => k))
  (at level 61, r at next level, right associativity).

Fixpoint find_sheet (name : string) (sheets : list (string * sheet)) : option sheet :=
  match sheets with
  | [] => None
  | (n, sh) :: sheets' => if String.eqb n name then Some sh else find_sheet name sheets'
  end.

(** Lines 178 to 182: the LVC section, columns A to C. *)
Definition lvc_section (df : sheet) : raises frame :=
  lvc_df <~ promote_header (iloc_columns 0 df) ;;;
  dropna "Currency" (rename "LVC Currency" "Currency" lvc_df).

(** Lines 183 to 186: the standard section, columns E to G. *)
Definition standard_section (df : sheet) : raises frame :=
  standard_df <~ promote_header (iloc_columns 4 df) ;;;
  dropna "Currency" standard_df.

(** Lines 167 to 194. *)
Definition parse_user_data (fs : files) (file_path : string)
  : raises (list UserRecord * list UserRecord) :=
  let required_sheet := "Sheet1" in
  match read_excel fs file_path with
  | NoSuchFile =>
      Raised (mkExn "FileNotFoundError"
                ("The file could not be found at the path: " +++ file_path))
  | Unreadable details =>
      Raised (mkExn "OSError"
                ("The file at " +++ file_path +++
                 " could not be opened or is corrupted. Details: " +++ details))
  | Workbook sheets =>
      match find_sheet required_sheet sheets with
      | None =>
          Raised (mkExn "ValueError"
                    ("A required sheet named '" +++ required_sheet +++
                     "' was not found in the Excel file."))
      | Some df =>
          lvc_df <~ lvc_section df ;;;
          standard_df <~ standard_section df ;;;
          if negb (has_required_columns lvc_df)
          then Raised (mkExn "ValueError"
                 "The LVC section (Columns A-C) is missing required headers: 'LVC Currency', 'Username', 'Postfix'.")
          else
          if negb (has_required_columns standard_df)
          then Raised (mkExn "ValueError"
                 "The Standard section (Columns E-G) is missing required headers: 'Currency', 'Username', 'Postfix'.")
          else Returned (to_dict_records lvc_df, to_dict_records standard_df)
      end
  end.

(** Lines 196 to 204.  [open] raises FileNotFoundError when the file cannot
    be opened. *)
Definition parse_credentials_file (fs : files) (file_path : string)
  : raises (string * string) :=
  match read_text fs file_path with
  | None =>
      Raised (mkExn "FileNotFoundError"
                ("[Errno 2] No such file or directory: '" +++ file_path +++ "'"))
  | Some text =>
      let lines := Py.readlines text in
      if Nat.ltb (List.length lines) 2
      then Raised (mkExn "ValueError"
             "Credentials file must have at least two lines (email and password).")
      else Returned (Py.strip (nth 0 lines EmptyString),
                     Py.strip (nth 1 lines EmptyString))
  end.

(* ================================================================== *)
(** * The main window: starting a run *)
(* ================================================================== *)

(** The entries of the environment dropdown, the keys of [GTP_VERSIONS]. *)
Inductive gtp_version := GTP640 | GTP641 | GTP642 | GTP643 | GTP644.

Definition GTP_VERSIONS (v : gtp_version) : string :=
  match v with
  | GTP640 => "https://admin-app1-gtp640.installprogram.eu"
  | GTP641 => "https://admin-app1-gtp641.installprogram.eu"
  | GTP642 => "https://admin-app1-gtp642.installprogram.eu"
  | GTP643 => "https://admin-app1-gtp643.installprogram.eu"
  | GTP644 => "https://admin-app1-gtp644.installprogram.eu"
  end.

(** What the operator has entered when the start button is clicked. *)
Record form := mkForm {
  gtp_selection : gtp_version;
  cred_path : string;
  user_data_path : string;
  new_user_password : string;
  debug_checked : bool
}.

(** What the main window shows. *)
Inductive ui_event :=
| LogMessage (message : string)
| WarningBox (title text : string)
| CriticalBox (title text : string)
| ControlsDisabled
| ThreadStarted.

Fixpoint replicate (n : nat) (s : string) : string :=
  match n with
  | O => EmptyString
  | S n' => s +++ replicate n' s
  end.

(** The decimal numeral of a number, as an f-string prints it. *)
Definition decimal (n : nat) : string :=
  DecimalString.NilZero.string_of_uint (Nat.to_uint n).

(** The pre-flight part of the try block of lines 391 to 398: both files
    are parsed, the credentials first. *)
Definition preflight (fs : files) (f : form)
  : list ui_event * raises (string * string * (list UserRecord * list UserRecord)) :=
  let log1 := [LogMessage ("Parsing credentials file: " +++ cred_path f)] in
  match parse_credentials_file fs (cred_path f) with
  | Raised e => (log1, Raised e)
  | Returned (email, password) =>
      let log2 := log1 ++
        [LogMessage "  - Credentials parsed successfully.";
         LogMessage ("Parsing user data file: " +++ user_data_path f)] in
      match parse_user_data fs (user_data_path f) with
      | Raised e => (log2, Raised e)
      | Returned (lvc_users, standard_users) =>
          (log2 ++
           [LogMessage ("  - Validation successful: Found " +++
                        decimal (List.length lvc_users) +++ " LVC and " +++
                        decimal (List.length standard_users) +++
                        " Standard users.")],
           Returned (email, password, (lvc_users, standard_users)))
      end
  end.

(** Lines 380 to 383: the checks on the form. *)
Definition input_errors (f : form) : list string :=
  (if Py.contains "No file selected" (cred_path f)
   then ["You must select a credentials file."] else []) ++
  (if Py.contains "No file selected" (user_data_path f)
   then ["You must select a user data file."] else []) ++
  (if Py.is_empty (new_user_password f)
   then ["The password for new users cannot be empty."] else []).

(** [MainWindow.start_automation], lines 372 to 422: what the window shows
    and the worker whose thread is started, if one is. *)
Definition start_automation (fs : files) (f : form)
  : list ui_event * option AutomationWorker :=
  let gtp_url := GTP_VERSIONS (gtp_selection f) in
  match input_errors f with
  | (_ :: _) as errors =>
      ([WarningBox "Input Error" (Py.join Py.LF errors)], None)
  | [] =>
      let shown :=
        [LogMessage (replicate 50 "="); LogMessage "Starting pre-flight checks..."] in
      match preflight fs f with
      | (logged, Raised e) =>
          let error_message :=
            "Failed to read or validate an input file." +++ Py.LF +++ Py.LF +++
            "Error: " +++ exn_msg e in
          (shown ++ logged ++
           [LogMessage ("[ERROR] " +++ error_message);
            CriticalBox "File Error" error_message],
           None)
      | (logged, Returned (email, password, (lvc_users, standard_users))) =>
          (shown ++ logged ++
           [LogMessage "Pre-flight checks passed. Starting automation process...";
            ControlsDisabled; ThreadStarted],
           Some (mkWorker gtp_url email password lvc_users standard_users
                          (new_user_password f) (debug_checked f)))
      end
  end.

(* ================================================================== *)
(** * Logs *)
(* ================================================================== *)

Definition is_create (e : event) : bool :=
  match e with
  | Invoke (m_create_standard_user _ _ _) => true
  | _ => false
  end.

Definition is_close (e : event) : bool :=
  match e with
  | Invoke m_close => true
  | _ => false
  end.

Definition is_stop (e : event) : bool :=
  match e with
  | Invoke m_stop => true
  | _ => false
  end.

Definition is_error (e : event) : bool :=
  match e with
  | AutomationError _ => true
  | _ => false
  end.

Definition is_finished (e : event) : bool :=
  match e with
  | AutomationFinished => true
  | _ => false
  end.

Definition is_read (e : event) : bool :=
  match e with
  | ReadFlag _ => true
  | _ => false
  end.

(** The worker has seen the flag cleared. *)
Definition is_read_false (e : event) : bool :=
  match e with
  | ReadFlag false => true
  | _ => false
  end.

(** A signal on the worker's channel. *)
Definition is_signal (e : event) : bool :=
  match e with
  | Progress _ | AutomationError _ | AutomationFinished => true
  | _ => false
  end.

(** The events of the driver's own steps: progress lines, browser calls,
    the entry of [launch], [login] and [wait_for_page_to_settle], and what
    a [stop] of the presentation thread adds. *)
Definition basic (e : event) : bool :=
  match e with
  | Progress _ | Browser _ => true
  | Invoke m_launch | Invoke (m_login _ _ _)
  | Invoke m_wait_for_page_to_settle | Invoke m_stop => true
  | _ => false
  end.

(** The events of the worker outside account creation and teardown. *)
Definition plain_event (e : event) : bool := basic e || is_read e.

Definition count (p : event -> bool) (t : list event) : nat :=
  List.length (filter p t).

(** What follows the first event that satisfies [q]; nothing if there is
    none. *)
Fixpoint after_first (q : event -> bool) (t : list event) : list event :=
  match t with
  | [] => []
  | e :: t' => if q e then t' else after_first q t'
  end.

(* ================================================================== *)
(** * Properties of blocks and of logs; inputs used in examples *)
(* ================================================================== *)

(** Every event a block logs satisfies [p], from whatever state. *)
Definition emits (p : event -> bool) {A} (m : M A) : Prop :=
  forall s, forallb p (log (m s)) = true.

(** [p] holds of what a [stop] adds to the log. *)
Definition admits_stop (p : event -> bool) : Prop :=
  p (Invoke m_stop) = true /\ p (Progress "Stopping process...") = true.

(** A block that leaves the field [f] of the state as it found it. *)
Definition keeps (f : state -> bool) {A} (m : M A) : Prop :=
  forall s, f (final (m s)) = f s.

(** [f] is a field that neither a step nor a [stop] touches. *)
Definition untouched (f : state -> bool) : Prop :=
  forall s, f (advance s) = f s /\ f (set_is_running false s) = f s.

(** A block that always falls through. *)
Definition total {A} (m : M A) : Prop :=
  forall s, exists a, result (m s) = Val a.

(** The state in which the try statement of [run] is entered. *)
Definition started : state := set_driver true init.

(** The try block of [run] with its except clause. *)
Definition guarded_body (E : env) (w : AutomationWorker) : M unit :=
  try_except (run_body E w) (report_error E).

(** Started with the flag set, the block ends with the flag set, and it
    ends by falling through or by raising: it neither returns from the
    method nor breaks out of a loop. *)
Definition live {A} (m : M A) : Prop :=
  forall s, is_running s = true ->
    is_running (final (m s)) = true /\
    match result (m s) with
    | Val _ | Exc _ => True
    | Ret | Brk => False
    end.

(** Started with the flag set, the block either falls through having
    started an account-creation sequence for exactly the records [us], in
    this order, or it raises. The flag is still set afterwards. *)
Definition covers {A} (m : M A) (us : list UserRecord) : Prop :=
  forall s, is_running s = true ->
    is_running (final (m s)) = true /\
    ((exists a, result (m s) = Val a) /\ attempts (log (m s)) = us \/
     (exists e, result (m s) = Exc e)).

(** The first row of the sheet in the three columns from [lo] on. *)
Definition header_row (lo : nat) (df : sheet) : list cell :=
  firstn 3 (skipn lo (hd [] df)).

(** The rows below the first in the three columns from [lo] on. *)
Definition data_rows (lo : nat) (df : sheet) : sheet :=
  iloc_columns lo (tl df).

(** A header row has a cell that reads [name]. *)
Definition names (name : string) (header : list cell) : bool :=
  existsb (is_column name) header.

(** Columns A to C carry the headers Currency or LVC Currency, Username and
    Postfix. *)
Definition lvc_headers_present (df : sheet) : bool :=
  (names "Currency" (header_row 0 df) || names "LVC Currency" (header_row 0 df))
  && names "Username" (header_row 0 df)
  && names "Postfix" (header_row 0 df).

(** Columns E to G carry the headers Currency, Username and Postfix. *)
Definition standard_headers_present (df : sheet) : bool :=
  names "Currency" (header_row 4 df)
  && names "Username" (header_row 4 df)
  && names "Postfix" (header_row 4 df).

(** The header of the LVC section after the renaming of line 181. *)
Definition lvc_header (df : sheet) : list cell :=
  map (fun c => if is_column "LVC Currency" c then Some "Currency" else c)
      (header_row 0 df).

(** The type of the exception that a sheet without its headers raises. *)
Definition missing_header_error (df : sheet) : string :=
  match df with
  | [] => "IndexError"
  | _ :: _ =>
      if names "Currency" (lvc_header df) && names "Currency" (header_row 4 df)
      then "ValueError"
      else "KeyError"
  end.

(** The records of a section: one for each data row with a value in the
    Currency column, in the order of the sheet. *)
Definition records (header : list cell) (data : sheet) : list UserRecord :=
  map (record_of header) (filter (filled "Currency" header) data).

(** An event other than the entry of [create_standard_user]. *)
Definition not_create (e : event) : bool := negb (is_create e).

(** One iteration of the LVC loop in debug mode. *)
Definition debug_iteration (E : env) (w : AutomationWorker)
           (user : UserRecord) : M unit :=
  break_if_stopped E ;;
  create_standard_user E (gtp_url w) user (user_password w) ;;
  when true
    (emit E (Progress "--- DEBUG MODE: Halting after first LVC user. ---") ;;
     break).

(** The progress line of line 253, which opens the standard batch. *)
Definition is_standard_announcement (e : event) : bool :=
  match e with
  | Progress line =>
      String.eqb line (Py.LF +++ "Step 3: Processing Standard users...")
  | _ => false
  end.

(** A block that ends by falling through or by raising. *)
Definition plain {A} (m : M A) : Prop :=
  forall s, match result (m s) with
            | Val _ | Exc _ => True
            | Ret | Brk => False
            end.

(** The token of a text that starts with it: the characters up to the
    first whitespace character. *)
Fixpoint take_token (s : string) : string :=
  match s with
  | EmptyString => EmptyString
  | String a s' => if Py.is_space a then EmptyString else String a (take_token s')
  end.

(** The first whitespace-delimited token of a text, in the words of the
    specification: the first maximal run of characters that are not
    whitespace.  A text of whitespace only has no token. *)
Definition first_whitespace_token (s : string) : option string :=
  match Py.lstrip s with
  | EmptyString => None
  | t => Some (take_token t)
  end.

(** The characters of a text. *)
Fixpoint chars (s : string) : list ascii :=
  match s with
  | EmptyString => []
  | String a s' => a :: chars s'
  end.

(** The events of a provisioning sequence in which an option is selected
    select [label] in the currency dropdown. *)
Definition selects_only (label : string) (e : event) : bool :=
  match e with
  | Browser (SelectOption currency_locator l) => String.eqb l label
  | Browser (SelectOption _ _) => false
  | _ => true
  end.

(** A [stop] happened in the log. *)
Definition stopped (t : list event) : bool := existsb is_stop t.

(** The flag after a block: cleared if it was cleared before or if a [stop]
    happened during the block, and never set again. *)
Definition tracks {A} (m : M A) : Prop :=
  forall s, is_running (final (m s)) = is_running s && negb (stopped (log (m s))).

(** What a log holds once the flag is cleared: the whole log if the flag was
    cleared from the start, and otherwise what follows the first [stop]. *)
Definition tail_from (running : bool) (t : list event) : list event :=
  if running then after_first is_stop t else t.

(** Once the flag is cleared the block starts no account-creation
    sequence. *)
Definition guards {A} (m : M A) : Prop :=
  forall s, forallb not_create (tail_from (is_running s) (log (m s))) = true.

(** The same for a block that is entered with the flag set. *)
Definition guards_live {A} (m : M A) : Prop :=
  forall s, is_running s = true ->
            forallb not_create (after_first is_stop (log (m s))) = true.

(** The worker has read the flag cleared. *)
Definition seen (t : list event) : bool := existsb is_read_false t.

(** What the try block still logs after it has read the flag cleared:
    further reads of the cleared flag, and what further calls of [stop]
    add. *)
Definition hushed (e : event) : bool :=
  match e with
  | ReadFlag false => true
  | Invoke m_stop => true
  | Progress line => String.eqb line "Stopping process..."
  | _ => false
  end.

(** What a run still logs after it has read the flag cleared: the above,
    the teardown of the session and the completion signal. *)
Definition after_cancel (e : event) : bool :=
  match e with
  | ReadFlag false => true
  | Invoke m_stop | Invoke m_close => true
  | Browser BrowserClose | Browser PlaywrightStop => true
  | Progress line =>
      String.eqb line "Stopping process..." || String.eqb line "Browser closed."
  | AutomationFinished => true
  | _ => false
  end.




(** Entered with the flag cleared, the block logs nothing but [hushed]
    events, leaves the flag cleared and does not raise. *)
Definition mute {A} (m : M A) : Prop :=
  forall s, is_running s = false ->
    forallb hushed (log (m s)) = true /\
    is_running (final (m s)) = false /\
    (forall e, result (m s) <> Exc e).

(** Three records, two for the LVC batch and one for the standard batch,
    and a worker for them. *)
Definition usd_user : UserRecord :=
  mkUser (Some "USD (US Dollar)") (Some "lvcplayer") (Some "01").

Definition eur_user : UserRecord :=
  mkUser (Some "EUR (Euro)") (Some "lvcplayer") (Some "02").

Definition gbp_user : UserRecord :=
  mkUser (Some "GBP") (Some "player") (Some "07").

Definition sample_worker (debug : bool) : AutomationWorker :=
  mkWorker "https://admin-app1-gtp640.installprogram.eu"
           "operator@example.com" "secret"
           [usd_user; eur_user] [gbp_user] "snow" debug.

(** The browser answers every call and nobody stops the worker. *)
Definition calm : env := mkEnv (fun _ => Done) (fun _ => false).

(** The call issued at step [n] gets the answer [r]; every other call
    succeeds. *)
Definition fail_at (n : nat) (r : reply) : env :=
  mkEnv (fun k => if Nat.eqb k n then r else Done) (fun _ => false).

(** [stop] is invoked just before step [n]. *)
Definition stop_before (n : nat) : env :=
  mkEnv (fun _ => Done) (fun k => Nat.eqb k n).

(** The state of a worker whose driver has launched the browser. *)
Definition launched : state := mkState true true true true true 7.

(** In a run of [sample_worker], step 9 is the navigation to the login page
    and step 33 the wait for the approval. *)
Definition navigation_times_out : env :=
  fail_at 9 (TimedOut "Timeout 60000ms exceeded.").





(** A row of the sheet: columns A to C, the empty column D, columns E
    to G. *)
Definition sheet_row (a b c e f g : cell) : list cell := [a; b; c; None; e; f; g].

(** A sheet with its headers; the second data row has no LVC currency and
    the third no standard currency. *)
Definition sample_sheet : sheet :=
  [ sheet_row (Some "LVC Currency") (Some "Username") (Some "Postfix")
              (Some "Currency") (Some "Username") (Some "Postfix");
    sheet_row (Some "USD (US Dollar)") (Some "lvcplayer") (Some "01")
              (Some "GBP") (Some "player") (Some "07");
    sheet_row None None None
              (Some "SEK") (Some "player") (Some "08");
    sheet_row (Some "EUR (Euro)") (Some "lvcplayer") (Some "02")
              None (Some "player") (Some "09") ].

(** The same sheet without the Postfix header in columns E to G. *)
Definition headless_sheet : sheet :=
  [ sheet_row (Some "LVC Currency") (Some "Username") (Some "Postfix")
              (Some "Currency") (Some "Username") (Some "Suffix");
    sheet_row (Some "USD (US Dollar)") (Some "lvcplayer") (Some "01")
              (Some "GBP") (Some "player") (Some "07") ].

(** The operator's files: a credentials file with both lines, one with the
    email only, and the two workbooks. *)
Definition sample_files : files :=
  mkFiles
    (fun path =>
       if String.eqb path "credentials.txt"
       then Some ("operator@example.com" +++ Py.LF +++ "secret" +++ Py.LF)
       else if String.eqb path "email_only.txt"
       then Some ("operator@example.com" +++ Py.LF)
       else None)
    (fun path =>
       if String.eqb path "users.xlsx"
       then Workbook [("Sheet1", sample_sheet)]
       else if String.eqb path "headless.xlsx"
       then Workbook [("Sheet1", headless_sheet)]
       else NoSuchFile).

(** The form filled in for two of these files. *)
Definition sample_form (credentials users : string) : form :=
  mkForm GTP640 credentials users "snow" false.

(** The browser calls of a log, in order. *)
Fixpoint calls (t : list event) : list call :=
  match t with
  | [] => []
  | Browser c :: t' => c :: calls t'
  | _ :: t' => calls t'
  end.

(** The calls of lines 103 to 154, in the order of the source. *)
Definition provisioning_script (base_url : string) (user_details : UserRecord)
           (user_password : string) : list call :=
  [ Goto (base_url +++ "/CreateUserAccount") 60000;
    WaitForLoadStateIdle 30000;
    ExpectVisible market_dropdown_button 15000;
    Click market_dropdown_button;
    Click market_no_regulated;
    ExpectVisible product_dropdown_button 15000;
    Click product_dropdown_button;
    Click product_island_paradise;
    ExpectVisible username_locator 15000;
    Fill username_locator (str (Username user_details) +++ str (Postfix user_details));
    ExpectVisible new_password_locator 15000;
    Fill new_password_locator user_password;
    ExpectVisible currency_locator 30000;
    SelectOption currency_locator
      (Py.first_field (Py.split_on " " (str (Currency user_details))));
    ExpectVisible create_button_locator 30000;
    Click create_button_locator;
    ExpectVisible success_locator 30000 ].

(** The block issues the calls [L] in this order and falls through, or it
    raises after an initial segment of them. *)
Definition scripted {A} (m : M A) (L : list call) : Prop :=
  forall s,
    (exists a, result (m s) = Val a /\ calls (log (m s)) = L) \/
    (exists e n, result (m s) = Exc e /\ n <= List.length L /\
                 calls (log (m s)) = firstn n L).

(** When the block raises, the last thing it did is the browser call that
    raised the exception: the call is the last event of the log, it was
    issued at the last step [k] the block performed, and the exception is
    the one Playwright raises for the answer of the browser at that
    step. *)
Definition fails_at_call (E : env) {A} (m : M A) : Prop :=
  forall s e, result (m s) = Exc e ->
    exists t c k, log (m s) = t ++ [Browser c] /\
                  raised c (reply_at E k) = Some e /\
                  clock (final (m s)) = S k.

(** The calls of lines 44 to 65, in the order of the source. *)
Definition login_script (url email password : string) : list call :=
  [ Goto url 60000;
    ExpectVisible email_locator 30000;
    Fill email_locator email;
    ExpectVisible next_button_locator 30000;
    Click next_button_locator;
    ExpectVisible password_locator 30000;
    Fill password_locator password;
    ExpectVisible verify_button_locator 30000;
    Click verify_button_locator ].

(** The calls of the try block of lines 70 to 78. *)
Definition mfa_script : list call :=
  [ ExpectVisible push_option_locator 30000;
    Click push_option_locator;
    ExpectVisible push_sent_locator 15000 ].

(** The line that line 155 logs. *)
Definition is_success_line (e : event) : bool :=
  match e with
  | Progress line => prefix "Successfully created user: " line
  | _ => false
  end.

Definition not_success_line (e : event) : bool := negb (is_success_line e).

(** The block logs an event that satisfies [p] exactly when it falls
    through. *)
Definition crowned (p : event -> bool) {A} (m : M A) : Prop :=
  forall s, existsb p (log (m s)) =
            match result (m s) with
            | Val _ => true
            | _ => false
            end.

Definition locator_index (l : locator) : nat :=
  match l with
  | email_locator => 0
  | next_button_locator => 1
  | password_locator => 2
  | verify_button_locator => 3
  | push_option_locator => 4
  | push_sent_locator => 5
  | market_dropdown_button => 6
  | market_no_regulated => 7
  | product_dropdown_button => 8
  | product_island_paradise => 9
  | username_locator => 10
  | new_password_locator => 11
  | currency_locator => 12
  | create_button_locator => 13
  | success_locator => 14
  end.

Definition same_locator (a b : locator) : bool :=
  Nat.eqb (locator_index a) (locator_index b).

(** The element a call acts on: [fill], [click] and [select_option] act on
    an element, the other calls do not. *)
Definition target (c : call) : option locator :=
  match c with
  | Fill l _ | Click l | SelectOption l _ => Some l
  | _ => None
  end.

(** [c] is [expect(l).to_be_visible]. *)
Definition awaits (l : locator) (c : call) : bool :=
  match c with
  | ExpectVisible l' _ => same_locator l l'
  | _ => false
  end.

(** The elements that are acted on although the call just before is not
    the explicit wait for them; [prev] is the call before the first. *)
Fixpoint unawaited_from (prev : option call) (cs : list call) : list locator :=
  match cs with
  | [] => []
  | c :: cs' =>
      match target c with
      | Some l =>
          if match prev with
             | Some p => awaits l p
             | None => false
             end
          then unawaited_from (Some c) cs'
          else l :: unawaited_from (Some c) cs'
      | None => unawaited_from (Some c) cs'
      end
  end.

Definition unawaited (cs : list call) : list locator := unawaited_from None cs.

(** The block starts the sequences of an initial segment of [us], in order,
    and of all of [us] when it falls through with the flag set; entered
    with the flag cleared it starts none and leaves the flag cleared. *)
Definition orderly {A} (m : M A) (us : list UserRecord) : Prop :=
  forall s,
    (is_running s = false ->
     attempts (log (m s)) = [] /\ is_running (final (m s)) = false) /\
    (exists n, n <= List.length us /\ attempts (log (m s)) = firstn n us) /\
    (forall a, result (m s) = Val a -> is_running (final (m s)) = true ->
               attempts (log (m s)) = us).

(** The line of line 259. *)
Definition is_completion_line (e : event) : bool :=
  match e with
  | Progress line => String.eqb line (Py.LF +++ "Automation complete!")
  | _ => false
  end.

Definition not_completion (e : event) : bool := negb (is_completion_line e).

(** The log holds the announcement of completion. *)
Definition announced (t : list event) : bool := existsb is_completion_line t.

(** The block logs [x] whenever it falls through. *)
Definition reaches (x : event) {A} (m : M A) : Prop :=
  forall s a, result (m s) = Val a -> In x (log (m s)).

(** The entries of [create_standard_user] of a run carry the worker's base
    address and its password for new accounts. *)
Definition genuine (w : AutomationWorker) (e : event) : bool :=
  match e with
  | Invoke (m_create_standard_user url _ pw) =>
      String.eqb url (gtp_url w) && String.eqb pw (user_password w)
  | _ => true
  end.

(** What precedes the first event that satisfies [q]; the whole log if
    there is none. *)
Fixpoint before_first (q : event -> bool) (t : list event) : list event :=
  match t with
  | [] => []
  | e :: t' => if q e then [] else e :: before_first q t'
  end.

Definition is_playwright_start (e : event) : bool :=
  match e with
  | Browser SyncPlaywrightStart => true
  | _ => false
  end.






(** From the state [s], when the block raises, the last thing it did is
    the browser call that raised the exception. *)
Definition fails_from (E : env) {A} (m : M A) (s : state) : Prop :=
  forall e, result (m s) = Exc e ->
    exists t c k, log (m s) = t ++ [Browser c] /\
                  raised c (reply_at E k) = Some e /\
                  clock (final (m s)) = S k.

(** The same from every state of a driver that has a page. *)
Definition fails_launched (E : env) {A} (m : M A) : Prop :=
  forall s, page s = true -> fails_from E m s.

(** A block that has a page when it falls through. *)
Definition launches {A} (m : M A) : Prop :=
  forall s a, result (m s) = Val a -> page (final (m s)) = true.

(** The teardown calls among the browser calls. *)
Definition teardown_only (e : event) : bool :=
  match e with
  | Browser BrowserClose | Browser PlaywrightStop => true
  | Browser _ => false
  | _ => true
  end.




(** [CONFIG_FILE] *)
Definition CONFIG_FILE : string := "config.json".

(** The text of the two path labels before a file is selected. *)
Definition NO_FILE : string := "No file selected.".

(** The dictionary [self.config], its entries in insertion order.  The
    program stores texts under text keys. *)
Definition config := list (string * string).

(** [c.get(k)] *)
Fixpoint config_get (k : string) (c : config) : option string :=
  match c with
  | [] => None
  | (k', v) :: c' => if String.eqb k' k then Some v else config_get k c'
  end.

(** [c[k] = v] *)
Fixpoint config_set (k v : string) (c : config) : config :=
  match c with
  | [] => [(k, v)]
  | (k', v') :: c' =>
      if String.eqb k' k then (k, v) :: c' else (k', v') :: config_set k v c'
  end.

(** The disk as the window uses it: the dictionary held by [CONFIG_FILE]
    when the file exists, taken to be one that [save_config] wrote, and
    [os.path.exists] on the other paths. *)
Record disk := mkDisk {
  config_file : option config;
  path_exists : string -> bool
}.

(** [os.path.exists(p)] *)
Definition os_path_exists (d : disk) (p : string) : bool :=
  if String.eqb p CONFIG_FILE
  then match config_file d with
       | Some _ => true
       | None => false
       end
  else path_exists d p.

(** The fields and widgets of [MainWindow] that its slots read or write.
    The six input widgets are enabled and disabled together by
    [toggle_controls]; message boxes are recorded with their title. *)
Record window := mkWindow {
  win_config : config;            (* self.config *)
  cred_label : string;            (* self.cred_path_label.text() *)
  user_file_label : string;       (* self.user_file_path_label.text() *)
  controls_enabled : bool;        (* the state set by toggle_controls *)
  automation_thread : bool;       (* self.automation_thread is not None *)
  worker_held : bool;             (* self.worker is not None *)
  status_log : list string;       (* the lines of self.status_log *)
  boxes : list (string * string)  (* the message boxes shown so far *)
}.

Definition set_win_config (c : config) (w : window) : window :=
  mkWindow c (cred_label w) (user_file_label w) (controls_enabled w)
           (automation_thread w) (worker_held w) (status_log w) (boxes w).

Definition set_cred_label (p : string) (w : window) : window :=
  mkWindow (win_config w) p (user_file_label w) (controls_enabled w)
           (automation_thread w) (worker_held w) (status_log w) (boxes w).

Definition set_user_file_label (p : string) (w : window) : window :=
  mkWindow (win_config w) (cred_label w) p (controls_enabled w)
           (automation_thread w) (worker_held w) (status_log w) (boxes w).

(** [toggle_controls], lines 480 to 486. *)
Definition toggle_controls (enabled : bool) (w : window) : window :=
  mkWindow (win_config w) (cred_label w) (user_file_label w) enabled
           (automation_thread w) (worker_held w) (status_log w) (boxes w).

(** The assignments to [self.automation_thread] and [self.worker]. *)
Definition set_thread (b : bool) (w : window) : window :=
  mkWindow (win_config w) (cred_label w) (user_file_label w)
           (controls_enabled w) b b (status_log w) (boxes w).

(** [log_message], lines 477 and 478. *)
Definition log_message (message : string) (w : window) : window :=
  mkWindow (win_config w) (cred_label w) (user_file_label w)
           (controls_enabled w) (automation_thread w) (worker_held w)
           (status_log w ++ [message]) (boxes w).

(** A [QMessageBox] with its title and text. *)
Definition message_box (title text : string) (w : window) : window :=
  mkWindow (win_config w) (cred_label w) (user_file_label w)
           (controls_enabled w) (automation_thread w) (worker_held w)
           (status_log w) (boxes w ++ [(title, text)]).

(** [load_config], lines 454 to 459. *)
Definition load_config (d : disk) : config :=
  match config_file d with
  | Some c => c
  | None => []
  end.

(** [save_config], lines 461 to 463. *)
Definition save_config (w : window) (d : disk) : disk :=
  mkDisk (Some (win_config w)) (path_exists d).

(** The test [if p and os.path.exists(p)] of lines 468 and 473 on
    [self.config.get(key)]. *)
Definition remembered (key : string) (w : window) (d : disk) : option string :=
  match config_get key (win_config w) with
  | Some p => if negb (Py.is_empty p) && os_path_exists d p then Some p else None
  | None => None
  end.

(** [apply_config], lines 465 to 475. *)
Definition apply_config (d : disk) (w : window) : window :=
  let w1 :=
    match remembered "credentials_path" w d with
    | Some p => set_cred_label p w
    | None => w
    end in
  match remembered "user_data_path" w1 d with
  | Some p => set_user_file_label p w1
  | None => w1
  end.

(** [MainWindow.__init__], lines 296 to 314: the configuration is loaded,
    the widgets are built with their initial texts, the configuration is
    applied. *)
Definition new_window (d : disk) : window :=
  apply_config d (mkWindow (load_config d) NO_FILE NO_FILE true false false [] []).

(** [select_credentials_file], lines 436 to 443; [file_path] is what the
    file dialog returns, the empty text when it is cancelled. *)
Definition select_credentials_file (file_path : string) (w : window) (d : disk)
  : window * disk :=
  if Py.is_empty file_path then (w, d)
  else
    let w1 := set_cred_label file_path w in
    let w2 := log_message ("Selected credentials file: " +++ file_path) w1 in
    let w3 := set_win_config (config_set "credentials_path" file_path (win_config w2)) w2 in
    (w3, save_config w3 d).

(** [select_user_data_file], lines 445 to 452. *)
Definition select_user_data_file (file_path : string) (w : window) (d : disk)
  : window * disk :=
  if Py.is_empty file_path then (w, d)
  else
    let w1 := set_user_file_label file_path w in
    let w2 := log_message ("Selected user data file: " +++ file_path) w1 in
    let w3 := set_win_config (config_set "user_data_path" file_path (win_config w2)) w2 in
    (w3, save_config w3 d).



(** What [start_automation] shows, on the window. *)
Definition show (e : ui_event) (w : window) : window :=
  match e with
  | LogMessage m => log_message m w
  | WarningBox title text => message_box title text w
  | CriticalBox title text => message_box title text w
  | ControlsDisabled => toggle_controls false w
  | ThreadStarted => set_thread true w
  end.

(** What the operator has entered in the widgets that are not labels. *)
Record entries := mkEntries {
  selected_gtp : gtp_version;
  entered_password : string;
  debug_box : bool
}.

(** The form [start_automation] reads at lines 373 to 378. *)
Definition form_of (w : window) (x : entries) : form :=
  mkForm (selected_gtp x) (cred_label w) (user_file_label w)
         (entered_password x) (debug_box x).

(** A click on the start button: [start_automation] on the widgets of the
    window. *)
Definition click_start (fs : files) (x : entries) (w : window)
  : window * option AutomationWorker :=
  match start_automation fs (form_of w x) with
  | (shown, started_worker) =>
      (fold_left (fun w' e => show e w') shown w, started_worker)
  end.





(** The text a path label of a new window shows for a key of the
    configuration. *)
Definition label_for (key : string) (c : config) (d : disk) : string :=
  match config_get key c with
  | Some p => if negb (Py.is_empty p) && os_path_exists d p then p else NO_FILE
  | None => NO_FILE
  end.


(** A disk without configuration file on which every other path
    exists. *)
Definition fresh_disk : disk := mkDisk None (fun _ => true).


Definition sample_entries : entries := mkEntries GTP640 "snow" false.



Section LogLemmas.

Variables p q : event -> bool.

Lemma count_app (t1 t2 : list event) :
  count p (t1 ++ t2) = count p t1 + count p t2.
Proof.
  unfold count. rewrite filter_app, List.length_app. reflexivity.
Qed.

Lemma count_none (t : list event) :
  forallb (fun e => negb (p e)) t = true -> count p t = 0.
Proof.
  unfold count. induction t as [|e t IH]; simpl; intros H; [reflexivity|].
  apply andb_prop in H. destruct H as [He Ht].
  destruct (p e); [discriminate|]. auto.
Qed.

Lemma forallb_weaken (t : list event) :
  (forall e, p e = true -> q e = true) ->
  forallb p t = true -> forallb q t = true.
Proof.
  intros Hpq. induction t as [|e t IH]; simpl; intros H; [reflexivity|].
  apply andb_prop in H. destruct H as [He Ht].
  rewrite (Hpq e He). simpl. auto.
Qed.







End LogLemmas.

Lemma attempts_app (t1 t2 : list event) :
  attempts (t1 ++ t2) = attempts t1 ++ attempts t2.
Proof.
  induction t1 as [|e t1 IH]; simpl; [reflexivity|].
  destruct e as [| | | |m|]; try exact IH.
  destruct m; try exact IH. simpl. rewrite IH. reflexivity.
Qed.

Lemma attempts_none (t : list event) :
  forallb (fun e => negb (is_create e)) t = true -> attempts t = [].
Proof.
  induction t as [|e t IH]; simpl; intros H; [reflexivity|].
  apply andb_prop in H. destruct H as [He Ht].
  destruct e as [| | | |m|]; auto.
  destruct m; auto. discriminate.
Qed.

(* ================================================================== *)
(** * What a block can log *)
(* ================================================================== *)

Section Emits.

Variable E : env.
Variable p : event -> bool.

Lemma emits_ret {A} (a : A) : emits p (ret a).
Proof. intro s. reflexivity. Qed.

Lemma emits_raise {A} (e : exn) : emits p (@raise A e).
Proof. intro s. reflexivity. Qed.

Lemma emits_return {A} : emits p (@return_ A).
Proof. intro s. reflexivity. Qed.

Lemma emits_break {A} : emits p (@break A).
Proof. intro s. reflexivity. Qed.

Lemma emits_get {A} (f : state -> A) : emits p (get f).
Proof. intro s. reflexivity. Qed.

Lemma emits_modify (f : state -> state) : emits p (modify f).
Proof. intro s. reflexivity. Qed.

Lemma emits_record (e : event) : p e = true -> emits p (record e).
Proof. intros H s. simpl. rewrite H. reflexivity. Qed.

Lemma emits_bind {A B} (m : M A) (k : A -> M B) :
  emits p m -> (forall a, emits p (k a)) -> emits p (bind m k).
Proof.
  intros Hm Hk s. unfold bind. specialize (Hm s).
  destruct (m s) as [[r s1] t1]. simpl in Hm.
  destruct r as [a| | |e]; simpl; auto.
  specialize (Hk a s1). destruct (k a s1) as [[r2 s2] t2]. simpl in *.
  rewrite forallb_app, Hm, Hk. reflexivity.
Qed.

Lemma emits_if {A} (b : bool) (m1 m2 : M A) :
  emits p m1 -> emits p m2 -> emits p (if b then m1 else m2).
Proof. destruct b; auto. Qed.

Lemma emits_when (b : bool) (m : M unit) : emits p m -> emits p (when b m).
Proof. intro H. destruct b; simpl; [exact H|apply emits_ret]. Qed.

Lemma emits_try_except {A} (m : M A) (h : exn -> M A) :
  emits p m -> (forall e, emits p (h e)) -> emits p (try_except m h).
Proof.
  intros Hm Hh s. unfold try_except. specialize (Hm s).
  destruct (m s) as [[r s1] t1]. simpl in Hm.
  destruct r as [a| | |e]; simpl; auto.
  specialize (Hh e s1). destruct (h e s1) as [[r2 s2] t2]. simpl in *.
  rewrite forallb_app, Hm, Hh. reflexivity.
Qed.

Lemma emits_try_finally {A} (m : M A) (f : M unit) :
  emits p m -> emits p f -> emits p (try_finally m f).
Proof.
  intros Hm Hf s. unfold try_finally. specialize (Hm s).
  destruct (m s) as [[r s1] t1]. simpl in Hm.
  specialize (Hf s1). destruct (f s1) as [[r2 s2] t2]. simpl in Hf.
  destruct r2; simpl; rewrite forallb_app, Hm, Hf; reflexivity.
Qed.

Lemma emits_for_each {X} (xs : list X) (body : X -> M unit) :
  (forall x, emits p (body x)) -> emits p (for_each xs body).
Proof.
  intros Hb. induction xs as [|x xs IH]; intro s; simpl; [reflexivity|].
  specialize (Hb x s). destruct (body x s) as [[r s1] t1]. simpl in Hb.
  destruct r as [a| | |e]; simpl; auto.
  specialize (IH s1). destruct (for_each xs body s1) as [[r2 s2] t2].
  simpl in *. rewrite forallb_app, Hb, IH. reflexivity.
Qed.

Lemma emits_def (m : M unit) : emits p m -> emits p (def m).
Proof.
  intros Hm s. unfold def. specialize (Hm s).
  destruct (m s) as [[r s1] t1]. destruct r; exact Hm.
Qed.

Lemma emits_step : admits_stop p -> emits p (step E).
Proof.
  intros [H1 H2] s. unfold step. destruct (stop_at E (clock s)); simpl.
  - rewrite H1, H2. reflexivity.
  - reflexivity.
Qed.

Lemma emits_emit (e : event) : admits_stop p -> p e = true -> emits p (emit E e).
Proof.
  intros Hs He. unfold emit. apply emits_bind.
  - apply emits_step, Hs.
  - intros _. apply emits_record, He.
Qed.

Lemma emits_playwright_call (c : call) :
  admits_stop p -> p (Browser c) = true -> emits p (playwright_call E c).
Proof.
  intros Hs Hc. unfold playwright_call. apply emits_bind.
  - apply emits_step, Hs.
  - intros k. apply emits_bind.
    + apply emits_record, Hc.
    + intros _. destruct (raised c (reply_at E k)).
      * apply emits_raise.
      * apply emits_ret.
Qed.

Lemma emits_teardown_call (c : call) :
  admits_stop p -> p (Browser c) = true -> emits p (teardown_call E c).
Proof.
  intros Hs Hc. unfold teardown_call. apply emits_bind.
  - apply emits_step, Hs.
  - intros _. apply emits_record, Hc.
Qed.

Lemma emits_read_is_running :
  admits_stop p -> (forall b, p (ReadFlag b) = true) ->
  emits p (read_is_running E).
Proof.
  intros Hs Hr. unfold read_is_running. apply emits_bind.
  - apply emits_step, Hs.
  - intros _. apply emits_bind; [apply emits_get|].
    intros b. apply emits_bind; [apply emits_record, Hr|].
    intros _. apply emits_ret.
Qed.

End Emits.

Lemma emits_weaken (p q : event -> bool) {A} (m : M A) :
  (forall e, p e = true -> q e = true) -> emits p m -> emits q m.
Proof.
  intros Hpq Hm s. apply (@forallb_weaken p q _ Hpq), Hm.
Qed.

Arguments emits_weaken {p q A m} _ _.

(** Solves [emits p m] for a block [m] written with the combinators above
    and a [p] that computes on the events [m] logs. *)
Ltac emits_with side :=
  repeat first
    [ apply emits_ret | apply emits_raise | apply emits_return
    | apply emits_break | apply emits_get | apply emits_modify
    | apply emits_record; side
    | apply emits_emit; [split; side | side]
    | apply emits_playwright_call; [split; side | side]
    | apply emits_teardown_call; [split; side | side]
    | apply emits_read_is_running; [split; side | intros []; side]
    | apply emits_if | apply emits_when
    | apply emits_try_except; [|intro]
    | apply emits_for_each; intro
    | apply emits_bind; [|intro] ].

Ltac emits_tac := emits_with ltac:(reflexivity).

Section DriverLogs.

Variable E : env.

Lemma launch_basic : emits basic (launch E).
Proof. unfold launch, progress_callback. emits_tac. Qed.

Lemma login_basic url em pw : emits basic (login E url em pw).
Proof.
  unfold login, login_steps, mfa_detection, mfa_selection, approval_wait,
    progress_callback.
  emits_tac.
Qed.

Lemma wait_for_page_to_settle_basic : emits basic (wait_for_page_to_settle E).
Proof. unfold wait_for_page_to_settle, progress_callback. emits_tac. Qed.

Lemma create_steps_basic url u pw : emits basic (create_steps E url u pw).
Proof.
  unfold create_steps, progress_callback. emits_tac.
  all: apply wait_for_page_to_settle_basic.
Qed.

Lemma close_steps_basic : emits basic (close_steps E).
Proof. unfold close_steps, progress_callback. emits_tac. Qed.

End DriverLogs.

(* ================================================================== *)
(** * What a block leaves unchanged, and blocks that always fall through *)
(* ================================================================== *)

Lemma log_bind {A B} (m : M A) (k : A -> M B) (s : state) :
  log (bind m k s) =
  log (m s) ++ match result (m s) with
               | Val a => log (k a (final (m s)))
               | _ => []
               end.
Proof.
  unfold bind, log, result, final. destruct (m s) as [[r s1] t1]. simpl.
  destruct r as [a| | |e]; simpl; try (rewrite app_nil_r; reflexivity).
  destruct (k a s1) as [[r2 s2] t2]. reflexivity.
Qed.

Lemma result_bind {A B} (m : M A) (k : A -> M B) (s : state) :
  result (bind m k s) =
  match result (m s) with
  | Val a => result (k a (final (m s)))
  | Ret => Ret
  | Brk => Brk
  | Exc e => Exc e
  end.
Proof.
  unfold bind, log, result, final. destruct (m s) as [[r s1] t1]. simpl.
  destruct r as [a| | |e]; simpl; try reflexivity.
  destruct (k a s1) as [[r2 s2] t2]. reflexivity.
Qed.

Lemma final_bind {A B} (m : M A) (k : A -> M B) (s : state) :
  final (bind m k s) =
  match result (m s) with
  | Val a => final (k a (final (m s)))
  | _ => final (m s)
  end.
Proof.
  unfold bind, log, result, final. destruct (m s) as [[r s1] t1]. simpl.
  destruct r as [a| | |e]; simpl; try reflexivity.
  destruct (k a s1) as [[r2 s2] t2]. reflexivity.
Qed.

Section Keeps.

Variable E : env.
Variable f : state -> bool.

Lemma keeps_ret {A} (a : A) : keeps f (ret a).
Proof. intro s. reflexivity. Qed.

Lemma keeps_raise {A} (e : exn) : keeps f (@raise A e).
Proof. intro s. reflexivity. Qed.

Lemma keeps_return {A} : keeps f (@return_ A).
Proof. intro s. reflexivity. Qed.

Lemma keeps_break {A} : keeps f (@break A).
Proof. intro s. reflexivity. Qed.

Lemma keeps_get {A} (g : state -> A) : keeps f (get g).
Proof. intro s. reflexivity. Qed.

Lemma keeps_record (e : event) : keeps f (record e).
Proof. intro s. reflexivity. Qed.

Lemma keeps_modify (g : state -> state) :
  (forall s, f (g s) = f s) -> keeps f (modify g).
Proof. intros H s. apply H. Qed.

Lemma keeps_bind {A B} (m : M A) (k : A -> M B) :
  keeps f m -> (forall a, keeps f (k a)) -> keeps f (bind m k).
Proof.
  intros Hm Hk s. rewrite final_bind. specialize (Hm s).
  destruct (result (m s)) as [a| | |e]; auto.
  rewrite Hk. exact Hm.
Qed.

Lemma keeps_if {A} (b : bool) (m1 m2 : M A) :
  keeps f m1 -> keeps f m2 -> keeps f (if b then m1 else m2).
Proof. destruct b; auto. Qed.

Lemma keeps_when (b : bool) (m : M unit) : keeps f m -> keeps f (when b m).
Proof. intro H. destruct b; simpl; [exact H|apply keeps_ret]. Qed.

Lemma keeps_try_except {A} (m : M A) (h : exn -> M A) :
  keeps f m -> (forall e, keeps f (h e)) -> keeps f (try_except m h).
Proof.
  intros Hm Hh s. unfold try_except. specialize (Hm s).
  destruct (m s) as [[r s1] t1]. unfold final in *. simpl in Hm.
  destruct r as [a| | |e]; simpl; auto.
  specialize (Hh e s1). destruct (h e s1) as [[r2 s2] t2].
  unfold final in *. simpl in *. congruence.
Qed.

Lemma keeps_for_each {X} (xs : list X) (body : X -> M unit) :
  (forall x, keeps f (body x)) -> keeps f (for_each xs body).
Proof.
  intros Hb. induction xs as [|x xs IH]; intro s; simpl; [reflexivity|].
  specialize (Hb x s). destruct (body x s) as [[r s1] t1].
  unfold final in *. simpl in Hb.
  destruct r as [a| | |e]; simpl; auto.
  specialize (IH s1). destruct (for_each xs body s1) as [[r2 s2] t2].
  unfold final in *. simpl in *. congruence.
Qed.

Lemma keeps_step : untouched f -> keeps f (step E).
Proof.
  intros H s. unfold step. destruct (stop_at E (clock s)); simpl.
  - unfold final. simpl. destruct (H (set_is_running false s)) as [H1 _].
    rewrite H1. apply H.
  - apply H.
Qed.

Lemma keeps_emit (e : event) : untouched f -> keeps f (emit E e).
Proof.
  intros H. unfold emit. apply keeps_bind; [apply keeps_step, H|].
  intros _. apply keeps_record.
Qed.

Lemma keeps_playwright_call (c : call) :
  untouched f -> keeps f (playwright_call E c).
Proof.
  intros H. unfold playwright_call. apply keeps_bind; [apply keeps_step, H|].
  intros k. apply keeps_bind; [apply keeps_record|].
  intros _. destruct (raised c (reply_at E k));
    [apply keeps_raise|apply keeps_ret].
Qed.

Lemma keeps_teardown_call (c : call) :
  untouched f -> keeps f (teardown_call E c).
Proof.
  intros H. unfold teardown_call. apply keeps_bind; [apply keeps_step, H|].
  intros _. apply keeps_record.
Qed.

Lemma keeps_read_is_running : untouched f -> keeps f (read_is_running E).
Proof.
  intros H. unfold read_is_running. apply keeps_bind; [apply keeps_step, H|].
  intros _. apply keeps_bind; [apply keeps_get|].
  intros b. apply keeps_bind; [apply keeps_record|].
  intros _. apply keeps_ret.
Qed.

End Keeps.

Ltac keeps_tac :=
  repeat first
    [ apply keeps_ret | apply keeps_raise | apply keeps_return
    | apply keeps_break | apply keeps_get | apply keeps_record
    | apply keeps_modify; intros []; reflexivity
    | apply keeps_emit; intros []; split; reflexivity
    | apply keeps_playwright_call; intros []; split; reflexivity
    | apply keeps_teardown_call; intros []; split; reflexivity
    | apply keeps_read_is_running; intros []; split; reflexivity
    | apply keeps_if | apply keeps_when
    | apply keeps_try_except; [|intro]
    | apply keeps_for_each; intro
    | apply keeps_bind; [|intro] ].

Section Total.

Variable E : env.

Lemma total_ret {A} (a : A) : total (ret a).
Proof. intro s. exists a. reflexivity. Qed.

Lemma total_get {A} (g : state -> A) : total (get g).
Proof. intro s. exists (g s). reflexivity. Qed.

Lemma total_record (e : event) : total (record e).
Proof. intro s. exists tt. reflexivity. Qed.

Lemma total_modify (g : state -> state) : total (modify g).
Proof. intro s. exists tt. reflexivity. Qed.

Lemma total_bind {A B} (m : M A) (k : A -> M B) :
  total m -> (forall a, total (k a)) -> total (bind m k).
Proof.
  intros Hm Hk s. rewrite result_bind. destruct (Hm s) as [a Ha].
  rewrite Ha. apply Hk.
Qed.

Lemma total_when (b : bool) (m : M unit) : total m -> total (when b m).
Proof. intro H. destruct b; simpl; [exact H|apply total_ret]. Qed.

Lemma total_step : total (step E).
Proof.
  intro s. exists (clock s). unfold step.
  destruct (stop_at E (clock s)); reflexivity.
Qed.

Lemma total_emit (e : event) : total (emit E e).
Proof.
  unfold emit. apply total_bind; [apply total_step|].
  intros _. apply total_record.
Qed.

Lemma total_teardown_call (c : call) : total (teardown_call E c).
Proof.
  unfold teardown_call. apply total_bind; [apply total_step|].
  intros _. apply total_record.
Qed.

Lemma total_close : total (close E).
Proof.
  unfold close, close_steps, progress_callback.
  repeat first
    [ apply total_ret | apply total_get | apply total_record
    | apply total_emit | apply total_teardown_call | apply total_when
    | apply total_bind; [|intro] ].
Qed.

Lemma total_report_error (e : exn) : total (report_error E e).
Proof.
  unfold report_error. apply total_bind; [apply total_emit|].
  intros _. apply total_emit.
Qed.

Lemma total_release : total (release E).
Proof.
  unfold release. apply total_bind; [apply total_get|].
  intros d. apply total_bind; [apply total_when, total_close|].
  intros _. apply total_emit.
Qed.

(** The log of an emission ends with the signal; before it there is at
    most what a [stop] adds. *)
Lemma log_emit (e : event) (s : state) :
  exists t, log (emit E e s) = t ++ [e] /\ (t = [] \/ t = snd (stop s)).
Proof.
  unfold emit, bind, step, record, log.
  destruct (stop_at E (clock s)); simpl.
  - exists [Invoke m_stop; Progress "Stopping process..."]. auto.
  - exists []. auto.
Qed.

End Total.

(* ================================================================== *)
(** * The shape of a run *)
(* ================================================================== *)

Section RunShape.

Variable E : env.
Variable w : AutomationWorker.

Lemma trace_split :
  trace E w =
  log ((guarded_body E w) started) ++ log (release E (final ((guarded_body E w) started))).
Proof.
  unfold trace, run, def, bind, modify, try_finally. fold started.
  fold (guarded_body E w).
  destruct ((guarded_body E w) started) as [[r s1] t1]. unfold final, log. simpl.
  destruct (release E s1) as [[r2 s2] t2]. simpl.
  destruct r2; destruct r; reflexivity.
Qed.

Lemma log_guarded_body (s : state) :
  log ((guarded_body E w) s) =
  log (run_body E w s) ++
  match result (run_body E w s) with
  | Exc e => log (report_error E e (final (run_body E w s)))
  | _ => []
  end.
Proof.
  unfold guarded_body, try_except, log, result, final.
  destruct (run_body E w s) as [[r s1] t1]. simpl.
  destruct r as [a| | |e]; simpl; try (rewrite app_nil_r; reflexivity).
  destruct (report_error E e s1) as [[r2 s2] t2]. reflexivity.
Qed.

(** The events of the try block: those of the driver's steps, the reads
    of the flag and the entries of [create_standard_user]. *)
Lemma run_body_emits (q : event -> bool) :
  (forall e, basic e = true -> q e = true) ->
  (forall b, q (ReadFlag b) = true) ->
  (forall url u pw, q (Invoke (m_create_standard_user url u pw)) = true) ->
  emits q (run_body E w).
Proof.
  intros Hb Hr Hc.
  assert (Hlaunch : emits q (launch E))
    by exact (emits_weaken Hb (launch_basic E)).
  assert (Hlogin : forall a b c, emits q (login E a b c))
    by (intros; exact (emits_weaken Hb (login_basic E _ _ _))).
  assert (Hsettle : emits q (wait_for_page_to_settle E))
    by exact (emits_weaken Hb (wait_for_page_to_settle_basic E)).
  assert (Hsteps : forall a b c, emits q (create_steps E a b c))
    by (intros; exact (emits_weaken Hb (create_steps_basic E _ _ _))).
  unfold run_body, prelude, lvc_loop, standard_phase, announce_completion,
    return_if_stopped, break_if_stopped, create_standard_user.
  emits_with ltac:(first [apply Hr | apply Hc | apply Hb; reflexivity]);
    auto.
Qed.

Lemma guarded_body_emits (q : event -> bool) :
  (forall e, basic e = true -> q e = true) ->
  (forall b, q (ReadFlag b) = true) ->
  (forall url u pw, q (Invoke (m_create_standard_user url u pw)) = true) ->
  (forall m, q (AutomationError m) = true) ->
  emits q (guarded_body E w).
Proof.
  intros Hb Hr Hc He. unfold guarded_body. apply emits_try_except.
  - apply run_body_emits; assumption.
  - intros e. unfold report_error.
    emits_with ltac:(first [apply He | apply Hb; reflexivity]).
Qed.

Lemma guarded_body_keeps_driver : keeps driver (guarded_body E w).
Proof.
  unfold guarded_body, run_body, prelude, lvc_loop, standard_phase,
    announce_completion, return_if_stopped, break_if_stopped,
    create_standard_user, create_steps, launch, login, login_steps,
    mfa_detection, mfa_selection, approval_wait, wait_for_page_to_settle,
    report_error, progress_callback.
  keeps_tac.
Qed.

Lemma driver_at_release : driver (final ((guarded_body E w) started)) = true.
Proof. rewrite guarded_body_keeps_driver. reflexivity. Qed.

(** The log of [close]: its entry, then the driver's teardown steps. *)
Lemma log_close (s : state) :
  log (close E s) = Invoke m_close :: log (close_steps E s).
Proof.
  unfold close. rewrite log_bind. reflexivity.
Qed.

Lemma log_create_standard_user (url : string) (u : UserRecord) (pw : string)
      (s : state) :
  log (create_standard_user E url u pw s) =
  Invoke (m_create_standard_user url u pw) :: log (create_steps E url u pw s).
Proof.
  unfold create_standard_user. rewrite log_bind. reflexivity.
Qed.

(** The finally clause with a driver: [close] is entered once, and
    the completion signal is the last thing that happens. *)
Lemma release_log (s : state) :
  driver s = true ->
  exists t,
    log (release E s) = t ++ [AutomationFinished] /\
    count is_close t = 1 /\
    forallb (fun e => negb (is_finished e)) t = true /\
    forallb (fun e => negb (is_error e)) t = true /\
    forallb (fun e => negb (is_create e)) t = true.
Proof.
  intros Hd. unfold release. rewrite log_bind. simpl.
  unfold result, final. simpl. rewrite Hd. simpl.
  rewrite log_bind. destruct (total_close E s) as [[] Hc]. rewrite Hc.
  destruct (log_emit E AutomationFinished (final (close E s)))
    as [t [Ht Hstop]].
  exists (log (close E s) ++ t). rewrite Ht, app_assoc. split; [reflexivity|].
  assert (Hany : forall q : event -> bool,
             q (Invoke m_stop) = true ->
             q (Progress "Stopping process...") = true ->
             forallb q t = true).
  { intros q H1 H2. destruct Hstop as [-> | ->]; simpl;
      [reflexivity | rewrite H1, H2; reflexivity]. }
  assert (Hsteps : forall q : event -> bool,
             (forall e, basic e = true -> q e = true) ->
             forallb q (log (close_steps E s)) = true).
  { intros q Hq. apply (emits_weaken Hq (close_steps_basic E)). }
  rewrite log_close. repeat split.
  - rewrite count_app. change (count is_close (Invoke m_close :: ?l))
      with (S (count is_close l)).
    rewrite !count_none; [reflexivity| |].
    + apply Hany; reflexivity.
    + apply Hsteps. intros [| | | |[]|]; simpl; congruence.
  - rewrite forallb_app. simpl. rewrite Hany by reflexivity.
    rewrite Hsteps; [reflexivity|].
    intros [| | | |[]|]; simpl; congruence.
  - rewrite forallb_app. simpl. rewrite Hany by reflexivity.
    rewrite Hsteps; [reflexivity|].
    intros [| | | |[]|]; simpl; congruence.
  - rewrite forallb_app. simpl. rewrite Hany by reflexivity.
    rewrite Hsteps; [reflexivity|].
    intros [| | | |[]|]; simpl; congruence.
Qed.

End RunShape.

Section RunCounts.

Variable E : env.
Variable w : AutomationWorker.

Lemma stop_log_count (q : event -> bool) (s : state) (t : list event) :
  q (Invoke m_stop) = false -> q (Progress "Stopping process...") = false ->
  t = [] \/ t = snd (stop s) -> count q t = 0.
Proof.
  intros H1 H2 [-> | ->]; unfold count; simpl; [reflexivity|].
  rewrite H1, H2. reflexivity.
Qed.

(** The except clause emits the error signal once. *)
Lemma report_error_count (e : exn) (s : state) :
  count is_error (log (report_error E e s)) = 1.
Proof.
  unfold report_error. rewrite log_bind.
  destruct (total_emit E (Progress ("[ERROR] " +++ full_error_message e)) s)
    as [[] Hv].
  rewrite Hv.
  destruct (log_emit E (Progress ("[ERROR] " +++ full_error_message e)) s)
    as [t1 [H1 S1]].
  destruct (log_emit E (AutomationError (full_error_message e))
              (final (emit E (Progress ("[ERROR] " +++ full_error_message e)) s)))
    as [t2 [H2 S2]].
  rewrite H1, H2, !count_app.
  rewrite (stop_log_count is_error eq_refl eq_refl S1).
  rewrite (stop_log_count is_error eq_refl eq_refl S2).
  reflexivity.
Qed.

Lemma run_body_no_error (s : state) :
  count is_error (log (run_body E w s)) = 0.
Proof.
  apply count_none. apply run_body_emits.
  - intros [| | | |[]|]; simpl; congruence.
  - reflexivity.
  - reflexivity.
Qed.

(** The error signal is emitted once when the try block raises, and not at
    all otherwise. *)
Lemma guarded_body_errors (s : state) :
  count is_error (log (guarded_body E w s)) =
  match result (run_body E w s) with
  | Exc _ => 1
  | _ => 0
  end.
Proof.
  rewrite log_guarded_body, count_app, run_body_no_error.
  destruct (result (run_body E w s)); try reflexivity.
  apply report_error_count.
Qed.

End RunCounts.

(* ================================================================== *)
(** * Runs in which [stop] is never invoked *)
(* ================================================================== *)

Section Uninterrupted.

Variable E : env.
Hypothesis no_stop : forall k, stop_at E k = false.

Lemma live_ret {A} (a : A) : live (ret a).
Proof. intros s H. split; [exact H|exact I]. Qed.

Lemma live_raise {A} (e : exn) : live (@raise A e).
Proof. intros s H. split; [exact H|exact I]. Qed.

Lemma live_get {A} (g : state -> A) : live (get g).
Proof. intros s H. split; [exact H|exact I]. Qed.

Lemma live_record (e : event) : live (record e).
Proof. intros s H. split; [exact H|exact I]. Qed.

Lemma live_modify (g : state -> state) :
  (forall s, is_running (g s) = is_running s) -> live (modify g).
Proof. intros Hg s H. split; [|exact I]. simpl. unfold final. simpl. rewrite Hg. exact H. Qed.

Lemma live_bind {A B} (m : M A) (k : A -> M B) :
  live m -> (forall a, live (k a)) -> live (bind m k).
Proof.
  intros Hm Hk s H. rewrite final_bind, result_bind.
  destruct (Hm s H) as [Hf Hr].
  destruct (result (m s)) as [a| | |e]; try contradiction.
  - apply Hk, Hf.
  - split; [exact Hf|exact I].
Qed.

Lemma live_if {A} (b : bool) (m1 m2 : M A) :
  live m1 -> live m2 -> live (if b then m1 else m2).
Proof. destruct b; auto. Qed.

Lemma live_when (b : bool) (m : M unit) : live m -> live (when b m).
Proof. intro H. destruct b; simpl; [exact H|apply live_ret]. Qed.

Lemma live_try_except {A} (m : M A) (h : exn -> M A) :
  live m -> (forall e, live (h e)) -> live (try_except m h).
Proof.
  intros Hm Hh s H. unfold try_except. destruct (Hm s H) as [Hf Hr].
  destruct (m s) as [[r s1] t1]. unfold final, result in *. simpl in *.
  destruct r as [a| | |e]; try contradiction.
  - simpl. auto.
  - destruct (Hh e s1 Hf) as [Hf2 Hr2].
    destruct (h e s1) as [[r2 s2] t2]. unfold final, result in *. simpl in *.
    auto.
Qed.

Lemma live_step : live (step E).
Proof.
  intros s H. unfold step. rewrite no_stop. split; [exact H|exact I].
Qed.

Lemma live_emit (e : event) : live (emit E e).
Proof.
  unfold emit. apply live_bind; [apply live_step|].
  intros _. apply live_record.
Qed.

Lemma live_playwright_call (c : call) : live (playwright_call E c).
Proof.
  unfold playwright_call. apply live_bind; [apply live_step|].
  intros k. apply live_bind; [apply live_record|].
  intros _. destruct (raised c (reply_at E k));
    [apply live_raise|apply live_ret].
Qed.

(** With the flag set, both tests of the flag fall through. *)
Lemma read_is_running_set (s : state) :
  is_running s = true ->
  read_is_running E s = (Val true, advance s, [ReadFlag true]).
Proof.
  intros H. unfold read_is_running, bind, step, get, record, ret.
  rewrite no_stop. simpl. rewrite H. reflexivity.
Qed.

Lemma live_return_if_stopped : live (return_if_stopped E).
Proof.
  intros s H. unfold return_if_stopped, bind.
  rewrite (read_is_running_set s H). simpl. split; [exact H|exact I].
Qed.

Lemma live_break_if_stopped : live (break_if_stopped E).
Proof.
  intros s H. unfold break_if_stopped, bind.
  rewrite (read_is_running_set s H). simpl. split; [exact H|exact I].
Qed.

Lemma live_read_is_running : live (read_is_running E).
Proof.
  intros s H. rewrite (read_is_running_set s H). split; [exact H|exact I].
Qed.

Lemma live_for_each {X} (xs : list X) (body : X -> M unit) :
  (forall x, live (body x)) -> live (for_each xs body).
Proof.
  intros Hb. induction xs as [|x xs IH]; intros s H; simpl.
  - split; [exact H|exact I].
  - destruct (Hb x s H) as [Hf Hr].
    destruct (body x s) as [[r s1] t1]. unfold final, result in *. simpl in *.
    destruct r as [a| | |e]; try contradiction.
    + destruct (IH s1 Hf) as [Hf2 Hr2].
      destruct (for_each xs body s1) as [[r2 s2] t2].
      unfold final, result in *. simpl in *. auto.
    + simpl. auto.
Qed.

End Uninterrupted.

Ltac live_tac H :=
  repeat first
    [ apply live_ret | apply live_raise | apply live_get | apply live_record
    | apply live_modify; intros []; reflexivity
    | apply live_emit; exact H | apply live_playwright_call; exact H
    | apply live_return_if_stopped; exact H
    | apply live_break_if_stopped; exact H
    | apply live_read_is_running; exact H
    | apply live_if | apply live_when
    | apply live_try_except; [|intro]
    | apply live_for_each; intro
    | apply live_bind; [|intro] ].

Section UninterruptedRun.

Variable E : env.
Hypothesis no_stop : forall k, stop_at E k = false.

Lemma live_launch : live (launch E).
Proof. unfold launch, progress_callback. live_tac no_stop. Qed.

Lemma live_login url em pw : live (login E url em pw).
Proof.
  unfold login, login_steps, mfa_detection, mfa_selection, approval_wait,
    progress_callback.
  live_tac no_stop.
Qed.

Lemma live_wait_for_page_to_settle : live (wait_for_page_to_settle E).
Proof. unfold wait_for_page_to_settle, progress_callback. live_tac no_stop. Qed.

Lemma live_create_standard_user url u pw :
  live (create_standard_user E url u pw).
Proof.
  unfold create_standard_user, create_steps, wait_for_page_to_settle,
    progress_callback.
  live_tac no_stop.
Qed.

Lemma covers_nothing {A} (m : M A) :
  live m -> emits (fun e => negb (is_create e)) m -> covers m [].
Proof.
  intros Hl He s H. destruct (Hl s H) as [Hf Hr]. split; [exact Hf|].
  destruct (result (m s)) as [a| | |e]; try contradiction.
  - left. split; [exists a; reflexivity|]. apply attempts_none, He.
  - right. exists e. reflexivity.
Qed.

Lemma covers_bind {A B} (m : M A) (k : A -> M B) (us1 us2 : list UserRecord) :
  covers m us1 -> (forall a, covers (k a) us2) -> covers (bind m k) (us1 ++ us2).
Proof.
  intros Hm Hk s H. rewrite final_bind, result_bind, log_bind.
  destruct (Hm s H) as [Hf [[[a Ha] Hat] | [e He]]].
  - rewrite Ha. destruct (Hk a _ Hf) as [Hf2 [[[b Hb] Hbt] | [e He]]].
    + split; [exact Hf2|]. left. split; [exists b; exact Hb|].
      rewrite attempts_app, Hat, Hbt. reflexivity.
    + split; [exact Hf2|]. right. exists e. exact He.
  - rewrite He. split; [exact Hf|]. right. exists e. reflexivity.
Qed.

Lemma covers_create_standard_user url u pw :
  covers (create_standard_user E url u pw) [u].
Proof.
  intros s H. destruct (live_create_standard_user url u pw s H) as [Hf Hr].
  split; [exact Hf|].
  destruct (result (create_standard_user E url u pw s)) as [a| | |e] eqn:R;
    try contradiction.
  - left. split; [exists a; reflexivity|].
    rewrite log_create_standard_user. simpl.
    rewrite (attempts_none (log (create_steps E url u pw s))); [reflexivity|].
    apply (emits_weaken (p := basic)); [|apply create_steps_basic].
    intros [| | | |[]|]; simpl; congruence.
  - right. exists e. reflexivity.
Qed.

Lemma covers_for_each (body : UserRecord -> M unit) (us : list UserRecord) :
  (forall u, covers (body u) [u]) -> covers (for_each us body) us.
Proof.
  intros Hb. induction us as [|u us IH]; intros s H; simpl.
  - split; [exact H|]. left. split; [exists tt|]; reflexivity.
  - destruct (Hb u s H) as [Hf Hr].
    destruct (body u s) as [[r s1] t1]. unfold final, result, log in *.
    simpl in *.
    destruct Hr as [[[a Ha] Hat] | [e He]]; subst r.
    + destruct (IH s1 Hf) as [Hf2 Hr2].
      destruct (for_each us body s1) as [[r2 s2] t2].
      unfold final, result, log in *. simpl in *.
      split; [exact Hf2|].
      destruct Hr2 as [[[b Hb2] Hbt] | [e He]]; subst r2.
      * left. split; [exists b; reflexivity|].
        rewrite attempts_app, Hat, Hbt. reflexivity.
      * right. exists e. reflexivity.
    + simpl. split; [exact Hf|]. right. exists e. reflexivity.
Qed.

Lemma covers_weaken {A} (m : M A) (us vs : list UserRecord) :
  us = vs -> covers m us -> covers m vs.
Proof. intros ->. auto. Qed.

End UninterruptedRun.

(** ** The headers of the two sections *)

Lemma names_renamed_new (old new : string) (header : list cell) :
  names new (map (fun c => if is_column old c then Some new else c) header) =
  names new header || names old header.
Proof.
  unfold names. induction header as [|c header IH]; simpl; [reflexivity|].
  rewrite IH. destruct (is_column old c) eqn:Hc; simpl.
  - rewrite String.eqb_refl. simpl.
    destruct (is_column new c); simpl; try reflexivity.
    rewrite orb_true_r. reflexivity.
  - destruct (is_column new c); simpl; reflexivity.
Qed.

Lemma names_renamed_other (old new name : string) (header : list cell) :
  String.eqb old name = false -> String.eqb new name = false ->
  names name (map (fun c => if is_column old c then Some new else c) header) =
  names name header.
Proof.
  intros Ho Hn. unfold names.
  induction header as [|c header IH]; simpl; [reflexivity|].
  rewrite IH. f_equal. destruct c as [t|]; simpl; [|reflexivity].
  destruct (String.eqb t old) eqn:Ht; simpl; [|reflexivity].
  apply String.eqb_eq in Ht. subst t. rewrite Hn, Ho. reflexivity.
Qed.

Lemma lvc_header_required (df : sheet) :
  names "Currency" (lvc_header df) && names "Username" (lvc_header df)
  && names "Postfix" (lvc_header df) = lvc_headers_present df.
Proof.
  unfold lvc_header, lvc_headers_present.
  rewrite names_renamed_new.
  rewrite !names_renamed_other by reflexivity. reflexivity.
Qed.

(** A row kept by [dropna] has a value under the key Currency. *)
Lemma dict_get_filled (name : string) (header row : list cell) (found : cell) :
  filled name header row = true ->
  names name header = true \/ found <> None ->
  dict_get name header row found <> None.
Proof.
  revert row found. induction header as [|h header IH];
    intros row found Hf Hn; simpl in *.
  - destruct Hn as [Hn | Hn]; [discriminate|exact Hn].
  - apply andb_prop in Hf. destruct Hf as [Hh Hf].
    apply IH; [exact Hf|].
    destruct (is_column name h) eqn:Hc; simpl in *.
    + right. destruct (hd None row); [discriminate|discriminate].
    + exact Hn.
Qed.

Lemma records_have_currency (header : list cell) (data : sheet) (u : UserRecord) :
  names "Currency" header = true ->
  In u (records header data) -> Currency u <> None.
Proof.
  intros Hn Hin. unfold records in Hin. apply in_map_iff in Hin.
  destruct Hin as [row [<- Hrow]]. apply filter_In in Hrow.
  destruct Hrow as [_ Hf]. simpl. apply dict_get_filled; auto.
Qed.

Lemma lvc_section_rows (r : list cell) (data : sheet) :
  lvc_section (r :: data) =
  if names "Currency" (lvc_header (r :: data))
  then Returned (mkFrame (lvc_header (r :: data))
                   (filter (filled "Currency" (lvc_header (r :: data)))
                           (data_rows 0 (r :: data))))
  else Raised (mkExn "KeyError" "['Currency']").
Proof. reflexivity. Qed.

Lemma standard_section_rows (r : list cell) (data : sheet) :
  standard_section (r :: data) =
  if names "Currency" (header_row 4 (r :: data))
  then Returned (mkFrame (header_row 4 (r :: data))
                   (filter (filled "Currency" (header_row 4 (r :: data)))
                           (data_rows 4 (r :: data))))
  else Raised (mkExn "KeyError" "['Currency']").
Proof. reflexivity. Qed.

Lemma has_required_columns_names (header : list cell) (data : sheet) :
  has_required_columns (mkFrame header data) =
  names "Currency" header && names "Username" header && names "Postfix" header.
Proof.
  unfold has_required_columns, has_column, names. simpl.
  rewrite andb_true_r, andb_assoc. reflexivity.
Qed.

Section ParseUserData.

Variable fs : files.
Variable path : string.
Variable sheets : list (string * sheet).
Variable df : sheet.
Hypothesis opened : read_excel fs path = Workbook sheets.
Hypothesis found : find_sheet "Sheet1" sheets = Some df.

(** The sheet lacks a header: parsing raises.  The exception is the
    ValueError of lines 188 to 191 when both sections have a Currency
    column, the KeyError of [dropna] when one has none, and the IndexError
    of [iloc[0]] when the sheet has no row at all. *)
Lemma parse_user_data_missing_headers :
  lvc_headers_present df = false \/ standard_headers_present df = false ->
  exists e, parse_user_data fs path = Raised e /\
            exn_type e = missing_header_error df.
Proof.
  intros Hbad. unfold parse_user_data, missing_header_error.
  rewrite opened, found.
  destruct df as [|r data].
  { eexists. split; reflexivity. }
  rewrite lvc_section_rows, standard_section_rows.
  rewrite <- lvc_header_required in Hbad.
  unfold standard_headers_present in Hbad.
  destruct (names "Currency" (lvc_header (r :: data))) eqn:Hlc.
  2:{ eexists. split; reflexivity. }
  destruct (names "Currency" (header_row 4 (r :: data))) eqn:Hsc.
  2:{ eexists. split; reflexivity. }
  unfold bind_raises. rewrite !has_required_columns_names, Hlc, Hsc.
  destruct (names "Username" (lvc_header (r :: data)));
    destruct (names "Postfix" (lvc_header (r :: data)));
    try (eexists; split; reflexivity).
  destruct (names "Username" (header_row 4 (r :: data)));
    destruct (names "Postfix" (header_row 4 (r :: data)));
    try (eexists; split; reflexivity).
  simpl in Hbad. destruct Hbad; discriminate.
Qed.

(** The sheet has its headers: parsing returns the records of the rows
    with a currency. *)
Lemma parse_user_data_with_headers :
  lvc_headers_present df = true -> standard_headers_present df = true ->
  parse_user_data fs path =
  Returned (records (lvc_header df) (data_rows 0 df),
            records (header_row 4 df) (data_rows 4 df)).
Proof.
  intros Hl Hs. unfold parse_user_data. rewrite opened, found.
  destruct df as [|r data]; [discriminate|].
  rewrite lvc_section_rows, standard_section_rows.
  rewrite <- lvc_header_required in Hl.
  unfold standard_headers_present in Hs.
  apply andb_prop in Hl. destruct Hl as [Hl Hlp].
  apply andb_prop in Hl. destruct Hl as [Hlc Hlu].
  apply andb_prop in Hs. destruct Hs as [Hs Hsp].
  apply andb_prop in Hs. destruct Hs as [Hsc Hsu].
  rewrite Hlc, Hsc. unfold bind_raises.
  rewrite !has_required_columns_names, Hlc, Hlu, Hlp, Hsc, Hsu, Hsp.
  reflexivity.
Qed.

End ParseUserData.

Section StartAutomation.

Variable fs : files.
Variable f : form.





End StartAutomation.

(* ================================================================== *)
(** * Account-creation sequences started by a run *)
(* ================================================================== *)

Section Attempts.

Variable E : env.
Variable w : AutomationWorker.

Lemma basic_not_create (e : event) : basic e = true -> not_create e = true.
Proof. unfold not_create. destruct e as [| | | |[]|]; simpl; congruence. Qed.

Lemma attempts_bind_left {A B} (m : M A) (k : A -> M B) (s : state) :
  emits not_create m ->
  attempts (log (bind m k s)) =
  match result (m s) with
  | Val a => attempts (log (k a (final (m s))))
  | _ => []
  end.
Proof.
  intros Hm. rewrite log_bind, attempts_app.
  rewrite (attempts_none (log (m s))) by apply Hm.
  destruct (result (m s)); reflexivity.
Qed.

Lemma attempts_bind_right {A B} (m : M A) (k : A -> M B) (s : state) :
  (forall a, emits not_create (k a)) ->
  attempts (log (bind m k s)) = attempts (log (m s)).
Proof.
  intros Hk. rewrite log_bind, attempts_app.
  destruct (result (m s)) as [a| | |e]; simpl; try apply app_nil_r.
  rewrite (attempts_none (log (k a (final (m s))))) by apply Hk.
  apply app_nil_r.
Qed.

Lemma prelude_not_create : emits not_create (prelude E w).
Proof. unfold not_create. emits_tac. Qed.

Lemma announce_completion_not_create : emits not_create (announce_completion E).
Proof. unfold not_create. emits_tac. Qed.

Lemma report_error_not_create (e : exn) : emits not_create (report_error E e).
Proof. unfold not_create. emits_tac. Qed.

(** Only the try block starts account-creation sequences. *)
Lemma attempts_trace :
  attempts (trace E w) = attempts (log (run_body E w started)).
Proof.
  rewrite trace_split, attempts_app, log_guarded_body, attempts_app.
  destruct (release_log E _ (driver_at_release E w)) as [t [Ht [_ [_ [_ Hc]]]]].
  rewrite Ht, attempts_app, (attempts_none t Hc). simpl.
  rewrite !app_nil_r.
  destruct (result (run_body E w started)) as [a| | |e];
    try apply app_nil_r.
  rewrite (attempts_none (log (report_error E e _))).
  - apply app_nil_r.
  - apply report_error_not_create.
Qed.

(** The error signal of a run tells whether the try block raised. *)
Lemma errors_trace :
  count is_error (trace E w) =
  match result (run_body E w started) with
  | Exc _ => 1
  | _ => 0
  end.
Proof.
  rewrite trace_split, count_app, guarded_body_errors.
  destruct (release_log E _ (driver_at_release E w)) as [t [Ht [_ [_ [He _]]]]].
  rewrite Ht, count_app, (count_none is_error t He). simpl.
  rewrite !Nat.add_0_r. reflexivity.
Qed.

(** ** Debug mode *)

Hypothesis debug_on : debug_mode w = true.

Lemma debug_iteration_never_falls_through (u : UserRecord) (s : state) (a : unit) :
  result ((debug_iteration E w) u s) <> Val a.
Proof.
  unfold debug_iteration. rewrite result_bind.
  destruct (result (break_if_stopped E s)); try discriminate.
  rewrite result_bind.
  destruct (result (create_standard_user E _ _ _ _)); try discriminate.
  simpl. rewrite result_bind.
  destruct (total_emit E
    (Progress "--- DEBUG MODE: Halting after first LVC user. ---")
    (final (create_standard_user E (gtp_url w) u (user_password w)
              (final (break_if_stopped E s))))) as [[] Hv].
  rewrite Hv. discriminate.
Qed.

Lemma break_if_stopped_not_create : emits not_create (break_if_stopped E).
Proof. unfold not_create. emits_tac. Qed.

Lemma create_steps_not_create url u pw :
  emits not_create (create_steps E url u pw).
Proof. exact (emits_weaken basic_not_create (create_steps_basic E url u pw)). Qed.

Lemma attempts_create_standard_user url u pw (s : state) :
  attempts (log (create_standard_user E url u pw s)) = [u].
Proof.
  rewrite log_create_standard_user. simpl.
  rewrite (attempts_none (log (create_steps E url u pw s))); [reflexivity|].
  apply create_steps_not_create.
Qed.

Lemma debug_iteration_attempts (u : UserRecord) (s : state) :
  attempts (log ((debug_iteration E w) u s)) =
  match result (break_if_stopped E s) with
  | Val _ => [u]
  | _ => []
  end.
Proof.
  unfold debug_iteration.
  rewrite (attempts_bind_left _ _ break_if_stopped_not_create).
  destruct (result (break_if_stopped E s)); try reflexivity.
  rewrite attempts_bind_right.
  - apply attempts_create_standard_user.
  - intros _. unfold not_create. simpl. emits_tac.
Qed.

Lemma lvc_loop_debug (s : state) :
  attempts (log (lvc_loop E w s)) =
  match lvc_users w with
  | [] => []
  | u :: _ =>
      match result (break_if_stopped E s) with
      | Val _ => [u]
      | _ => []
      end
  end.
Proof.
  unfold lvc_loop. rewrite debug_on. fold (debug_iteration E w).
  destruct (lvc_users w) as [|u us]; [reflexivity|].
  simpl. pose proof (debug_iteration_never_falls_through u s) as Hn.
  pose proof (debug_iteration_attempts u s) as Ha.
  destruct ((debug_iteration E w) u s) as [[r s1] t1].
  unfold result, log in *. simpl in *.
  destruct r as [[]| | |e]; simpl; try exact Ha.
  exfalso. exact (Hn tt eq_refl).
Qed.

Lemma standard_phase_debug : standard_phase E w = ret tt.
Proof. unfold standard_phase. rewrite debug_on. reflexivity. Qed.

Lemma run_body_debug_attempts (s : state) :
  attempts (log (run_body E w s)) =
  match result (prelude E w s) with
  | Val _ => attempts (log (lvc_loop E w (final (prelude E w s))))
  | _ => []
  end.
Proof.
  unfold run_body. rewrite (attempts_bind_left _ _ prelude_not_create).
  destruct (result (prelude E w s)); try reflexivity.
  apply attempts_bind_right. intros _. rewrite standard_phase_debug.
  apply emits_bind; [apply emits_ret|].
  intros _. apply announce_completion_not_create.
Qed.

End Attempts.

Section NonDebugRun.

Variable E : env.
Variable w : AutomationWorker.
Hypothesis no_stop : forall k, stop_at E k = false.

Lemma live_prelude : live (prelude E w).
Proof. live_tac no_stop. Qed.

Lemma live_announce_completion : live (announce_completion E).
Proof. live_tac no_stop. Qed.

Lemma covers_iteration (u : UserRecord) :
  covers (break_if_stopped E ;;
          create_standard_user E (gtp_url w) u (user_password w)) [u].
Proof.
  apply covers_weaken with (us := [] ++ [u]); [reflexivity|].
  apply covers_bind.
  - apply covers_nothing.
    + apply live_break_if_stopped, no_stop.
    + apply break_if_stopped_not_create.
  - intros _. apply covers_create_standard_user, no_stop.
Qed.

Hypothesis debug_off : debug_mode w = false.

Lemma covers_lvc_loop : covers (lvc_loop E w) (lvc_users w).
Proof.
  unfold lvc_loop. rewrite debug_off. apply covers_for_each. intros u.
  apply covers_weaken with (us := [] ++ [u] ++ []); [reflexivity|].
  apply covers_bind.
  - apply covers_nothing.
    + apply live_break_if_stopped, no_stop.
    + apply break_if_stopped_not_create.
  - intros _. apply covers_bind.
    + apply covers_create_standard_user, no_stop.
    + intros _. apply covers_nothing; [apply live_ret|apply emits_ret].
Qed.

Lemma covers_standard_phase : covers (standard_phase E w) (standard_users w).
Proof.
  unfold standard_phase. rewrite debug_off. simpl.
  apply covers_weaken with (us := [] ++ [] ++ standard_users w);
    [reflexivity|].
  apply covers_bind.
  - apply covers_nothing.
    + apply live_return_if_stopped, no_stop.
    + unfold not_create. emits_tac.
  - intros _. apply covers_bind.
    + apply covers_nothing.
      * apply live_emit, no_stop.
      * unfold not_create. emits_tac.
    + intros _. apply covers_for_each. intros u. apply covers_iteration.
Qed.

Lemma covers_run_body :
  covers (run_body E w) (lvc_users w ++ standard_users w).
Proof.
  unfold run_body.
  apply covers_weaken
    with (us := [] ++ lvc_users w ++ standard_users w ++ []).
  { simpl. rewrite app_nil_r. reflexivity. }
  apply covers_bind.
  { apply covers_nothing; [apply live_prelude|apply prelude_not_create]. }
  intros _. apply covers_bind; [apply covers_lvc_loop|].
  intros _. apply covers_bind; [apply covers_standard_phase|].
  intros _. apply covers_nothing.
  - apply live_announce_completion.
  - apply announce_completion_not_create.
Qed.

End NonDebugRun.

Section StandardBatchAnnouncement.

Variable E : env.
Variable w : AutomationWorker.

Lemma debug_run_never_announces_standard_batch :
  debug_mode w = true ->
  emits (fun e => negb (is_standard_announcement e)) (run E w).
Proof.
  intros Hdebug. unfold run. apply emits_def.
  apply emits_bind; [apply emits_modify|]. intros _.
  apply emits_try_finally.
  - apply emits_try_except.
    + unfold run_body. rewrite (standard_phase_debug E w Hdebug). emits_tac.
    + intros e. emits_tac.
  - emits_tac.
Qed.

End StandardBatchAnnouncement.

(* ================================================================== *)
(** * Single steps *)
(* ================================================================== *)

Section Steps.

Variable E : env.

Lemma result_record (e : event) (s : state) : result (record e s) = Val tt.
Proof. reflexivity. Qed.

Lemma final_record (e : event) (s : state) : final (record e s) = s.
Proof. reflexivity. Qed.

Lemma log_record (e : event) (s : state) : log (record e s) = [e].
Proof. reflexivity. Qed.

Lemma result_emit (e : event) (s : state) : result (emit E e s) = Val tt.
Proof.
  unfold emit, bind, step, record, result.
  destruct (stop_at E (clock s)); reflexivity.
Qed.

Lemma clock_emit (e : event) (s : state) :
  clock (final (emit E e s)) = S (clock s).
Proof.
  unfold emit, bind, step, record, final.
  destruct (stop_at E (clock s)); reflexivity.
Qed.

Lemma result_playwright_call (c : call) (s : state) :
  result (playwright_call E c s) =
  match raised c (reply_at E (clock s)) with
  | Some e => Exc e
  | None => Val tt
  end.
Proof.
  unfold playwright_call, bind, step, record, result.
  destruct (stop_at E (clock s)); simpl;
    destruct (raised c (reply_at E (clock s))); reflexivity.
Qed.

Lemma clock_playwright_call (c : call) (s : state) :
  clock (final (playwright_call E c s)) = S (clock s).
Proof.
  unfold playwright_call, bind, step, record, final.
  destruct (stop_at E (clock s)); simpl;
    destruct (raised c (reply_at E (clock s))); reflexivity.
Qed.

(** A browser call is logged whether it succeeds or not. *)
Lemma log_playwright_call (c : call) (s : state) :
  In (Browser c) (log (playwright_call E c s)).
Proof.
  unfold playwright_call, bind, step, record, log.
  destruct (stop_at E (clock s)); simpl;
    destruct (raised c (reply_at E (clock s))); simpl; auto.
Qed.

Lemma in_log_emit (e : event) (s : state) : In e (log (emit E e s)).
Proof.
  destruct (log_emit E e s) as [t [Ht _]]. rewrite Ht.
  apply in_or_app. right. left. reflexivity.
Qed.

Lemma plain_ret {A} (a : A) : plain (ret a).
Proof. intro s. exact I. Qed.

Lemma plain_raise {A} (e : exn) : plain (@raise A e).
Proof. intro s. exact I. Qed.

Lemma plain_get {A} (g : state -> A) : plain (get g).
Proof. intro s. exact I. Qed.

Lemma plain_record (e : event) : plain (record e).
Proof. intro s. exact I. Qed.

Lemma plain_modify (g : state -> state) : plain (modify g).
Proof. intro s. exact I. Qed.

Lemma plain_bind {A B} (m : M A) (k : A -> M B) :
  plain m -> (forall a, plain (k a)) -> plain (bind m k).
Proof.
  intros Hm Hk s. rewrite result_bind. specialize (Hm s).
  destruct (result (m s)) as [a| | |e]; try contradiction.
  - apply Hk.
  - exact I.
Qed.

Lemma plain_if {A} (b : bool) (m1 m2 : M A) :
  plain m1 -> plain m2 -> plain (if b then m1 else m2).
Proof. destruct b; auto. Qed.

Lemma plain_emit (e : event) : plain (emit E e).
Proof. intro s. rewrite result_emit. exact I. Qed.

Lemma plain_playwright_call (c : call) : plain (playwright_call E c).
Proof.
  intro s. rewrite result_playwright_call.
  destruct (raised c (reply_at E (clock s))); exact I.
Qed.

End Steps.

Ltac plain_tac :=
  repeat first
    [ apply plain_ret | apply plain_raise | apply plain_get
    | apply plain_record | apply plain_modify
    | apply plain_emit | apply plain_playwright_call
    | apply plain_if
    | apply plain_bind; [|intro] ].

Lemma log_try_except {A} (m : M A) (h : exn -> M A) (s : state) :
  log (try_except m h s) =
  log (m s) ++ match result (m s) with
               | Exc e => log (h e (final (m s)))
               | _ => []
               end.
Proof.
  unfold try_except, log, result, final. destruct (m s) as [[r s1] t1]. simpl.
  destruct r as [a| | |e]; simpl; try (rewrite app_nil_r; reflexivity).
  destruct (h e s1) as [[r2 s2] t2]. reflexivity.
Qed.

Lemma result_try_except {A} (m : M A) (h : exn -> M A) (s : state) :
  result (try_except m h s) =
  match result (m s) with
  | Exc e => result (h e (final (m s)))
  | r => r
  end.
Proof.
  unfold try_except, log, result, final. destruct (m s) as [[r s1] t1]. simpl.
  destruct r as [a| | |e]; simpl; try reflexivity.
  destruct (h e s1) as [[r2 s2] t2]. reflexivity.
Qed.

(* ================================================================== *)
(** * The login sequence *)
(* ================================================================== *)

Section Login.

Variable E : env.

Lemma plain_mfa_selection : plain (mfa_selection E).
Proof. unfold mfa_selection, progress_callback. plain_tac. Qed.

(** The try statement around the MFA selection always falls through. *)
Lemma mfa_detection_falls_through (s : state) :
  result (mfa_detection E s) = Val tt.
Proof.
  unfold mfa_detection. rewrite result_try_except.
  pose proof (plain_mfa_selection s) as Hp.
  destruct (result (mfa_selection E s)) as [[]| | |e]; try contradiction.
  - reflexivity.
  - apply result_emit.
Qed.

(** When the selection raises, the except clause logs the informational
    line with the details of the exception. *)
Lemma mfa_detection_logs_info (s : state) (e : exn) :
  result (mfa_selection E s) = Exc e ->
  In (Progress (mfa_info_line e)) (log (mfa_detection E s)).
Proof.
  intros He. unfold mfa_detection. rewrite log_try_except, He.
  apply in_or_app. right. apply in_log_emit.
Qed.

(** The push-selection control does not appear. *)
Lemma mfa_selection_control_absent (s : state) (d : string) :
  reply_at E (clock s) = TimedOut d ->
  result (mfa_selection E s) = Exc (mkExn "AssertionError" d).
Proof.
  intros Hr. unfold mfa_selection. rewrite result_bind.
  rewrite result_playwright_call, Hr. reflexivity.
Qed.

(** The control appears and is clicked, the confirmation does not appear. *)
Lemma mfa_selection_confirmation_absent (s : state) (d : string) :
  reply_at E (clock s) = Done ->
  reply_at E (2 + clock s) = Done ->
  reply_at E (4 + clock s) = TimedOut d ->
  result (mfa_selection E s) = Exc (mkExn "AssertionError" d).
Proof.
  intros H0 H2 H4. simpl in H2, H4. unfold mfa_selection, progress_callback.
  rewrite result_bind, result_playwright_call, H0. simpl.
  rewrite result_bind, result_emit.
  rewrite result_bind, result_playwright_call.
  rewrite clock_emit, clock_playwright_call, H2. simpl.
  rewrite result_bind, result_emit.
  rewrite result_bind, result_playwright_call.
  rewrite clock_emit, clock_playwright_call, clock_emit,
    clock_playwright_call, H4.
  reflexivity.
Qed.

(** The approval wait issues its call whatever happened before. *)
Lemma approval_wait_waits (s : state) :
  In (Browser (WaitForUrlNotOkta 120000)) (log (approval_wait E s)).
Proof.
  unfold approval_wait, progress_callback.
  rewrite log_bind, result_emit. apply in_or_app. right.
  rewrite log_bind, result_emit. apply in_or_app. right.
  rewrite log_bind. apply in_or_app. left.
  apply log_playwright_call.
Qed.

(** Once the email and the password are submitted, [login] ends the way the
    approval wait ends, and the approval wait is reached. *)
Lemma login_reaches_approval_wait (url em pw : string) (s : state) (a : unit) :
  result (login_steps E url em pw s) = Val a ->
  result (login E url em pw s) =
    result (approval_wait E
              (final (mfa_detection E (final (login_steps E url em pw s))))) /\
  In (Browser (WaitForUrlNotOkta 120000)) (log (login E url em pw s)).
Proof.
  intros Hs. unfold login. split.
  - rewrite result_bind, result_record, final_record.
    rewrite result_bind, Hs.
    rewrite result_bind, mfa_detection_falls_through. reflexivity.
  - rewrite log_bind, result_record, final_record. apply in_or_app. right.
    rewrite log_bind, Hs. apply in_or_app. right.
    rewrite log_bind, mfa_detection_falls_through. apply in_or_app. right.
    apply approval_wait_waits.
Qed.


End Login.

(* ================================================================== *)
(** * The currency option *)
(* ================================================================== *)

Lemma split_on_not_empty (c : ascii) (s : string) : Py.split_on c s <> [].
Proof.
  induction s as [|a s IH]; simpl; [discriminate|].
  destruct (Ascii.eqb a c); [discriminate|].
  destruct (Py.split_on c s); discriminate.
Qed.

(** [s.split(c)[0]] is the part of [s] before the first [c]. *)
Lemma first_field_split_on (c : ascii) (s : string) :
  exists rest,
    s = Py.first_field (Py.split_on c s) +++ rest /\
    (rest = EmptyString \/ exists r, rest = String c r) /\
    ~ In c (chars (Py.first_field (Py.split_on c s))).
Proof.
  induction s as [|a s IH]; simpl.
  - exists EmptyString. simpl. auto.
  - destruct (Ascii.eqb a c) eqn:Hac.
    + apply Ascii.eqb_eq in Hac. subst a. exists (String c s). simpl.
      split; [reflexivity|]. split; [right; exists s; reflexivity|]. auto.
    + destruct IH as [rest [Hs [Hrest Hin]]].
      pose proof (split_on_not_empty c s) as Hne.
      destruct (Py.split_on c s) as [|f fs]; [contradiction|].
      simpl in *. exists rest. split; [rewrite <- Hs; reflexivity|].
      split; [exact Hrest|].
      intros [Heq | Hin']; [|exact (Hin Hin')].
      subst a. rewrite Ascii.eqb_refl in Hac. discriminate.
Qed.

Section CurrencySelection.

Variable E : env.

Lemma create_standard_user_selects (url : string) (u : UserRecord) (pw : string) :
  emits (selects_only (currency_code_of u)) (create_standard_user E url u pw).
Proof.
  unfold create_standard_user, create_steps, wait_for_page_to_settle,
    progress_callback.
  emits_with ltac:(first [reflexivity | apply String.eqb_refl]).
Qed.

Lemma in_log_bind_here {A B} (m : M A) (k : A -> M B) (s : state) (x : event) :
  In x (log (m s)) -> In x (log (bind m k s)).
Proof. intros H. rewrite log_bind. apply in_or_app. left. exact H. Qed.

Lemma in_log_bind_later {A B} (m : M A) (k : A -> M B) (s : state) (x : event)
      (a : A) :
  result (m s) = Val a ->
  In x (log (k a (final (m s)))) -> In x (log (bind m k s)).
Proof.
  intros Hr H. rewrite log_bind, Hr. apply in_or_app. right. exact H.
Qed.

Hypothesis all_done : forall k, reply_at E k = Done.

Lemma playwright_call_done (c : call) (s : state) :
  result (playwright_call E c s) = Val tt.
Proof. rewrite result_playwright_call, all_done. reflexivity. Qed.

Lemma wait_for_page_to_settle_done (s : state) :
  result (wait_for_page_to_settle E s) = Val tt.
Proof.
  unfold wait_for_page_to_settle, progress_callback.
  rewrite result_bind, result_record.
  rewrite result_bind, result_emit.
  rewrite result_bind, playwright_call_done.
  apply result_emit.
Qed.

(** When the browser answers every call, the provisioning sequence of a
    launched driver selects the currency option. *)
Lemma create_standard_user_reaches_selection
      (url : string) (u : UserRecord) (pw : string) (s : state) :
  page s = true ->
  In (Browser (SelectOption currency_locator (currency_code_of u)))
     (log (create_standard_user E url u pw s)).
Proof.
  intros Hpage. unfold create_standard_user.
  apply in_log_bind_later with (a := tt); [reflexivity|].
  rewrite final_record. unfold create_steps.
  apply in_log_bind_later with (a := page s); [reflexivity|].
  unfold final at 1. simpl fst. simpl snd. rewrite Hpage. simpl negb.
  cbv iota.
  apply in_log_bind_later with (a := tt); [reflexivity|].
  unfold progress_callback.
  repeat first
    [ solve [apply in_log_bind_here; apply log_playwright_call]
    | apply in_log_bind_later with (a := tt);
      [first [ apply result_emit | apply playwright_call_done
             | apply wait_for_page_to_settle_done ]|] ].
Qed.

End CurrencySelection.

(* ================================================================== *)
(** * Cancellation *)
(* ================================================================== *)

Section Tracks.

Variable E : env.

Lemma tracks_silent {A} (m : M A) :
  (forall s, log (m s) = []) ->
  (forall s, is_running (final (m s)) = is_running s) -> tracks m.
Proof.
  intros Hl Hf s. rewrite Hl, Hf. simpl. rewrite andb_true_r. reflexivity.
Qed.

Lemma tracks_ret {A} (a : A) : tracks (ret a).
Proof. apply tracks_silent; reflexivity. Qed.

Lemma tracks_raise {A} (e : exn) : tracks (@raise A e).
Proof. apply tracks_silent; reflexivity. Qed.

Lemma tracks_return {A} : tracks (@return_ A).
Proof. apply tracks_silent; reflexivity. Qed.

Lemma tracks_break {A} : tracks (@break A).
Proof. apply tracks_silent; reflexivity. Qed.

Lemma tracks_get {A} (g : state -> A) : tracks (get g).
Proof. apply tracks_silent; reflexivity. Qed.

Lemma tracks_modify (g : state -> state) :
  (forall s, is_running (g s) = is_running s) -> tracks (modify g).
Proof. intros H. apply tracks_silent; [reflexivity|exact H]. Qed.

Lemma tracks_record (e : event) : is_stop e = false -> tracks (record e).
Proof.
  intros H s. unfold stopped. simpl. rewrite H. simpl.
  rewrite andb_true_r. reflexivity.
Qed.

Lemma stopped_app (t1 t2 : list event) :
  stopped (t1 ++ t2) = stopped t1 || stopped t2.
Proof. apply existsb_app. Qed.

Lemma tracks_bind {A B} (m : M A) (k : A -> M B) :
  tracks m -> (forall a, tracks (k a)) -> tracks (bind m k).
Proof.
  intros Hm Hk s. rewrite final_bind, log_bind. specialize (Hm s).
  destruct (result (m s)) as [a| | |e]; try (rewrite app_nil_r; exact Hm).
  rewrite Hk, Hm, stopped_app, negb_orb, andb_assoc. reflexivity.
Qed.

Lemma tracks_if {A} (b : bool) (m1 m2 : M A) :
  tracks m1 -> tracks m2 -> tracks (if b then m1 else m2).
Proof. destruct b; auto. Qed.

Lemma tracks_when (b : bool) (m : M unit) : tracks m -> tracks (when b m).
Proof. intro H. destruct b; simpl; [exact H|apply tracks_ret]. Qed.

Lemma tracks_try_except {A} (m : M A) (h : exn -> M A) :
  tracks m -> (forall e, tracks (h e)) -> tracks (try_except m h).
Proof.
  intros Hm Hh s. unfold try_except. specialize (Hm s).
  destruct (m s) as [[r s1] t1]. unfold final, log in *. simpl in Hm.
  destruct r as [a| | |e]; simpl; auto.
  specialize (Hh e s1). destruct (h e s1) as [[r2 s2] t2].
  unfold final, log in *. simpl in *.
  rewrite Hh, Hm, stopped_app, negb_orb, andb_assoc. reflexivity.
Qed.

Lemma tracks_try_finally {A} (m : M A) (f : M unit) :
  tracks m -> tracks f -> tracks (try_finally m f).
Proof.
  intros Hm Hf s. unfold try_finally. specialize (Hm s).
  destruct (m s) as [[r s1] t1]. unfold final, log in *. simpl in Hm.
  specialize (Hf s1). destruct (f s1) as [[r2 s2] t2].
  unfold final, log in *. simpl in Hf.
  destruct r2; simpl; rewrite Hf, Hm, stopped_app, negb_orb, andb_assoc;
    reflexivity.
Qed.

Lemma tracks_for_each {X} (xs : list X) (body : X -> M unit) :
  (forall x, tracks (body x)) -> tracks (for_each xs body).
Proof.
  intros Hb. induction xs as [|x xs IH]; intro s; simpl.
  - unfold final, log. simpl. rewrite andb_true_r. reflexivity.
  - specialize (Hb x s). destruct (body x s) as [[r s1] t1].
    unfold final, log in *. simpl in Hb.
    destruct r as [a| | |e]; simpl; auto.
    specialize (IH s1). destruct (for_each xs body s1) as [[r2 s2] t2].
    unfold final, log in *. simpl in *.
    rewrite IH, Hb, stopped_app, negb_orb, andb_assoc. reflexivity.
Qed.

Lemma tracks_def (m : M unit) : tracks m -> tracks (def m).
Proof.
  intros Hm s. unfold def. specialize (Hm s).
  destruct (m s) as [[r s1] t1]. destruct r; exact Hm.
Qed.

Lemma tracks_step : tracks (step E).
Proof.
  intro s. unfold step, stopped. destruct (stop_at E (clock s)); simpl.
  - unfold final, log. simpl. rewrite andb_false_r. reflexivity.
  - unfold final, log. simpl. rewrite andb_true_r. reflexivity.
Qed.

Lemma tracks_emit (e : event) : is_stop e = false -> tracks (emit E e).
Proof.
  intros H. unfold emit. apply tracks_bind; [apply tracks_step|].
  intros _. apply tracks_record, H.
Qed.

Lemma tracks_playwright_call (c : call) : tracks (playwright_call E c).
Proof.
  unfold playwright_call. apply tracks_bind; [apply tracks_step|].
  intros k. apply tracks_bind; [apply tracks_record; reflexivity|].
  intros _. destruct (raised c (reply_at E k));
    [apply tracks_raise|apply tracks_ret].
Qed.

Lemma tracks_teardown_call (c : call) : tracks (teardown_call E c).
Proof.
  unfold teardown_call. apply tracks_bind; [apply tracks_step|].
  intros _. apply tracks_record. reflexivity.
Qed.

Lemma tracks_read_is_running : tracks (read_is_running E).
Proof.
  unfold read_is_running. apply tracks_bind; [apply tracks_step|].
  intros _. apply tracks_bind; [apply tracks_get|].
  intros b. apply tracks_bind; [apply tracks_record; reflexivity|].
  intros _. apply tracks_ret.
Qed.

End Tracks.

Ltac tracks_tac :=
  repeat first
    [ apply tracks_ret | apply tracks_raise | apply tracks_return
    | apply tracks_break | apply tracks_get
    | apply tracks_modify; intros []; reflexivity
    | apply tracks_record; reflexivity
    | apply tracks_emit; reflexivity
    | apply tracks_playwright_call | apply tracks_teardown_call
    | apply tracks_read_is_running
    | apply tracks_if | apply tracks_when
    | apply tracks_try_except; [|intro]
    | apply tracks_try_finally
    | apply tracks_for_each; intro
    | apply tracks_def
    | apply tracks_bind; [|intro] ].

Section TracksRun.

Variable E : env.
Variable w : AutomationWorker.

Lemma tracks_create_standard_user url u pw :
  tracks (create_standard_user E url u pw).
Proof. tracks_tac. Qed.

Lemma tracks_break_if_stopped : tracks (break_if_stopped E).
Proof. tracks_tac. Qed.

Lemma tracks_return_if_stopped : tracks (return_if_stopped E).
Proof. tracks_tac. Qed.

Lemma tracks_prelude : tracks (prelude E w).
Proof. tracks_tac. Qed.




End TracksRun.



Section Guards.

Variable E : env.


Lemma guards_live_of_guards {A} (m : M A) : guards m -> guards_live m.
Proof. intros H s Hs. specialize (H s). rewrite Hs in H. exact H. Qed.







(** Reading the flag set leaves it set. *)
Lemma break_if_stopped_falls_through_live (s : state) (a : unit) :
  result (break_if_stopped E s) = Val a ->
  is_running (final (break_if_stopped E s)) = true.
Proof.
  destruct s as [running d pw b pg c].
  unfold break_if_stopped, read_is_running, bind, step, get, record, ret,
    break, result, final.
  simpl. destruct (stop_at E c); simpl.
  - discriminate.
  - destruct running; simpl; [reflexivity|discriminate].
Qed.


Variable w : AutomationWorker.



End Guards.

Section GuardsRun.

Variable E : env.
Variable w : AutomationWorker.


Lemma release_not_create : emits not_create (release E).
Proof. unfold not_create. emits_tac. Qed.


End GuardsRun.

(** ** What follows a read of the cleared flag *)




Section Halts.

Variable E : env.








Lemma mute_ret {A} (a : A) : mute (ret a).
Proof. intros s Hs. repeat split; auto; discriminate. Qed.

Lemma mute_when (b : bool) (m : M unit) : mute m -> mute (when b m).
Proof. intros H. destruct b; simpl; [exact H|apply mute_ret]. Qed.

Lemma mute_bind {A B} (m : M A) (k : A -> M B) :
  mute m -> (forall a, mute (k a)) -> mute (bind m k).
Proof.
  intros Hm Hk s Hs. rewrite log_bind, result_bind, final_bind.
  destruct (Hm s Hs) as [Hh [Hf He]].
  destruct (result (m s)) as [a| | |e].
  - destruct (Hk a _ Hf) as [Hh2 [Hf2 He2]].
    rewrite forallb_app, Hh, Hh2. auto.
  - rewrite app_nil_r. repeat split; auto; discriminate.
  - rewrite app_nil_r. repeat split; auto; discriminate.
  - exfalso. exact (He e eq_refl).
Qed.

(** A block that never falls through once the flag is cleared makes what
    follows it unreachable. *)
Lemma mute_bind_stop {A B} (m : M A) (k : A -> M B) :
  mute m -> (forall s a, is_running s = false -> result (m s) <> Val a) ->
  mute (bind m k).
Proof.
  intros Hm Hv s Hs. rewrite log_bind, result_bind, final_bind.
  destruct (Hm s Hs) as [Hh [Hf He]]. specialize (Hv s).
  destruct (result (m s)) as [a| | |e].
  - exfalso. exact (Hv a Hs eq_refl).
  - rewrite app_nil_r. repeat split; auto; discriminate.
  - rewrite app_nil_r. repeat split; auto; discriminate.
  - exfalso. exact (He e eq_refl).
Qed.

(** The two tests of the flag and the closing test, step by step. *)
Lemma read_is_running_cases (s : state) :
  (read_is_running E s = (Val true, advance s, [ReadFlag true]) /\
   is_running s = true /\ stop_at E (clock s) = false) \/
  (exists t, read_is_running E s =
             (Val false, set_is_running false (advance s), t ++ [ReadFlag false]) /\
             forallb hushed t = true /\
             forallb (fun e => negb (is_read e)) t = true).
Proof.
  destruct s as [running d pw b pg c].
  unfold read_is_running, bind, step, get, record, ret. simpl.
  destruct (stop_at E c) eqn:Hstop; simpl.
  - right. exists [Invoke m_stop; Progress "Stopping process..."]. auto.
  - destruct running.
    + left. auto.
    + right. exists []. auto.
Qed.

Lemma seen_read_true : seen [ReadFlag true] = false.
Proof. reflexivity. Qed.






Lemma mute_return_if_stopped : mute (return_if_stopped E).
Proof.
  intros s Hs. unfold return_if_stopped, bind.
  destruct (read_is_running_cases s) as [[_ [Hr _]] | [t [-> [Hh Hr]]]].
  - congruence.
  - unfold log, final, result. simpl.
    rewrite app_nil_r, forallb_app, Hh. repeat split; auto; discriminate.
Qed.

Lemma return_if_stopped_returns (s : state) (a : unit) :
  is_running s = false -> result (return_if_stopped E s) <> Val a.
Proof.
  intros Hs. unfold return_if_stopped, bind.
  destruct (read_is_running_cases s) as [[_ [Hr _]] | [t [-> [Hh Hr]]]].
  - congruence.
  - discriminate.
Qed.


Lemma mute_announce_completion : mute (announce_completion E).
Proof.
  intros s Hs. unfold announce_completion, bind.
  destruct (read_is_running_cases s) as [[_ [Hr _]] | [t [-> [Hh Hr]]]].
  - congruence.
  - unfold log, final, result. simpl.
    rewrite app_nil_r, forallb_app, Hh. repeat split; auto; discriminate.
Qed.

End Halts.


Section HaltsRun.

Variable E : env.
Variable w : AutomationWorker.









Lemma mute_standard_phase : mute (standard_phase E w).
Proof.
  unfold standard_phase. apply mute_when. apply mute_bind_stop.
  - apply mute_return_if_stopped.
  - intros s a Hs. apply return_if_stopped_returns, Hs.
Qed.


Lemma release_after_cancel : emits after_cancel (release E).
Proof. emits_tac. Qed.





End HaltsRun.

Section MuteLoops.

Variable E : env.
Variable w : AutomationWorker.

Lemma mute_break_if_stopped : mute (break_if_stopped E).
Proof.
  intros s Hs. unfold break_if_stopped, bind.
  destruct (read_is_running_cases E s) as [[_ [Hr _]] | [t [-> [Hh Hr]]]].
  - congruence.
  - unfold log, final, result. simpl.
    rewrite app_nil_r, forallb_app, Hh. repeat split; auto; discriminate.
Qed.

Lemma break_if_stopped_breaks (s : state) (a : unit) :
  is_running s = false -> result (break_if_stopped E s) <> Val a.
Proof.
  intros Hs. unfold break_if_stopped, bind.
  destruct (read_is_running_cases E s) as [[_ [Hr _]] | [t [-> [Hh Hr]]]].
  - congruence.
  - discriminate.
Qed.

(** A loop whose body never falls through once the flag is cleared ends at
    its first test of the flag. *)
Lemma mute_for_each {X} (xs : list X) (body : X -> M unit) :
  (forall x, mute (body x)) ->
  (forall x s a, is_running s = false -> result (body x s) <> Val a) ->
  mute (for_each xs body).
Proof.
  intros Hm Hv. destruct xs as [|x xs]; intros s Hs; simpl.
  - repeat split; auto; discriminate.
  - destruct (Hm x s Hs) as [Hh [Hf He]]. specialize (Hv x s).
    destruct (body x s) as [[r s1] t1]. unfold log, final, result in *.
    simpl in *.
    destruct r as [a| | |e]; simpl.
    + exfalso. exact (Hv a Hs eq_refl).
    + repeat split; auto; discriminate.
    + repeat split; auto; discriminate.
    + exfalso. exact (He e eq_refl).
Qed.

Lemma mute_lvc_loop : mute (lvc_loop E w).
Proof.
  unfold lvc_loop. apply mute_for_each.
  - intros u. apply mute_bind_stop.
    + apply mute_break_if_stopped.
    + intros s a Hs. apply break_if_stopped_breaks, Hs.
  - intros u s a Hs. rewrite result_bind.
    pose proof (@break_if_stopped_breaks s) as Hb.
    destruct (result (break_if_stopped E s)) as [[]| | |e]; try discriminate.
    exfalso. exact (Hb tt Hs eq_refl).
Qed.


(** The rest of the try block from an iteration of the LVC loop on. *)
Lemma mute_from_lvc_loop :
  mute (lvc_loop E w ;; standard_phase E w ;; announce_completion E).
Proof.
  apply mute_bind; [apply mute_lvc_loop|]. intros _.
  apply mute_bind; [apply mute_standard_phase|]. intros _.
  apply mute_announce_completion.
Qed.


End MuteLoops.

(* ================================================================== *)
(** * The batch orchestrator *)
(* ================================================================== *)

(** C1. In a run with debug mode off in which [stop] is never invoked and
    no step fails (no exception reaches the except clause, so no error
    signal is emitted), the account-creation sequences the worker starts
    are exactly those of the records of [lvc_users], in list order,
    followed by those of the records of [standard_users], in list order:
    M + N sequences, each record once. *)
Theorem non_debug_run_processes_every_record (E : env) (w : AutomationWorker) :
  debug_mode w = false ->
  (forall k, stop_at E k = false) ->
  count is_error (trace E w) = 0 ->
  attempts (trace E w) = lvc_users w ++ standard_users w /\
  List.length (attempts (trace E w)) =
    List.length (lvc_users w) + List.length (standard_users w).
Proof.
  intros Hdebug Hstop Herr.
  assert (Ha : attempts (trace E w) = lvc_users w ++ standard_users w).
  { rewrite attempts_trace. rewrite errors_trace in Herr.
    destruct (@covers_run_body E w Hstop Hdebug started eq_refl)
      as [_ [[_ Hat] | [e He]]].
    - exact Hat.
    - rewrite He in Herr. discriminate. }
  split; [exact Ha|]. rewrite Ha. apply List.length_app.
Qed.

(** The sample worker, debug mode off, with a browser that answers every
    call: three sequences, the two LVC records first. *)
Lemma non_debug_run_processes_every_record_witness :
  attempts (trace calm (sample_worker false)) =
    lvc_users (sample_worker false) ++ standard_users (sample_worker false) /\
  List.length (attempts (trace calm (sample_worker false))) =
    List.length (lvc_users (sample_worker false)) +
    List.length (standard_users (sample_worker false)).
Proof.
  apply (@non_debug_run_processes_every_record calm (sample_worker false)).
  - reflexivity.
  - intros k. reflexivity.
  - vm_compute. reflexivity.
Defined.

(** C2. In a run with debug mode on, whatever the browser answers and
    whenever [stop] is invoked, at most one account-creation sequence is
    started, and it is the one of the first record of [lvc_users]; no
    sequence is started for a record of [standard_users], and the standard
    batch is never announced.  When the run is neither stopped nor failed
    the sequence of the first LVC record is started if there is one. *)
Theorem debug_run_processes_at_most_first_lvc (E : env) (w : AutomationWorker) :
  debug_mode w = true ->
  (exists n, n <= 1 /\ attempts (trace E w) = firstn n (lvc_users w)) /\
  List.length (attempts (trace E w)) <= 1 /\
  count is_standard_announcement (trace E w) = 0 /\
  ((forall k, stop_at E k = false) ->
   count is_error (trace E w) = 0 ->
   attempts (trace E w) = firstn 1 (lvc_users w)).
Proof.
  intros Hdebug.
  assert (Hshape : attempts (trace E w) = [] \/
                   exists u us, lvc_users w = u :: us /\
                                attempts (trace E w) = [u]).
  { rewrite attempts_trace, (run_body_debug_attempts E w Hdebug).
    destruct (result (prelude E w started)); auto.
    rewrite (lvc_loop_debug E w Hdebug).
    destruct (lvc_users w) as [|u us]; auto.
    destruct (result (break_if_stopped E _)); auto.
    right. exists u, us. auto. }
  repeat split.
  - destruct Hshape as [H | [u [us [Hl H]]]].
    + exists 0. split; [lia|]. rewrite H. reflexivity.
    + exists 1. split; [lia|]. rewrite H, Hl. reflexivity.
  - destruct Hshape as [H | [u [us [Hl H]]]]; rewrite H; simpl; lia.
  - apply count_none.
    exact (debug_run_never_announces_standard_batch E w Hdebug init).
  - intros Hstop Herr. rewrite errors_trace in Herr.
    rewrite attempts_trace, (run_body_debug_attempts E w Hdebug).
    assert (Hrun : result (run_body E w started) =
                   match result (prelude E w started) with
                   | Val a => result ((lvc_loop E w ;; standard_phase E w ;;
                                       announce_completion E)
                                        (final (prelude E w started)))
                   | Ret => Ret
                   | Brk => Brk
                   | Exc e => Exc e
                   end).
    { unfold run_body. rewrite result_bind. reflexivity. }
    destruct (@live_prelude E w Hstop started eq_refl) as [Hflag Hres].
    destruct (result (prelude E w started)) as [a| | |e]; try contradiction.
    + rewrite (lvc_loop_debug E w Hdebug).
      destruct (lvc_users w) as [|u us]; [reflexivity|].
      unfold break_if_stopped, bind.
      rewrite (@read_is_running_set E Hstop _ Hflag). reflexivity.
    + rewrite Hrun in Herr. discriminate.
Qed.

(** The sample worker in debug mode: one sequence, for the first LVC
    record. *)
Lemma debug_run_processes_at_most_first_lvc_witness :
  (exists n, n <= 1 /\
             attempts (trace calm (sample_worker true)) =
             firstn n (lvc_users (sample_worker true))) /\
  List.length (attempts (trace calm (sample_worker true))) <= 1 /\
  count is_standard_announcement (trace calm (sample_worker true)) = 0 /\
  ((forall k, stop_at calm k = false) ->
   count is_error (trace calm (sample_worker true)) = 0 ->
   attempts (trace calm (sample_worker true)) =
   firstn 1 (lvc_users (sample_worker true))).
Proof.
  apply (@debug_run_processes_at_most_first_lvc calm (sample_worker true)).
  reflexivity.
Defined.

(** Debug runs of the sample worker: undisturbed, with a login page that
    cannot be reached, and stopped while the browser is launched. *)
Example debug_run_of_sample_worker :
  attempts (trace calm (sample_worker true)) = [usd_user] /\
  attempts (trace (fail_at 10 (Failed "net::ERR_CONNECTION_REFUSED"))
                  (sample_worker true)) = [] /\
  attempts (trace (stop_before 5) (sample_worker true)) = [].
Proof. vm_compute. repeat split; reflexivity. Qed.

(** C3. In every run, whatever the browser answers and whenever [stop] is
    invoked (normal completion, early return, break out of a loop, or an
    exception raised by any phase), [BrowserDriver.close] is entered
    exactly once. *)
Theorem session_closed_exactly_once (E : env) (w : AutomationWorker) :
  count is_close (trace E w) = 1.
Proof.
  rewrite trace_split, count_app.
  destruct (release_log E _ (driver_at_release E w)) as [t [Ht [Hc _]]].
  rewrite Ht, count_app, Hc. simpl.
  rewrite count_none; [reflexivity|].
  apply guarded_body_emits; try reflexivity.
  intros [| | | |[]|]; simpl; congruence.
Qed.


(* ================================================================== *)
(** * The authentication sequencer *)
(* ================================================================== *)

(** C5. Whatever goes wrong inside the MFA detection block of [login],
    the try statement falls through: when the selection raises an
    exception, the informational line with its details is logged.  This
    covers the push-selection control that does not appear within its
    timeout and the push-sent confirmation that does not appear within its
    own.  After the block [login] goes on with the approval wait, whose call
    is issued, and ends the way the approval wait ends. *)
Theorem mfa_detection_failure_is_swallowed (E : env) (s : state) :
  result (mfa_detection E s) = Val tt /\
  (forall e, result (mfa_selection E s) = Exc e ->
             In (Progress (mfa_info_line e)) (log (mfa_detection E s))) /\
  (forall d, reply_at E (clock s) = TimedOut d ->
             In (Progress (mfa_info_line (mkExn "AssertionError" d)))
                (log (mfa_detection E s))) /\
  (forall d, reply_at E (clock s) = Done ->
             reply_at E (2 + clock s) = Done ->
             reply_at E (4 + clock s) = TimedOut d ->
             In (Progress (mfa_info_line (mkExn "AssertionError" d)))
                (log (mfa_detection E s))) /\
  (forall url em pw a,
      result (login_steps E url em pw s) = Val a ->
      result (login E url em pw s) =
        result (approval_wait E
                  (final (mfa_detection E (final (login_steps E url em pw s)))))
      /\ In (Browser (WaitForUrlNotOkta 120000)) (log (login E url em pw s))).
Proof.
  split; [apply mfa_detection_falls_through|].
  split; [apply mfa_detection_logs_info|].
  split.
  { intros d Hd. apply mfa_detection_logs_info.
    apply mfa_selection_control_absent, Hd. }
  split.
  { intros d H0 H2 H4. apply mfa_detection_logs_info.
    apply mfa_selection_confirmation_absent; assumption. }
  intros url em pw a Hs. exact (login_reaches_approval_wait E url em pw s Hs).
Qed.

(** A login in which the push-selection control never appears: the
    informational line is logged and the approval wait follows. *)
Example login_without_push_selection :
  let t := log (login (fail_at 25 (TimedOut "Locator expected to be visible"))
                      "https://admin" "operator@example.com" "secret"
                      (mkState true true true true true 8)) in
  result (login (fail_at 25 (TimedOut "Locator expected to be visible"))
                "https://admin" "operator@example.com" "secret"
                (mkState true true true true true 8)) = Val tt /\
  skipn 18 t =
    [Browser (ExpectVisible push_option_locator 30000);
     Progress (mfa_info_line
                 (mkExn "AssertionError" "Locator expected to be visible"));
     Progress "Waiting for Multi-Factor Authentication (MFA)...";
     Progress ">>> Please approve the notification on your phone. <<<";
     Browser (WaitForUrlNotOkta 120000);
     Progress "MFA approved. Login successful!"].
Proof. vm_compute. split; reflexivity. Qed.




(* ================================================================== *)
(** * The account provisioner *)
(* ================================================================== *)

(** C8, as the code has it.  Whenever a provisioning sequence selects an
    option, it selects it in the currency dropdown, and the option is the
    text of the record's Currency field before its first space character:
    the field is that text followed by nothing or by a space and the rest,
    and the text contains no space.  For the currency USD (US Dollar) the
    option is USD.  When the browser answers every call the option is
    selected. *)
Theorem currency_option_is_text_before_first_space
    (E : env) (url : string) (u : UserRecord) (pw : string) (s : state) :
  (forall l label,
      In (Browser (SelectOption l label))
         (log (create_standard_user E url u pw s)) ->
      l = currency_locator /\ label = currency_code_of u) /\
  (exists rest,
      str (Currency u) = currency_code_of u +++ rest /\
      (rest = EmptyString \/ exists r, rest = String " " r) /\
      ~ In " "%char (chars (currency_code_of u))) /\
  currency_code_of (mkUser (Some "USD (US Dollar)") (Username u) (Postfix u))
    = "USD" /\
  ((forall k, reply_at E k = Done) -> page s = true ->
   In (Browser (SelectOption currency_locator (currency_code_of u)))
      (log (create_standard_user E url u pw s))).
Proof.
  split; [|split; [|split]].
  - intros l label Hin.
    pose proof (create_standard_user_selects E url u pw s) as Hall.
    rewrite forallb_forall in Hall. specialize (Hall _ Hin). simpl in Hall.
    destruct l; try discriminate. apply String.eqb_eq in Hall. auto.
  - unfold currency_code_of. apply first_field_split_on.
  - reflexivity.
  - intros Hdone Hpage.
    apply create_standard_user_reaches_selection; assumption.
Qed.

(** C8 as stated fails: for a Currency field whose code is followed by a
    line break or by a tab, the first whitespace-delimited token is USD,
    and the option the provisioning sequence selects is the field up to its
    first space. *)
Lemma currency_option_is_not_first_whitespace_token :
  first_whitespace_token ("USD" +++ Py.LF +++ "(US Dollar)") = Some "USD" /\
  currency_code_of
    (mkUser (Some ("USD" +++ Py.LF +++ "(US Dollar)")) (Some "player") (Some "1"))
    = "USD" +++ Py.LF +++ "(US" /\
  first_whitespace_token ("USD" +++ Py.TAB +++ "(US Dollar)") = Some "USD" /\
  currency_code_of
    (mkUser (Some ("USD" +++ Py.TAB +++ "(US Dollar)")) (Some "player") (Some "1"))
    = "USD" +++ Py.TAB +++ "(US" /\
  In (Browser (SelectOption currency_locator ("USD" +++ Py.TAB +++ "(US")))
     (log (create_standard_user calm "https://admin"
             (mkUser (Some ("USD" +++ Py.TAB +++ "(US Dollar)"))
                     (Some "player") (Some "1"))
             "snow" launched)).
Proof.
  split; [reflexivity|]. split; [reflexivity|].
  split; [reflexivity|]. split; [reflexivity|].
  apply (create_standard_user_reaches_selection
           calm (fun _ => eq_refl) "https://admin"
           (mkUser (Some ("USD" +++ Py.TAB +++ "(US Dollar)"))
                   (Some "player") (Some "1"))
           "snow" launched eq_refl).
Qed.

(* ================================================================== *)
(** * Cancellation *)
(* ================================================================== *)


(** A run of the sample worker in which [stop] is invoked between the first
    and the second LVC sequence: one sequence is started, the flag is read
    cleared twice, the session is torn down and completion is signalled. *)
Example stop_between_two_sequences :
  attempts (trace (stop_before 71) (sample_worker false)) = [usd_user] /\
  count is_error (trace (stop_before 71) (sample_worker false)) = 0 /\
  after_first is_stop (trace (stop_before 71) (sample_worker false)) =
    [Progress "Stopping process..."; ReadFlag false; ReadFlag false;
     Invoke m_close; Browser BrowserClose; Progress "Browser closed.";
     Browser PlaywrightStop; AutomationFinished].
Proof. vm_compute. repeat split; reflexivity. Qed.

(* ================================================================== *)
(** * The input files *)
(* ================================================================== *)





(** The two sample workbooks parsed: the first raises the ValueError of the
    standard section, the second yields the rows that have a currency. *)
Example parse_user_data_samples :
  standard_headers_present headless_sheet = false /\
  parse_user_data sample_files "headless.xlsx" =
    Raised (mkExn "ValueError"
      "The Standard section (Columns E-G) is missing required headers: 'Currency', 'Username', 'Postfix'.") /\
  parse_user_data sample_files "users.xlsx" =
    Returned ([usd_user; eur_user],
              [gbp_user; mkUser (Some "SEK") (Some "player") (Some "08")]).
Proof. vm_compute. repeat split; reflexivity. Qed.

(* ================================================================== *)
(** * The calls of a provisioning sequence *)
(* ================================================================== *)

Lemma calls_app (t1 t2 : list event) : calls (t1 ++ t2) = calls t1 ++ calls t2.
Proof.
  induction t1 as [|e t1 IH]; simpl; [reflexivity|].
  destruct e; simpl; try exact IH. rewrite IH. reflexivity.
Qed.

Section Scripted.

Variable E : env.

Lemma scripted_silent {A} (m : M A) (a : A) :
  (forall s, result (m s) = Val a) -> (forall s, calls (log (m s)) = []) ->
  scripted m [].
Proof. intros Hr Hl s. left. exists a. auto. Qed.

Lemma scripted_ret {A} (a : A) : scripted (ret a) [].
Proof. intro s. left. exists a. auto. Qed.

Lemma scripted_raise {A} (e : exn) : scripted (@raise A e) [].
Proof. intro s. right. exists e, 0. auto. Qed.

Lemma scripted_get {A} (g : state -> A) : scripted (get g) [].
Proof. intro s. left. exists (g s). auto. Qed.

Lemma scripted_modify (g : state -> state) : scripted (modify g) [].
Proof. intro s. left. exists tt. auto. Qed.

Lemma scripted_record (e : event) : calls [e] = [] -> scripted (record e) [].
Proof. intros H s. left. exists tt. auto. Qed.

Lemma calls_emit (e : event) (s : state) :
  calls [e] = [] -> calls (log (emit E e s)) = [].
Proof.
  intros H. destruct (log_emit E e s) as [t [Ht [-> | ->]]]; rewrite Ht.
  - exact H.
  - simpl. exact H.
Qed.

Lemma scripted_emit (e : event) : calls [e] = [] -> scripted (emit E e) [].
Proof.
  intros H s. left. exists tt. split; [apply result_emit|].
  apply calls_emit, H.
Qed.

Lemma calls_playwright_call (c : call) (s : state) :
  calls (log (playwright_call E c s)) = [c].
Proof.
  unfold playwright_call, bind, step, record, log.
  destruct (stop_at E (clock s)); simpl;
    destruct (raised c (reply_at E (clock s))); reflexivity.
Qed.

Lemma scripted_playwright_call (c : call) : scripted (playwright_call E c) [c].
Proof.
  intro s. pose proof (result_playwright_call E c s) as Hr.
  destruct (raised c (reply_at E (clock s))) as [e|].
  - right. exists e, 1. split; [exact Hr|]. split; [simpl; lia|].
    apply calls_playwright_call.
  - left. exists tt. split; [exact Hr|]. apply calls_playwright_call.
Qed.

Lemma scripted_bind {A B} (m : M A) (k : A -> M B) (L1 L2 : list call) :
  scripted m L1 -> (forall a, scripted (k a) L2) -> scripted (bind m k) (L1 ++ L2).
Proof.
  intros Hm Hk s. rewrite result_bind, log_bind, calls_app.
  destruct (Hm s) as [[a [Hr Hc]] | [e [n [Hr [Hn Hc]]]]]; rewrite Hr, Hc.
  - destruct (Hk a (final (m s))) as [[b [Hr2 Hc2]] | [e [n [Hr2 [Hn Hc2]]]]];
      rewrite Hr2, Hc2.
    + left. exists b. auto.
    + right. exists e, (List.length L1 + n). split; [reflexivity|].
      split; [rewrite List.length_app; lia|].
      rewrite firstn_app_2. reflexivity.
  - right. exists e, n. split; [reflexivity|].
    split; [rewrite List.length_app; lia|].
    simpl. rewrite app_nil_r, firstn_app.
    replace (n - List.length L1) with 0 by lia.
    simpl. rewrite app_nil_r. reflexivity.
Qed.

Lemma scripted_if {A} (b : bool) (m1 m2 : M A) (L : list call) :
  scripted m1 L -> scripted m2 L -> scripted (if b then m1 else m2) L.
Proof. destruct b; auto. Qed.

Lemma scripted_weaken {A} (m : M A) (L L' : list call) :
  L = L' -> scripted m L -> scripted m L'.
Proof. intros ->. auto. Qed.

Lemma scripted_wait_for_page_to_settle :
  scripted (wait_for_page_to_settle E) [WaitForLoadStateIdle 30000].
Proof.
  unfold wait_for_page_to_settle, progress_callback.
  apply scripted_weaken with (L := [] ++ [] ++ [WaitForLoadStateIdle 30000] ++ []);
    [reflexivity|].
  apply scripted_bind; [apply scripted_record; reflexivity|]. intros _.
  apply scripted_bind; [apply scripted_emit; reflexivity|]. intros _.
  apply scripted_bind; [apply scripted_playwright_call|]. intros _.
  apply scripted_emit. reflexivity.
Qed.

End Scripted.

(** Walks through a straight-line block, one statement at a time. *)
Ltac scripted_tac :=
  repeat first
    [ apply scripted_emit; reflexivity
    | apply scripted_playwright_call
    | apply scripted_wait_for_page_to_settle
    | apply scripted_record; reflexivity
    | apply scripted_ret
    | apply scripted_bind with (L1 := @nil call);
      [ solve [ apply scripted_emit; reflexivity
              | apply scripted_record; reflexivity
              | apply scripted_get
              | apply scripted_modify
              | apply scripted_if; [apply scripted_raise | apply scripted_ret] ]
      | intro ]
    | eapply scripted_bind with (L1 := [_]);
      [ solve [ apply scripted_playwright_call
              | apply scripted_wait_for_page_to_settle ]
      | intro ] ].

Section ScriptedDriver.

Variable E : env.

Lemma scripted_create_standard_user (url : string) (u : UserRecord) (pw : string) :
  scripted (create_standard_user E url u pw) (provisioning_script url u pw).
Proof.
  unfold create_standard_user, create_steps, progress_callback,
    provisioning_script, username_of, currency_code_of.
  scripted_tac.
Qed.

End ScriptedDriver.

Lemma bind_get {A B} (g : state -> A) (k : A -> M B) (s : state) :
  bind (get g) k s = k (g s) s.
Proof. unfold bind, get. destruct (k (g s) s) as [[r s2] t2]. reflexivity. Qed.

Lemma bind_ret {A B} (a : A) (k : A -> M B) (s : state) :
  bind (ret a) k s = k a s.
Proof. unfold bind, ret. destruct (k a s) as [[r s2] t2]. reflexivity. Qed.

Lemma bind_record {B} (e : event) (k : unit -> M B) (s : state) :
  bind (record e) k s = (result (k tt s), final (k tt s), e :: log (k tt s)).
Proof. unfold bind, record. destruct (k tt s) as [[r s2] t2]. reflexivity. Qed.

Lemma bind_raise {A B} (e : exn) (k : A -> M B) (s : state) :
  bind (raise e) k s = (Exc e, s, []).
Proof. reflexivity. Qed.

Section FailsAtCall.

Variable E : env.

Lemma fails_ret {A} (a : A) : fails_at_call E (ret a).
Proof. intros s e H. discriminate. Qed.

Lemma fails_get {A} (g : state -> A) : fails_at_call E (get g).
Proof. intros s e H. discriminate. Qed.

Lemma fails_record (x : event) : fails_at_call E (record x).
Proof. intros s e H. discriminate. Qed.

Lemma fails_emit (x : event) : fails_at_call E (emit E x).
Proof. intros s e H. rewrite result_emit in H. discriminate. Qed.

Lemma fails_playwright_call (c : call) : fails_at_call E (playwright_call E c).
Proof.
  intros s e. unfold playwright_call, bind, step, record, result, log, final.
  destruct (stop_at E (clock s)); simpl;
    destruct (raised c (reply_at E (clock s))) as [e'|] eqn:Hr; simpl;
    intros H; inversion H; subst.
  - exists [Invoke m_stop; Progress "Stopping process..."], c, (clock s). auto.
  - exists [], c, (clock s). auto.
Qed.

Lemma fails_bind {A B} (m : M A) (k : A -> M B) :
  fails_at_call E m -> (forall a, fails_at_call E (k a)) ->
  fails_at_call E (bind m k).
Proof.
  intros Hm Hk s e. rewrite result_bind, log_bind, final_bind.
  destruct (result (m s)) as [a| | |e'] eqn:Hr; try discriminate.
  - intros H. destruct (Hk a _ e H) as [t [c [n [Hl Hc]]]].
    exists (log (m s) ++ t), c, n. rewrite Hl, app_assoc. auto.
  - intros H. inversion H; subst. rewrite app_nil_r. apply Hm, Hr.
Qed.

End FailsAtCall.

Ltac fails_tac :=
  repeat first
    [ apply fails_ret | apply fails_get | apply fails_record
    | apply fails_emit | apply fails_playwright_call
    | apply fails_bind; [|intro] ].

Section FailFast.

Variable E : env.

(** On a driver without a page the provisioning sequence raises at once. *)
Lemma create_standard_user_not_launched (url : string) (u : UserRecord)
      (pw : string) (s : state) :
  page s = false ->
  create_standard_user E url u pw s =
  (Exc (mkExn "Exception" "Browser is not launched."), s,
   [Invoke (m_create_standard_user url u pw)]).
Proof.
  intros Hp. unfold create_standard_user. rewrite bind_record.
  unfold create_steps. rewrite bind_get, Hp. reflexivity.
Qed.

(** On a launched driver, a provisioning sequence that raises has just
    issued the call that raised. *)
Lemma create_standard_user_fails_at_call (url : string) (u : UserRecord)
      (pw : string) (s : state) (e : exn) :
  page s = true ->
  result (create_standard_user E url u pw s) = Exc e ->
  exists t c k, log (create_standard_user E url u pw s) = t ++ [Browser c] /\
                raised c (reply_at E k) = Some e /\
                clock (final (create_standard_user E url u pw s)) = S k.
Proof.
  intros Hp. unfold create_standard_user. rewrite bind_record.
  unfold create_steps. rewrite bind_get, Hp. simpl negb. cbv iota.
  rewrite bind_ret.
  match goal with
  | |- result (result (?R s), _, _) = _ -> _ =>
      assert (HR : fails_at_call E R)
        by (unfold progress_callback, wait_for_page_to_settle; fails_tac)
  end.
  intros He. destruct (HR s e He) as [t [c [k [Hl [Hc Hk]]]]].
  exists (Invoke (m_create_standard_user url u pw) :: t), c, k.
  split; [|split; [exact Hc|exact Hk]].
  rewrite <- app_comm_cons. unfold log at 1. simpl snd.
  f_equal. exact Hl.
Qed.

End FailFast.

(* ================================================================== *)
(** * The calls of the login sequence *)
(* ================================================================== *)

Section ScriptedLogin.

Variable E : env.

Lemma scripted_login_steps (url em pw : string) :
  scripted (login_steps E url em pw) (login_script url em pw).
Proof. unfold login_steps, progress_callback, login_script. scripted_tac. Qed.

Lemma scripted_mfa_selection : scripted (mfa_selection E) mfa_script.
Proof. unfold mfa_selection, progress_callback, mfa_script. scripted_tac. Qed.

Lemma calls_progress_callback (line : string) (s : state) :
  calls (log (progress_callback E line s)) = [].
Proof. apply calls_emit. reflexivity. Qed.

(** The detection block issues an initial segment of its three calls. *)
Lemma calls_mfa_detection (s : state) :
  exists k, k <= 3 /\ calls (log (mfa_detection E s)) = firstn k mfa_script.
Proof.
  unfold mfa_detection. rewrite log_try_except, calls_app.
  destruct (scripted_mfa_selection s) as [[a [Hr Hc]] | [e [n [Hr [Hn Hc]]]]];
    rewrite Hr, Hc.
  - exists 3. split; [lia|]. reflexivity.
  - exists n. split; [exact Hn|].
    rewrite calls_progress_callback, app_nil_r. reflexivity.
Qed.

Lemma calls_bind {A B} (m : M A) (k : A -> M B) (s : state) :
  calls (log (bind m k s)) =
  calls (log (m s)) ++ match result (m s) with
                       | Val a => calls (log (k a (final (m s))))
                       | _ => []
                       end.
Proof.
  rewrite log_bind, calls_app. destruct (result (m s)); reflexivity.
Qed.

Lemma calls_after_progress {B} (line : string) (k : unit -> M B) (s : state) :
  calls (log (bind (progress_callback E line) k s)) =
  calls (log (k tt (final (progress_callback E line s)))).
Proof.
  rewrite calls_bind, calls_progress_callback.
  unfold progress_callback. rewrite result_emit. reflexivity.
Qed.

(** The approval wait always issues its call. *)
Lemma calls_approval_wait (s : state) :
  calls (log (approval_wait E s)) = [WaitForUrlNotOkta 120000].
Proof.
  unfold approval_wait.
  rewrite !calls_after_progress, calls_bind, calls_playwright_call.
  destruct (result (playwright_call E (WaitForUrlNotOkta 120000) _));
    try reflexivity.
  rewrite calls_progress_callback. reflexivity.
Qed.

(** [login] raises within its first nine calls, or it issues them all, then
    an initial segment of the three calls of the detection block, then the
    approval wait. *)
Lemma calls_login (url em pw : string) (s : state) :
  (exists e n, result (login E url em pw s) = Exc e /\ n <= 9 /\
               calls (log (login E url em pw s)) =
                 firstn n (login_script url em pw)) \/
  (exists k, k <= 3 /\
             calls (log (login E url em pw s)) =
               login_script url em pw ++ firstn k mfa_script ++
               [WaitForUrlNotOkta 120000]).
Proof.
  unfold login. rewrite result_bind, calls_bind, result_record, final_record.
  rewrite log_record. change (calls [Invoke (m_login url em pw)]) with (@nil call).
  rewrite app_nil_l, result_bind, calls_bind.
  destruct (scripted_login_steps url em pw s)
    as [[a [Hr Hc]] | [e [n [Hr [Hn Hc]]]]]; rewrite Hr, Hc.
  - right. rewrite calls_bind.
    destruct (calls_mfa_detection (final (login_steps E url em pw s)))
      as [k [Hk Hm]].
    rewrite Hm, (mfa_detection_falls_through E).
    exists k. split; [exact Hk|]. rewrite calls_approval_wait. reflexivity.
  - left. exists e, n. split; [reflexivity|]. split; [exact Hn|].
    rewrite app_nil_r. reflexivity.
Qed.

End ScriptedLogin.

(* ================================================================== *)
(** * The success line, and the waits before the actions *)
(* ================================================================== *)

Lemma same_locator_eq (a b : locator) : same_locator a b = true <-> a = b.
Proof.
  split.
  - destruct a, b; simpl; intros H; try reflexivity; discriminate.
  - intros ->. apply Nat.eqb_refl.
Qed.

Lemma prefix_append (s t : string) : prefix s (s +++ t) = true.
Proof.
  induction s as [|a s IH]; simpl.
  - destruct t; reflexivity.
  - destruct (ascii_dec a a) as [_ | Hn]; [exact IH|congruence].
Qed.

Lemma existsb_none (p : event -> bool) (t : list event) :
  forallb (fun e => negb (p e)) t = true -> existsb p t = false.
Proof.
  induction t as [|e t IH]; simpl; [reflexivity|].
  intros H. apply andb_prop in H. destruct H as [He Ht].
  rewrite (IH Ht). destruct (p e); [discriminate|reflexivity].
Qed.

Lemma in_calls (c : call) (t : list event) : In (Browser c) t <-> In c (calls t).
Proof.
  induction t as [|e t IH]; simpl; [tauto|].
  destruct e as [l|m| |c'|me|b]; simpl;
    try (rewrite <- IH; split;
         [intros [H | H]; [discriminate|exact H] | intros H; right; exact H]).
  split; intros [H | H].
  - left. inversion H. reflexivity.
  - right. apply IH, H.
  - left. subst. reflexivity.
  - right. apply IH, H.
Qed.

Section Crowned.

Variable E : env.
Variable p : event -> bool.

Lemma crowned_emit (e : event) : p e = true -> crowned p (emit E e).
Proof.
  intros He s. rewrite result_emit.
  destruct (log_emit E e s) as [t [-> _]].
  rewrite existsb_app. simpl. rewrite He. apply orb_true_r.
Qed.

Lemma crowned_bind {A B} (m : M A) (k : A -> M B) :
  emits (fun e => negb (p e)) m -> (forall a, crowned p (k a)) ->
  crowned p (bind m k).
Proof.
  intros Hm Hk s. rewrite log_bind, result_bind, existsb_app.
  rewrite (existsb_none p _ (Hm s)).
  destruct (result (m s)) as [a| | |e]; simpl; [apply Hk|reflexivity..].
Qed.

End Crowned.

Section SuccessLine.

Variable E : env.

Lemma crowned_create_standard_user (url : string) (u : UserRecord) (pw : string) :
  crowned is_success_line (create_standard_user E url u pw).
Proof.
  unfold create_standard_user, create_steps, progress_callback.
  repeat (apply crowned_bind;
          [ solve [unfold wait_for_page_to_settle, progress_callback; emits_tac]
          | intro ]).
  apply crowned_emit. apply prefix_append.
Qed.

End SuccessLine.

(* ================================================================== *)
(** * The order of the account-creation sequences *)
(* ================================================================== *)

Lemma firstn_short {X} (n : nat) (l1 l2 : list X) :
  n <= List.length l1 -> firstn n (l1 ++ l2) = firstn n l1.
Proof.
  intros H. rewrite firstn_app. replace (n - List.length l1) with 0 by lia.
  simpl. apply app_nil_r.
Qed.

Section Orderly.

Variable E : env.

Lemma tracks_cleared {A} (m : M A) (s : state) :
  tracks m -> is_running s = false -> is_running (final (m s)) = false.
Proof. intros Hm Hs. rewrite (Hm s), Hs. reflexivity. Qed.

Lemma orderly_quiet {A} (m : M A) :
  emits not_create m -> tracks m -> orderly m [].
Proof.
  intros He Ht s. rewrite (attempts_none _ (He s)). split; [|split].
  - intros Hs. split; [reflexivity|]. apply tracks_cleared; assumption.
  - exists 0. auto.
  - reflexivity.
Qed.

Lemma orderly_bind {A B} (m : M A) (k : A -> M B) (us1 us2 : list UserRecord) :
  orderly m us1 -> (forall a, orderly (k a) us2) ->
  orderly (bind m k) (us1 ++ us2).
Proof.
  intros Hm Hk s. destruct (Hm s) as [Hm1 [[n [Hn Hm2]] Hm3]].
  rewrite log_bind, result_bind, final_bind, attempts_app.
  destruct (result (m s)) as [a| | |e] eqn:Hr.
  - destruct (Hk a (final (m s))) as [Hk1 [[n2 [Hn2 Hk2]] Hk3]].
    split; [|split].
    + intros Hs. destruct (Hm1 Hs) as [Ha Hf]. destruct (Hk1 Hf) as [Ha2 Hf2].
      rewrite Ha, Ha2. auto.
    + destruct (is_running (final (m s))) eqn:Hf.
      * rewrite (Hm3 a eq_refl eq_refl), Hk2.
        exists (List.length us1 + n2). split.
        -- rewrite List.length_app. lia.
        -- rewrite firstn_app_2. reflexivity.
      * destruct (Hk1 eq_refl) as [Ha2 _]. rewrite Ha2, app_nil_r, Hm2.
        exists n. split.
        -- rewrite List.length_app. lia.
        -- rewrite firstn_short by exact Hn. reflexivity.
    + intros b Hb Hfin. destruct (is_running (final (m s))) eqn:Hf.
      * rewrite (Hm3 a eq_refl eq_refl), (Hk3 b Hb Hfin). reflexivity.
      * destruct (Hk1 eq_refl) as [_ Hf2]. congruence.
  - rewrite app_nil_r. split; [exact Hm1|]. split; [|discriminate].
    exists n. split; [rewrite List.length_app; lia|].
    rewrite firstn_short by exact Hn. exact Hm2.
  - rewrite app_nil_r. split; [exact Hm1|]. split; [|discriminate].
    exists n. split; [rewrite List.length_app; lia|].
    rewrite firstn_short by exact Hn. exact Hm2.
  - rewrite app_nil_r. split; [exact Hm1|]. split; [|discriminate].
    exists n. split; [rewrite List.length_app; lia|].
    rewrite firstn_short by exact Hn. exact Hm2.
Qed.

Lemma orderly_weaken {A} (m : M A) (us vs : list UserRecord) :
  us = vs -> orderly m us -> orderly m vs.
Proof. intros ->. auto. Qed.

Lemma orderly_when (b : bool) (m : M unit) (us : list UserRecord) :
  orderly m us -> (b = false -> us = []) -> orderly (when b m) us.
Proof.
  intros Hm Hb. destruct b; [exact Hm|]. rewrite (Hb eq_refl).
  apply orderly_quiet; [apply emits_ret|apply tracks_ret].
Qed.

(** A block that is entered after the test of the flag. *)
Lemma orderly_after_check (m : M unit) (us : list UserRecord) :
  tracks m ->
  (forall s, is_running s = true ->
     (exists n, n <= List.length us /\ attempts (log (m s)) = firstn n us) /\
     (forall a, result (m s) = Val a -> is_running (final (m s)) = true ->
                attempts (log (m s)) = us)) ->
  orderly (bind (break_if_stopped E) (fun _ => m)) us.
Proof.
  intros Ht Hm s.
  rewrite log_bind, result_bind, final_bind, attempts_app.
  rewrite (attempts_none _ (break_if_stopped_not_create E s)).
  pose proof (@break_if_stopped_falls_through_live E s) as Hlive.
  pose proof (@break_if_stopped_breaks E s) as Hbrk.
  pose proof (tracks_break_if_stopped E s) as Htr.
  destruct (result (break_if_stopped E s)) as [a| | |e] eqn:Hr; simpl.
  - destruct (Hm _ (Hlive a eq_refl)) as [H2 H3]. split; [|split].
    + intros Hs. exfalso. exact (Hbrk a Hs eq_refl).
    + exact H2.
    + exact H3.
  - split; [|split]; [|exists 0; split; [lia|reflexivity]|discriminate].
    intros Hs. split; [reflexivity|]. rewrite Htr, Hs. reflexivity.
  - split; [|split]; [|exists 0; split; [lia|reflexivity]|discriminate].
    intros Hs. split; [reflexivity|]. rewrite Htr, Hs. reflexivity.
  - split; [|split]; [|exists 0; split; [lia|reflexivity]|discriminate].
    intros Hs. split; [reflexivity|]. rewrite Htr, Hs. reflexivity.
Qed.

Lemma orderly_for_each (body : UserRecord -> M unit) (us : list UserRecord) :
  (forall u, orderly (body u) [u]) ->
  (forall u s, result (body u s) = Brk -> is_running (final (body u s)) = false) ->
  orderly (for_each us body) us.
Proof.
  intros Hb Hbrk. induction us as [|u us' IH]; intros s.
  - simpl. split; [auto|]. split; [exists 0; auto|reflexivity].
  - destruct (Hb u s) as [H1 [[n [Hn H2]] H3]].
    pose proof (Hbrk u s) as H4.
    assert (Hpre : firstn n [u] = firstn n (u :: us')).
    { destruct n as [|[|n]]; try reflexivity. simpl in Hn. lia. }
    simpl. destruct (body u s) as [[r s1] t1].
    unfold result, final, log in *. simpl in *.
    destruct r as [a| | |e]; simpl.
    + destruct (IH s1) as [I1 [[n2 [Hn2 I2]] I3]].
      destruct (for_each us' body s1) as [[r2 s2] t2].
      unfold result, final, log in *. simpl in *. rewrite attempts_app.
      split; [|split].
      * intros Hs. destruct (H1 Hs) as [Ha Hf]. destruct (I1 Hf) as [Ha2 Hf2].
        rewrite Ha, Ha2. auto.
      * destruct (is_running s1) eqn:Hf.
        -- rewrite (H3 a eq_refl eq_refl), I2. exists (S n2).
           split; [lia|reflexivity].
        -- destruct (I1 eq_refl) as [Ha2 _]. rewrite Ha2, app_nil_r, H2.
           exists n. split; [lia|exact Hpre].
      * intros b Hb2 Hfin. destruct (is_running s1) eqn:Hf.
        -- rewrite (H3 a eq_refl eq_refl), (I3 b Hb2 Hfin). reflexivity.
        -- destruct (I1 eq_refl) as [_ Hf2]. congruence.
    + split; [exact H1|]. split; [|discriminate].
      exists n. split; [lia|]. rewrite H2. exact Hpre.
    + split; [exact H1|]. split.
      * exists n. split; [lia|]. rewrite H2. exact Hpre.
      * intros b _ Hfin. rewrite (H4 eq_refl) in Hfin. discriminate.
    + split; [exact H1|]. split; [|discriminate].
      exists n. split; [lia|]. rewrite H2. exact Hpre.
Qed.

End Orderly.

(** A block followed by nothing. *)
Lemma bind_ret_right {A} (m1 : M A) (m2 : M unit) (s : state) :
  (m1 ;; m2 ;; ret tt) s = (m1 ;; m2) s.
Proof.
  unfold bind, ret. destruct (m1 s) as [[r1 s1] t1].
  destruct r1 as [a| | |e]; try reflexivity.
  destruct (m2 s1) as [[r2 s2] t2].
  destruct r2 as [[]| | |e]; simpl; rewrite ?app_nil_r; reflexivity.
Qed.

Section OrderlyRun.

Variable E : env.
Variable w : AutomationWorker.

Lemma plain_create_standard_user url u pw :
  plain (create_standard_user E url u pw).
Proof.
  unfold create_standard_user, create_steps, wait_for_page_to_settle,
    progress_callback.
  plain_tac.
Qed.

(** A test of the flag that breaks has read it cleared. *)
Lemma break_if_stopped_cleared (s : state) :
  result (break_if_stopped E s) = Brk ->
  is_running (final (break_if_stopped E s)) = false.
Proof.
  unfold break_if_stopped, bind.
  destruct (read_is_running_cases E s) as [[-> _] | [t [-> _]]]; simpl.
  - discriminate.
  - reflexivity.
Qed.

(** One iteration of a loop outside debug mode: the test of the flag, the
    sequence, and what follows it without starting another. *)
Lemma orderly_iteration (u : UserRecord) (rest : M unit) :
  tracks rest -> emits not_create rest ->
  orderly (break_if_stopped E ;;
           create_standard_user E (gtp_url w) u (user_password w) ;;
           rest) [u].
Proof.
  intros Ht He. apply orderly_after_check.
  - apply tracks_bind; [apply tracks_create_standard_user|]. intros _. exact Ht.
  - intros s _.
    assert (Ha : attempts (log ((create_standard_user E (gtp_url w) u
                                   (user_password w) ;; rest) s)) = [u]).
    { rewrite attempts_bind_right by (intros _; exact He).
      apply attempts_create_standard_user. }
    rewrite Ha. split; [exists 1; split; [simpl; lia|reflexivity]|reflexivity].
Qed.

Lemma iteration_break (u : UserRecord) (rest : M unit) (s : state) :
  (forall s', result (rest s') <> Brk) ->
  result ((break_if_stopped E ;;
           create_standard_user E (gtp_url w) u (user_password w) ;;
           rest) s) = Brk ->
  is_running (final ((break_if_stopped E ;;
                      create_standard_user E (gtp_url w) u (user_password w) ;;
                      rest) s)) = false.
Proof.
  intros Hrest. rewrite result_bind, final_bind.
  pose proof (break_if_stopped_cleared s) as Hb.
  destruct (result (break_if_stopped E s)) as [a| | |e]; try discriminate.
  - rewrite result_bind.
    pose proof (plain_create_standard_user (gtp_url w) u (user_password w)
                  (final (break_if_stopped E s))) as Hp.
    destruct (result (create_standard_user E _ _ _ _)) as [b| | |e];
      try discriminate; try contradiction.
    intros H. exfalso. exact (Hrest _ H).
  - intros _. apply Hb. reflexivity.
Qed.

Lemma orderly_standard_loop : orderly (standard_loop E w) (standard_users w).
Proof.
  unfold standard_loop. apply orderly_for_each.
  - intros u.
    assert (H : orderly (break_if_stopped E ;;
                         create_standard_user E (gtp_url w) u (user_password w) ;;
                         ret tt) [u])
      by (apply orderly_iteration; [apply tracks_ret|apply emits_ret]).
    intros s. destruct (H s) as [H1 [H2 H3]].
    assert (Heq : (break_if_stopped E ;;
                   create_standard_user E (gtp_url w) u (user_password w) ;;
                   ret tt) s =
                  (break_if_stopped E ;;
                   create_standard_user E (gtp_url w) u (user_password w)) s)
      by apply bind_ret_right.
    rewrite <- Heq. auto.
  - intros u s.
    rewrite <- (bind_ret_right (break_if_stopped E)
                  (create_standard_user E (gtp_url w) u (user_password w)) s).
    apply iteration_break. discriminate.
Qed.

Hypothesis debug_off : debug_mode w = false.

Lemma orderly_lvc_loop : orderly (lvc_loop E w) (lvc_users w).
Proof.
  unfold lvc_loop. rewrite debug_off. apply orderly_for_each.
  - intros u. apply orderly_iteration; [apply tracks_ret|apply emits_ret].
  - intros u s. apply iteration_break. discriminate.
Qed.

Lemma orderly_standard_phase : orderly (standard_phase E w) (standard_users w).
Proof.
  unfold standard_phase. rewrite debug_off. simpl.
  apply orderly_weaken with (us := [] ++ [] ++ standard_users w);
    [reflexivity|].
  apply orderly_bind.
  - apply orderly_quiet; [unfold not_create; emits_tac|].
    apply tracks_return_if_stopped.
  - intros _. apply orderly_bind.
    + apply orderly_quiet; [unfold not_create; emits_tac|tracks_tac].
    + intros _. apply orderly_standard_loop.
Qed.

Lemma orderly_run_body :
  orderly (run_body E w) (lvc_users w ++ standard_users w).
Proof.
  unfold run_body.
  apply orderly_weaken
    with (us := [] ++ lvc_users w ++ standard_users w ++ []).
  { simpl. rewrite app_nil_r. reflexivity. }
  apply orderly_bind.
  { apply orderly_quiet; [apply prelude_not_create|apply tracks_prelude]. }
  intros _. apply orderly_bind; [apply orderly_lvc_loop|].
  intros _. apply orderly_bind; [apply orderly_standard_phase|].
  intros _. apply orderly_quiet.
  - apply announce_completion_not_create.
  - tracks_tac.
Qed.

End OrderlyRun.

(* ================================================================== *)
(** * The announcement of completion *)
(* ================================================================== *)

Lemma hushed_not_completion (e : event) :
  hushed e = true -> not_completion e = true.
Proof.
  destruct e as [line| | | | |]; simpl; try reflexivity.
  intros H. apply String.eqb_eq in H. subst line. reflexivity.
Qed.

Lemma announced_app (t1 t2 : list event) :
  announced (t1 ++ t2) = announced t1 || announced t2.
Proof. apply existsb_app. Qed.

Lemma not_announced (t : list event) :
  forallb not_completion t = true -> announced t = false.
Proof. apply existsb_none. Qed.

Lemma in_announced (t : list event) :
  In (Progress (Py.LF +++ "Automation complete!")) t -> announced t = true.
Proof.
  intros H. apply existsb_exists. exists (Progress (Py.LF +++ "Automation complete!")).
  split; [exact H|reflexivity].
Qed.

Lemma announced_bind {A B} (m : M A) (k : A -> M B) (s : state) :
  emits not_completion m ->
  announced (log (bind m k s)) = true ->
  exists a, result (m s) = Val a /\
            announced (log (k a (final (m s)))) = true.
Proof.
  intros Hm. rewrite log_bind, announced_app, (not_announced _ (Hm s)).
  destruct (result (m s)) as [a| | |e]; simpl; try discriminate.
  intros H. exists a. auto.
Qed.

Lemma mute_not_announced {A} (m : M A) (s : state) :
  mute m -> is_running s = false -> announced (log (m s)) = false.
Proof.
  intros Hm Hs. destruct (Hm s Hs) as [Hh _]. apply not_announced.
  revert Hh. apply forallb_weaken. exact hushed_not_completion.
Qed.

Section Completion.

Variable E : env.
Variable w : AutomationWorker.

Lemma prelude_not_completion : emits not_completion (prelude E w).
Proof. unfold not_completion. emits_tac. Qed.

Lemma lvc_loop_not_completion : emits not_completion (lvc_loop E w).
Proof. unfold not_completion. emits_tac. Qed.

Lemma standard_phase_not_completion : emits not_completion (standard_phase E w).
Proof. unfold not_completion. emits_tac. Qed.

Lemma report_error_not_completion (e : exn) :
  emits not_completion (report_error E e).
Proof. unfold not_completion. emits_tac. Qed.

Lemma release_not_completion : emits not_completion (release E).
Proof. unfold not_completion. emits_tac. Qed.

(** The announcement is made by the try block. *)
Lemma announced_trace :
  announced (trace E w) = announced (log (run_body E w started)).
Proof.
  rewrite trace_split, announced_app, log_guarded_body, announced_app.
  rewrite (not_announced _ (release_not_completion _)), orb_false_r.
  destruct (result (run_body E w started)) as [a| | |e];
    try apply orb_false_r.
  rewrite (not_announced _ (report_error_not_completion e _)).
  apply orb_false_r.
Qed.

(** The test of the flag at the head of an iteration falls through or
    breaks. *)
Lemma break_if_stopped_ends (s : state) :
  result (break_if_stopped E s) = Val tt \/ result (break_if_stopped E s) = Brk.
Proof.
  unfold break_if_stopped, bind.
  destruct (read_is_running_cases E s) as [[-> _] | [t [-> _]]]; simpl; auto.
Qed.

Lemma announce_completion_falls_through (s : state) :
  result (announce_completion E s) = Val tt.
Proof.
  unfold announce_completion. rewrite result_bind.
  destruct (read_is_running_cases E s) as [[-> _] | [t [-> _]]];
    unfold result at 1; simpl.
  - apply result_emit.
  - reflexivity.
Qed.

(** A loop whose first test of the flag breaks ends with the flag
    cleared. *)
Lemma lvc_loop_first_break (s : state) :
  lvc_users w <> [] ->
  result (break_if_stopped E s) = Brk ->
  is_running (final (lvc_loop E w s)) = false.
Proof.
  intros Hne Hb. pose proof (@break_if_stopped_cleared E s Hb) as Hc.
  unfold lvc_loop. destruct (lvc_users w) as [|u us]; [congruence|].
  cbn [for_each]. unfold bind at 1.
  destruct (break_if_stopped E s) as [[r s1] t1].
  unfold result, final in *. simpl in *. subst r. simpl. exact Hc.
Qed.

(** When the try block announces completion it has fallen through, and
    each of its loops has run to its end with the flag set. *)
Lemma announced_run_body (s : state) :
  is_running s = true ->
  announced (log (run_body E w s)) = true ->
  (exists a, result (run_body E w s) = Val a) /\
  attempts (log (run_body E w s)) =
    if debug_mode w then firstn 1 (lvc_users w)
    else lvc_users w ++ standard_users w.
Proof.
  intros Hs Ha. unfold run_body in *.
  destruct (@announced_bind _ _ _ _ _ prelude_not_completion Ha) as [a1 [Hr1 Ha1]].
  set (s1 := final (prelude E w s)) in *.
  assert (Hs1 : is_running s1 = true).
  { destruct (is_running s1) eqn:Hf; [reflexivity|].
    rewrite (@mute_not_announced _ _ s1 (@mute_from_lvc_loop E w) Hf) in Ha1.
    discriminate. }
  destruct (@announced_bind _ _ _ _ _ lvc_loop_not_completion Ha1) as [a2 [Hr2 Ha2]].
  set (s2 := final (lvc_loop E w s1)) in *.
  assert (Hs2 : is_running s2 = true).
  { destruct (is_running s2) eqn:Hf; [reflexivity|].
    assert (Hm : mute (standard_phase E w ;; announce_completion E)).
    { apply mute_bind; [apply mute_standard_phase|].
      intros _. apply mute_announce_completion. }
    rewrite (@mute_not_announced _ _ s2 Hm Hf) in Ha2. discriminate. }
  destruct (@announced_bind _ _ _ _ _ standard_phase_not_completion Ha2)
    as [a3 [Hr3 Ha3]].
  set (s3 := final (standard_phase E w s2)) in *.
  assert (Hs3 : is_running s3 = true).
  { destruct (is_running s3) eqn:Hf; [reflexivity|].
    rewrite (@mute_not_announced _ _ s3 (@mute_announce_completion E) Hf) in Ha3.
    discriminate. }
  split.
  - rewrite result_bind, Hr1. cbv beta iota. fold s1.
    rewrite result_bind, Hr2. cbv beta iota. fold s2.
    rewrite result_bind, Hr3. cbv beta iota.
    exists tt. apply announce_completion_falls_through.
  - rewrite (attempts_bind_left _ _ (@prelude_not_create E w)), Hr1.
    cbv beta iota. fold s1. rewrite log_bind, attempts_app, Hr2.
    cbv beta iota. fold s2.
    rewrite attempts_bind_right
      by (intros _; apply announce_completion_not_create).
    destruct (debug_mode w) eqn:Hd.
    + rewrite (@standard_phase_debug E w Hd). simpl. rewrite app_nil_r.
      rewrite (@lvc_loop_debug E w Hd s1).
      destruct (lvc_users w) as [|u us] eqn:Hl; [reflexivity|].
      destruct (break_if_stopped_ends s1) as [-> | Hb]; [reflexivity|].
      assert (Hne : lvc_users w <> []) by (rewrite Hl; discriminate).
      pose proof (lvc_loop_first_break s1 Hne Hb) as Hf.
      fold s2 in Hf. congruence.
    + destruct (@orderly_lvc_loop E w Hd s1) as [_ [_ H3]].
      rewrite (H3 a2 Hr2 Hs2).
      destruct (@orderly_standard_phase E w Hd s2) as [_ [_ I3]].
      rewrite (I3 a3 Hr3 Hs3). reflexivity.
Qed.

End Completion.

(* ================================================================== *)
(** * The report of an error, and what precedes a sequence *)
(* ================================================================== *)

Lemma count_cons_zero (q : event -> bool) (a : event) (l : list event) :
  count q (a :: l) = 0 -> q a = false /\ count q l = 0.
Proof.
  unfold count. simpl. destruct (q a); simpl; [discriminate|auto].
Qed.

(** A log splits in one way only at its first [q] event. *)
Lemma first_split_unique (q : event -> bool) (p1 p2 r1 r2 : list event)
      (x y : event) :
  count q p1 = 0 -> count q p2 = 0 -> q x = true -> q y = true ->
  p1 ++ x :: r1 = p2 ++ y :: r2 ->
  p1 = p2 /\ x = y /\ r1 = r2.
Proof.
  revert p2. induction p1 as [|a p1 IH]; intros [|b p2] H1 H2 Hx Hy Heq;
    simpl in Heq.
  - inversion Heq. auto.
  - inversion Heq. subst. apply count_cons_zero in H2. destruct H2. congruence.
  - inversion Heq. subst. apply count_cons_zero in H1. destruct H1. congruence.
  - inversion Heq. subst. apply count_cons_zero in H1. apply count_cons_zero in H2.
    destruct H1 as [_ H1]. destruct H2 as [_ H2].
    destruct (IH p2 H1 H2 Hx Hy H3) as [-> [-> ->]]. auto.
Qed.

(** What precedes the first [q] event of a log includes every initial
    segment without [q] events. *)
Lemma prefix_before (q : event -> bool) (L T pre post : list event) (x : event) :
  forallb (fun e => negb (q e)) L = true -> q x = true ->
  L ++ T = pre ++ x :: post ->
  exists pre', pre = L ++ pre'.
Proof.
  revert pre. induction L as [|a L IH]; intros pre HL Hx Heq.
  - exists pre. reflexivity.
  - simpl in HL. apply andb_prop in HL. destruct HL as [Ha HL].
    destruct pre as [|b pre]; simpl in Heq; inversion Heq; subst.
    + rewrite Hx in Ha. discriminate.
    + destruct (IH pre HL Hx H1) as [pre' ->]. exists pre'. reflexivity.
Qed.

Section Reaches.

Variable E : env.
Variable x : event.

Lemma reaches_emit : reaches x (emit E x).
Proof. intros s a _. apply in_log_emit. Qed.

Lemma reaches_here {A B} (m : M A) (k : A -> M B) :
  reaches x m -> reaches x (bind m k).
Proof.
  intros Hm s b. rewrite result_bind, log_bind.
  destruct (result (m s)) as [a| | |e] eqn:Hr; try discriminate.
  intros _. apply in_or_app. left. apply (Hm s a Hr).
Qed.

Lemma reaches_later {A B} (m : M A) (k : A -> M B) :
  (forall a, reaches x (k a)) -> reaches x (bind m k).
Proof.
  intros Hk s b. rewrite result_bind, log_bind.
  destruct (result (m s)) as [a| | |e] eqn:Hr; try discriminate.
  intros H. apply in_or_app. right. apply (Hk a _ b H).
Qed.

End Reaches.

Lemma reaches_playwright_call (E : env) (c : call) :
  reaches (Browser c) (playwright_call E c).
Proof.
  intros s a _. apply in_calls. rewrite calls_playwright_call. simpl. auto.
Qed.

(** Looks for the statement of a straight-line block that logs the
    event. *)
Ltac reaches_tac :=
  first [ apply reaches_emit
        | apply reaches_playwright_call
        | apply reaches_later; intro; reaches_tac
        | apply reaches_here; reaches_tac ].

Section Report.

Variable E : env.
Variable w : AutomationWorker.

(** The log of the except clause: the line, then the signal, with at most
    what a [stop] adds before each. *)
Lemma report_error_log (e : exn) (s : state) :
  exists t1 t2,
    log (report_error E e s) =
      t1 ++ Progress ("[ERROR] " +++ full_error_message e) :: t2 ++
      [AutomationError (full_error_message e)] /\
    count is_error t1 = 0 /\ count is_error t2 = 0.
Proof.
  unfold report_error. rewrite log_bind.
  destruct (total_emit E (Progress ("[ERROR] " +++ full_error_message e)) s)
    as [[] Hv].
  rewrite Hv.
  destruct (log_emit E (Progress ("[ERROR] " +++ full_error_message e)) s)
    as [t1 [H1 S1]].
  destruct (log_emit E (AutomationError (full_error_message e))
              (final (emit E (Progress ("[ERROR] " +++ full_error_message e)) s)))
    as [t2 [H2 S2]].
  exists t1, t2. rewrite H1, H2, <- app_assoc. split; [reflexivity|].
  split.
  - exact (stop_log_count is_error eq_refl eq_refl S1).
  - exact (stop_log_count is_error eq_refl eq_refl S2).
Qed.

Lemma count_error_event (msg : string) (pre post : list event) :
  count is_error (pre ++ AutomationError msg :: post) =
  S (count is_error pre + count is_error post).
Proof.
  rewrite count_app. unfold count. simpl. lia.
Qed.

(** The error signal of a run is the one of the except clause, and the
    finally clause follows it. *)
Lemma error_signal_position (pre post : list event) (msg : string) :
  trace E w = pre ++ AutomationError msg :: post ->
  exists e,
    result (run_body E w started) = Exc e /\
    msg = full_error_message e /\
    In (Progress ("[ERROR] " +++ msg)) pre /\
    post = log (release E (final (guarded_body E w started))).
Proof.
  intros Ht.
  pose proof (errors_trace E w) as Hc. rewrite Ht, count_error_event in Hc.
  pose proof (trace_split E w) as Hs. rewrite Ht, log_guarded_body in Hs.
  destruct (result (run_body E w started)) as [a| | |e]; try discriminate.
  exists e. split; [reflexivity|].
  destruct (report_error_log e (final (run_body E w started)))
    as [t1 [t2 [Hl [H1 H2]]]].
  rewrite Hl in Hs.
  assert (Heq : pre ++ AutomationError msg :: post =
                (log (run_body E w started) ++ t1 ++
                 Progress ("[ERROR] " +++ full_error_message e) :: t2) ++
                AutomationError (full_error_message e) ::
                log (release E (final (guarded_body E w started)))).
  { rewrite Hs. repeat rewrite <- app_assoc. simpl.
    repeat rewrite <- app_assoc. reflexivity. }
  apply first_split_unique with (q := is_error) in Heq; try reflexivity.
  - destruct Heq as [Hpre [Hx Hpost]]. inversion Hx. subst msg.
    split; [reflexivity|]. split; [|exact Hpost].
    rewrite Hpre. apply in_or_app. right. apply in_or_app. right.
    left. reflexivity.
  - lia.
  - rewrite !count_app, run_body_no_error, H1.
    change (count is_error (Progress ("[ERROR] " +++ full_error_message e) :: t2))
      with (count is_error t2).
    rewrite H2. reflexivity.
Qed.

(** ** What precedes a sequence *)

Lemma prelude_launches :
  reaches (Browser NewPage) (prelude E w).
Proof. unfold prelude, launch. reaches_tac. Qed.

Lemma prelude_logs_in :
  reaches (Progress "MFA approved. Login successful!") (prelude E w).
Proof.
  unfold prelude, login, approval_wait, progress_callback. reaches_tac.
Qed.

Lemma prelude_settles :
  reaches (Progress "Page has settled.") (prelude E w).
Proof.
  unfold prelude, wait_for_page_to_settle, progress_callback. reaches_tac.
Qed.

(** A run that starts a sequence has gone through the whole of lines 229
    to 243, and the log of these lines precedes the sequence. *)
Lemma sequence_after_prelude (pre post : list event) (url pw : string)
      (u : UserRecord) :
  trace E w = pre ++ Invoke (m_create_standard_user url u pw) :: post ->
  (exists a, result (prelude E w started) = Val a) /\
  exists pre', pre = log (prelude E w started) ++ pre'.
Proof.
  intros Ht.
  assert (Hr : exists a, result (prelude E w started) = Val a).
  { pose proof (attempts_trace E w) as Ha. rewrite Ht, attempts_app in Ha.
    simpl in Ha. unfold run_body in Ha.
    rewrite (attempts_bind_left _ _ (@prelude_not_create E w)) in Ha.
    destruct (result (prelude E w started)) as [a| | |e];
      [exists a; reflexivity|..];
      simpl in Ha; destruct (attempts pre); discriminate. }
  split; [exact Hr|].
  pose proof (trace_split E w) as Hs.
  rewrite Ht, log_guarded_body in Hs. unfold run_body in Hs at 1.
  rewrite log_bind, <- !app_assoc in Hs. symmetry in Hs.
  apply prefix_before with (q := is_create) in Hs; [exact Hs| |reflexivity].
  apply prelude_not_create.
Qed.

Lemma run_is_genuine : forallb (genuine w) (trace E w) = true.
Proof.
  assert (H : emits (genuine w) (run E w)).
  { unfold run, run_body, lvc_loop, standard_phase, standard_loop,
      create_standard_user.
    apply emits_def. apply emits_bind; [apply emits_modify|]. intros _.
    apply emits_try_finally;
      emits_with ltac:(first [ reflexivity
                             | simpl; rewrite !String.eqb_refl; reflexivity ]). }
  apply H.
Qed.

(** The sequences a run starts are those of an initial segment of its
    records. *)
Lemma attempts_trace_segment :
  exists n,
    n <= List.length (lvc_users w ++ standard_users w) /\
    attempts (trace E w) = firstn n (lvc_users w ++ standard_users w).
Proof.
  rewrite attempts_trace. destruct (debug_mode w) eqn:Hd.
  - rewrite (@run_body_debug_attempts E w Hd started).
    destruct (result (prelude E w started));
      try (exists 0; split; [lia|reflexivity]).
    rewrite (@lvc_loop_debug E w Hd _).
    destruct (lvc_users w) as [|u us];
      [exists 0; split; [lia|reflexivity]|].
    destruct (result (break_if_stopped E _)).
    + exists 1. split; [simpl; lia|reflexivity].
    + exists 0. split; [lia|reflexivity].
    + exists 0. split; [lia|reflexivity].
    + exists 0. split; [lia|reflexivity].
  - destruct (@orderly_run_body E w Hd started) as [_ [H _]]. exact H.
Qed.

End Report.

Lemma in_firstn {X} (x : X) (n : nat) (l : list X) :
  In x (firstn n l) -> In x l.
Proof.
  revert l. induction n as [|n IH]; intros [|a l]; simpl; try tauto.
  intros [H | H]; [left; exact H|right; apply IH, H].
Qed.

Section FlagOfRun.

Variable E : env.
Variable w : AutomationWorker.

Lemma tracks_run : tracks (run E w).
Proof. unfold run. tracks_tac. Qed.

End FlagOfRun.

(* ================================================================== *)
(** * What a run opens and what it closes *)
(* ================================================================== *)


Section Acquires.

Variable E : env.
Variable f : state -> bool.
Variable q : event -> bool.





End Acquires.


Section AcquiresRun.

Variable E : env.
Variable w : AutomationWorker.









End AcquiresRun.

(* ================================================================== *)
(** * Where the exception of a run comes from *)
(* ================================================================== *)

Section FailsFrom.

Variable E : env.

Lemma fails_return {A} : fails_at_call E (@return_ A).
Proof. intros s e H. discriminate. Qed.

Lemma fails_break {A} : fails_at_call E (@break A).
Proof. intros s e H. discriminate. Qed.

Lemma fails_modify (g : state -> state) : fails_at_call E (modify g).
Proof. intros s e H. discriminate. Qed.

Lemma fails_step : fails_at_call E (step E).
Proof.
  intros s e. unfold step. destruct (stop_at E (clock s)); discriminate.
Qed.

Lemma fails_if {A} (b : bool) (m1 m2 : M A) :
  fails_at_call E m1 -> fails_at_call E m2 ->
  fails_at_call E (if b then m1 else m2).
Proof. destruct b; auto. Qed.

Lemma fails_when (b : bool) (m : M unit) :
  fails_at_call E m -> fails_at_call E (when b m).
Proof. intros H. destruct b; [exact H|apply fails_ret]. Qed.

Lemma fails_from_bind {A B} (m : M A) (k : A -> M B) (s : state) :
  fails_from E m s ->
  (forall a, result (m s) = Val a -> fails_from E (k a) (final (m s))) ->
  fails_from E (bind m k) s.
Proof.
  intros Hm Hk e. rewrite result_bind, log_bind, final_bind.
  destruct (result (m s)) as [a| | |e'] eqn:Hr; try discriminate.
  - intros H. destruct (Hk a eq_refl e H) as [t [c [n [Hl Hc]]]].
    exists (log (m s) ++ t), c, n. rewrite Hl, app_assoc. auto.
  - intros H. inversion H; subst. rewrite app_nil_r. apply Hm, Hr.
Qed.

Lemma fails_from_of {A} (m : M A) (s : state) :
  fails_at_call E m -> fails_from E m s.
Proof. intros H. exact (H s). Qed.

Lemma fails_launched_of {A} (m : M A) :
  fails_at_call E m -> fails_launched E m.
Proof. intros H s _. exact (H s). Qed.

Lemma fails_launched_bind {A B} (m : M A) (k : A -> M B) :
  fails_launched E m -> keeps page m -> (forall a, fails_launched E (k a)) ->
  fails_launched E (bind m k).
Proof.
  intros Hm Hp Hk s Hs. apply fails_from_bind; [apply Hm, Hs|].
  intros a _. apply Hk. rewrite (Hp s). exact Hs.
Qed.

Lemma fails_launched_when (b : bool) (m : M unit) :
  fails_launched E m -> fails_launched E (when b m).
Proof.
  intros H. destruct b; [exact H|]. apply fails_launched_of, fails_ret.
Qed.

Lemma fails_launched_for_each {X} (xs : list X) (body : X -> M unit) :
  (forall x, fails_launched E (body x)) -> (forall x, keeps page (body x)) ->
  fails_launched E (for_each xs body).
Proof.
  intros Hb Hk. induction xs as [|x xs IH]; intros s Hs e.
  - discriminate.
  - simpl. pose proof (Hb x s Hs) as Hx. pose proof (Hk x s) as Hkx.
    unfold fails_from in Hx.
    destruct (body x s) as [[r s1] t1]. unfold result, final, log in *.
    simpl in *. destruct r as [a| | |e']; simpl; try discriminate.
    + assert (Hs1 : page s1 = true) by congruence.
      pose proof (IH s1 Hs1) as Hr. unfold fails_from in Hr.
      destruct (for_each xs body s1) as [[r2 s2] t2].
      unfold result, final, log in *. simpl in *.
      intros H. destruct (Hr e H) as [t [c [n [Hl Hc]]]].
      exists (t1 ++ t), c, n. rewrite Hl, app_assoc. auto.
    + intros H. apply Hx. exact H.
Qed.

(** The guard of lines 40 and 98 on a driver with a page. *)
Lemma fails_launched_guard {A} (e : exn) (rest : M A) :
  fails_at_call E rest ->
  fails_launched E (p <- get page ;;
                    (if negb p then raise e else ret tt) ;; rest).
Proof.
  intros Hr s Hs. unfold fails_from.
  rewrite bind_get, Hs. simpl negb. cbv iota. rewrite bind_ret.
  exact (Hr s).
Qed.

Lemma launches_later {A B} (m : M A) (k : A -> M B) :
  (forall a, launches (k a)) -> launches (bind m k).
Proof.
  intros Hk s b. rewrite result_bind, final_bind.
  destruct (result (m s)) as [a| | |e]; try discriminate.
  apply Hk.
Qed.

Lemma launches_then_keeps {A B} (m : M A) (k : A -> M B) :
  launches m -> (forall a, keeps page (k a)) -> launches (bind m k).
Proof.
  intros Hm Hk s b. rewrite result_bind, final_bind.
  destruct (result (m s)) as [a| | |e] eqn:Hr; try discriminate.
  intros _. rewrite (Hk a). apply (Hm s a Hr).
Qed.

Lemma launches_set {B} (k : M B) :
  keeps page k -> launches (modify (set_page true) ;; k).
Proof.
  intros Hk s b _. rewrite final_bind. simpl. rewrite (Hk _). reflexivity.
Qed.

End FailsFrom.

(** Walks through a block that raises at browser calls only. *)
Ltac fails_all_tac :=
  repeat first
    [ apply fails_ret | apply fails_get | apply fails_record
    | apply fails_return | apply fails_break | apply fails_modify
    | apply fails_step
    | apply fails_emit | apply fails_playwright_call
    | apply fails_if | apply fails_when
    | apply fails_bind; [|intro] ].

Section Origin.

Variable E : env.
Variable w : AutomationWorker.

Lemma fails_return_if_stopped : fails_at_call E (return_if_stopped E).
Proof. unfold return_if_stopped, read_is_running. fails_all_tac. Qed.

Lemma fails_break_if_stopped : fails_at_call E (break_if_stopped E).
Proof. unfold break_if_stopped, read_is_running. fails_all_tac. Qed.

Lemma fails_launch : fails_at_call E (launch E).
Proof. unfold launch, progress_callback. fails_all_tac. Qed.

Lemma fails_wait_for_page_to_settle :
  fails_at_call E (wait_for_page_to_settle E).
Proof. unfold wait_for_page_to_settle, progress_callback. fails_all_tac. Qed.

Lemma fails_mfa_detection : fails_at_call E (mfa_detection E).
Proof.
  intros s e H. rewrite mfa_detection_falls_through in H. discriminate.
Qed.

Lemma fails_launched_login (url em pw : string) :
  fails_launched E (login E url em pw).
Proof.
  unfold login.
  apply fails_launched_bind;
    [apply fails_launched_of, fails_record|keeps_tac|]. intros _.
  apply fails_launched_bind.
  - unfold login_steps. apply fails_launched_guard.
    unfold progress_callback. fails_all_tac.
  - unfold login_steps, progress_callback. keeps_tac.
  - intros _. apply fails_launched_of.
    apply fails_bind; [apply fails_mfa_detection|]. intros _.
    unfold approval_wait, progress_callback. fails_all_tac.
Qed.

Lemma fails_launched_create_standard_user (url : string) (u : UserRecord)
      (pw : string) :
  fails_launched E (create_standard_user E url u pw).
Proof.
  intros s Hs e He.
  exact (@create_standard_user_fails_at_call E url u pw s e Hs He).
Qed.

Lemma keeps_page_create_standard_user (url : string) (u : UserRecord)
      (pw : string) :
  keeps page (create_standard_user E url u pw).
Proof.
  unfold create_standard_user, create_steps, wait_for_page_to_settle,
    progress_callback.
  keeps_tac.
Qed.

Lemma keeps_page_login (url em pw : string) : keeps page (login E url em pw).
Proof.
  unfold login, login_steps, mfa_detection, mfa_selection, approval_wait,
    progress_callback.
  keeps_tac.
Qed.

Lemma launches_launch : launches (launch E).
Proof.
  unfold launch. do 7 (apply launches_later; intro).
  apply launches_set. unfold progress_callback. keeps_tac.
Qed.

Lemma launches_prelude : launches (prelude E w).
Proof.
  unfold prelude. do 3 (apply launches_later; intro).
  apply launches_then_keeps; [apply launches_launch|]. intro.
  unfold return_if_stopped, wait_for_page_to_settle, progress_callback.
  keeps_tac.
Qed.

Lemma fails_prelude (s : state) : fails_from E (prelude E w) s.
Proof.
  unfold prelude.
  apply fails_from_bind; [apply fails_from_of, fails_emit|]. intros _ _.
  apply fails_from_bind; [apply fails_from_of, fails_when, fails_emit|].
  intros _ _.
  apply fails_from_bind; [apply fails_from_of, fails_return_if_stopped|].
  intros _ _.
  apply fails_from_bind; [apply fails_from_of, fails_launch|]. intros a Hr.
  assert (Hrest : fails_launched E
            (return_if_stopped E ;;
             login E (gtp_url w) (email w) (password w) ;;
             return_if_stopped E ;;
             wait_for_page_to_settle E ;;
             return_if_stopped E ;;
             emit E (Progress (Py.LF +++ "Step 2: Processing LVC users...")))).
  { apply fails_launched_bind;
      [apply fails_launched_of, fails_return_if_stopped
      |unfold return_if_stopped; keeps_tac|]. intros _.
    apply fails_launched_bind;
      [apply fails_launched_login|apply keeps_page_login|]. intros _.
    apply fails_launched_of.
    apply fails_bind; [apply fails_return_if_stopped|]. intros _.
    apply fails_bind; [apply fails_wait_for_page_to_settle|]. intros _.
    apply fails_bind; [apply fails_return_if_stopped|]. intros _.
    apply fails_emit. }
  apply Hrest. exact (launches_launch _ Hr).
Qed.

Lemma fails_launched_iteration (u : UserRecord) (rest : M unit) :
  fails_at_call E rest ->
  fails_launched E (break_if_stopped E ;;
                    create_standard_user E (gtp_url w) u (user_password w) ;;
                    rest).
Proof.
  intros Hr.
  apply fails_launched_bind;
    [apply fails_launched_of, fails_break_if_stopped
    |unfold break_if_stopped; keeps_tac|]. intros _.
  apply fails_launched_bind;
    [apply fails_launched_create_standard_user
    |apply keeps_page_create_standard_user|]. intros _.
  apply fails_launched_of, Hr.
Qed.

Lemma keeps_page_iteration (u : UserRecord) (rest : M unit) :
  keeps page rest ->
  keeps page (break_if_stopped E ;;
              create_standard_user E (gtp_url w) u (user_password w) ;;
              rest).
Proof.
  intros Hr. apply keeps_bind; [unfold break_if_stopped; keeps_tac|].
  intros _. apply keeps_bind; [apply keeps_page_create_standard_user|].
  intros _. exact Hr.
Qed.

Lemma fails_launched_lvc_loop : fails_launched E (lvc_loop E w).
Proof.
  unfold lvc_loop. apply fails_launched_for_each; intros u.
  - apply fails_launched_iteration. fails_all_tac.
  - apply keeps_page_iteration. keeps_tac.
Qed.

Lemma keeps_page_lvc_loop : keeps page (lvc_loop E w).
Proof.
  unfold lvc_loop. apply keeps_for_each. intros u.
  apply keeps_page_iteration. keeps_tac.
Qed.

Lemma fails_launched_standard_loop : fails_launched E (standard_loop E w).
Proof.
  unfold standard_loop. apply fails_launched_for_each; intros u.
  - apply fails_launched_bind;
      [apply fails_launched_of, fails_break_if_stopped
      |unfold break_if_stopped; keeps_tac|]. intros _.
    apply fails_launched_create_standard_user.
  - apply keeps_bind; [unfold break_if_stopped; keeps_tac|].
    intros _. apply keeps_page_create_standard_user.
Qed.

Lemma keeps_page_standard_phase : keeps page (standard_phase E w).
Proof.
  unfold standard_phase, standard_loop. apply keeps_when.
  apply keeps_bind; [unfold return_if_stopped; keeps_tac|]. intros _.
  apply keeps_bind; [keeps_tac|]. intros _.
  apply keeps_for_each. intros u.
  apply keeps_bind; [unfold break_if_stopped; keeps_tac|].
  intros _. apply keeps_page_create_standard_user.
Qed.

Lemma fails_launched_standard_phase : fails_launched E (standard_phase E w).
Proof.
  unfold standard_phase. apply fails_launched_when.
  apply fails_launched_bind;
    [apply fails_launched_of, fails_return_if_stopped
    |unfold return_if_stopped; keeps_tac|]. intros _.
  apply fails_launched_bind;
    [apply fails_launched_of, fails_emit|keeps_tac|]. intros _.
  apply fails_launched_standard_loop.
Qed.

(** When the try block of [run] raises, the last thing it did is the
    browser call that raised the exception. *)
Lemma fails_run_body (s : state) : fails_from E (run_body E w) s.
Proof.
  unfold run_body.
  apply fails_from_bind; [apply fails_prelude|]. intros a Hr.
  assert (Hrest : fails_launched E
            (lvc_loop E w ;; standard_phase E w ;; announce_completion E)).
  { apply fails_launched_bind;
      [apply fails_launched_lvc_loop|apply keeps_page_lvc_loop|]. intros _.
    apply fails_launched_bind;
      [apply fails_launched_standard_phase|apply keeps_page_standard_phase|].
    intros _. apply fails_launched_of.
    unfold announce_completion, read_is_running. fails_all_tac. }
  apply Hrest. exact (launches_prelude _ Hr).
Qed.

Lemma report_error_teardown_only (e : exn) :
  emits teardown_only (report_error E e).
Proof. unfold report_error. emits_tac. Qed.

Lemma release_teardown_only : emits teardown_only (release E).
Proof. unfold release, close, close_steps, progress_callback. emits_tac. Qed.

End Origin.

Lemma teardown_only_calls (t : list event) (c : call) :
  forallb teardown_only t = true -> In c (calls t) ->
  c = BrowserClose \/ c = PlaywrightStop.
Proof.
  intros Ht Hin. apply in_calls in Hin.
  rewrite forallb_forall in Ht. specialize (Ht _ Hin).
  destruct c; simpl in Ht; try discriminate; auto.
Qed.

(* ================================================================== *)
(** * What the input files hand to the worker *)
(* ================================================================== *)





(** The records [parse_user_data] returns all have a currency. *)
Lemma parse_user_data_returned (fs : files) (path : string)
      (lvc standard : list UserRecord) :
  parse_user_data fs path = Returned (lvc, standard) ->
  forall u, In u (lvc ++ standard) -> Currency u <> None.
Proof.
  intros Hp.
  destruct (read_excel fs path) as [|d|sheets] eqn:Hopen;
    try (unfold parse_user_data in Hp; rewrite Hopen in Hp; discriminate).
  destruct (find_sheet "Sheet1" sheets) as [df|] eqn:Hfind;
    [|unfold parse_user_data in Hp; rewrite Hopen, Hfind in Hp; discriminate].
  destruct (lvc_headers_present df) eqn:Hl.
  2:{ destruct (@parse_user_data_missing_headers fs path sheets df Hopen Hfind
                  (or_introl Hl)) as [e [He _]]. congruence. }
  destruct (standard_headers_present df) eqn:Hs.
  2:{ destruct (@parse_user_data_missing_headers fs path sheets df Hopen Hfind
                  (or_intror Hs)) as [e [He _]]. congruence. }
  rewrite (@parse_user_data_with_headers fs path sheets df Hopen Hfind Hl Hs)
    in Hp.
  inversion Hp; subst. intros u Hin. apply in_app_or in Hin.
  destruct Hin as [Hin | Hin].
  - apply (@records_have_currency (lvc_header df) (data_rows 0 df)); auto.
    pose proof (lvc_header_required df) as Hreq. rewrite Hl in Hreq.
    apply andb_prop in Hreq. destruct Hreq as [Hreq _].
    apply andb_prop in Hreq. tauto.
  - apply (@records_have_currency (header_row 4 df) (data_rows 4 df)); auto.
    unfold standard_headers_present in Hs.
    apply andb_prop in Hs. destruct Hs as [Hs _].
    apply andb_prop in Hs. tauto.
Qed.

(** The pre-flight returns what the two parsers return. *)
Lemma preflight_returned (fs : files) (f : form) (logged : list ui_event)
      (em pw : string) (lvc standard : list UserRecord) :
  preflight fs f = (logged, Returned (em, pw, (lvc, standard))) ->
  parse_credentials_file fs (cred_path f) = Returned (em, pw) /\
  parse_user_data fs (user_data_path f) = Returned (lvc, standard).
Proof.
  unfold preflight.
  destruct (parse_credentials_file fs (cred_path f)) as [[em' pw']|e1];
    [|discriminate].
  destruct (parse_user_data fs (user_data_path f)) as [[l st]|e2];
    [|discriminate].
  intros H. inversion H. auto.
Qed.

(* ================================================================== *)
(** * The main window: remembered files and the life cycle of a run *)
(* ================================================================== *)

Lemma config_get_set_same (k v : string) (c : config) :
  config_get k (config_set k v c) = Some v.
Proof.
  induction c as [|[k' v'] c IH]; simpl.
  - rewrite String.eqb_refl. reflexivity.
  - destruct (String.eqb k' k) eqn:Hk; simpl.
    + rewrite String.eqb_refl. reflexivity.
    + rewrite Hk. exact IH.
Qed.

Lemma config_get_set_other (k k2 v : string) (c : config) :
  String.eqb k k2 = false ->
  config_get k2 (config_set k v c) = config_get k2 c.
Proof.
  intros Hk. induction c as [|[k' v'] c IH]; simpl.
  - rewrite Hk. reflexivity.
  - destruct (String.eqb k' k) eqn:Hk'; simpl.
    + apply String.eqb_eq in Hk'. subst k'. rewrite Hk. reflexivity.
    + rewrite IH. reflexivity.
Qed.

(** The labels of a new window, key by key. *)
Lemma new_window_labels (d : disk) :
  cred_label (new_window d) = label_for "credentials_path" (load_config d) d /\
  user_file_label (new_window d) = label_for "user_data_path" (load_config d) d /\
  win_config (new_window d) = load_config d /\
  controls_enabled (new_window d) = true /\
  automation_thread (new_window d) = false.
Proof.
  unfold new_window, apply_config, remembered, label_for. simpl.
  destruct (config_get "credentials_path" (load_config d)) as [p|]; simpl.
  - destruct (negb (Py.is_empty p) && os_path_exists d p); simpl;
      destruct (config_get "user_data_path" (load_config d)) as [q|]; simpl;
      try (destruct (negb (Py.is_empty q) && os_path_exists d q); simpl);
      repeat split; reflexivity.
  - destruct (config_get "user_data_path" (load_config d)) as [q|]; simpl;
      try (destruct (negb (Py.is_empty q) && os_path_exists d q); simpl);
      repeat split; reflexivity.
Qed.

(** ** What the slots leave unchanged *)

Lemma show_keeps (e : ui_event) (w : window) :
  cred_label (show e w) = cred_label w /\
  user_file_label (show e w) = user_file_label w /\
  win_config (show e w) = win_config w.
Proof. destruct e; simpl; auto. Qed.










(* ================================================================== *)
(** * Further properties of the browser driver *)
(* ================================================================== *)

Lemma submission_in_segment (url : string) (u : UserRecord) (pw : string) (n : nat) :
  n <= 17 ->
  In (Click create_button_locator) (firstn n (provisioning_script url u pw)) ->
  exists post,
    firstn n (provisioning_script url u pw) =
      firstn 15 (provisioning_script url u pw) ++
      Click create_button_locator :: post /\
    ~ In (Click create_button_locator) post.
Proof.
  intros Hn.
  do 16 (destruct n as [|n];
         [ simpl; intros H;
           repeat (destruct H as [H | H]; [discriminate|]); contradiction |]).
  destruct n as [|n]; [|destruct n as [|n]; [|lia]]; intros _.
  - exists []. split; [reflexivity|]. simpl. tauto.
  - exists [ExpectVisible success_locator 30000]. split; [reflexivity|].
    simpl. intros [H | H]; [discriminate|exact H].
Qed.

(** X1. Whatever the browser answers and whenever [stop] is invoked, the
    browser calls of [create_standard_user] are those of lines 103 to 154
    in the order of the source: all seventeen when the sequence falls
    through, an initial segment of them when it raises.  The sequence ends
    in one of these two ways. *)
Theorem provisioning_calls_follow_the_script
    (E : env) (url : string) (u : UserRecord) (pw : string) (s : state) :
  (result (create_standard_user E url u pw s) = Val tt /\
   calls (log (create_standard_user E url u pw s)) =
     provisioning_script url u pw) \/
  (exists e n,
     result (create_standard_user E url u pw s) = Exc e /\ n <= 17 /\
     calls (log (create_standard_user E url u pw s)) =
       firstn n (provisioning_script url u pw)).
Proof.
  destruct (scripted_create_standard_user E url u pw s)
    as [[[] [Hr Hc]] | [e [n [Hr [Hn Hc]]]]].
  - left. auto.
  - right. exists e, n. auto.
Qed.

(** X2. The form is submitted at most once, and only after it has been
    filled in: when a provisioning sequence clicks the create button, the
    calls before the click include the filling of the username with
    Username followed by Postfix, the filling of the password and the
    selection of the currency, and no other click on the button comes
    before or after. *)
Theorem account_submitted_once_after_fields_are_set
    (E : env) (url : string) (u : UserRecord) (pw : string) (s : state) :
  In (Browser (Click create_button_locator))
     (log (create_standard_user E url u pw s)) ->
  exists pre post,
    calls (log (create_standard_user E url u pw s)) =
      pre ++ Click create_button_locator :: post /\
    In (Fill username_locator (str (Username u) +++ str (Postfix u))) pre /\
    In (Fill new_password_locator pw) pre /\
    In (SelectOption currency_locator (currency_code_of u)) pre /\
    ~ In (Click create_button_locator) pre /\
    ~ In (Click create_button_locator) post.
Proof.
  intros Hin. apply in_calls in Hin.
  assert (Hseg : exists n, n <= 17 /\
            calls (log (create_standard_user E url u pw s)) =
              firstn n (provisioning_script url u pw)).
  { destruct (scripted_create_standard_user E url u pw s)
      as [[a [_ Hc]] | [e [n [_ [Hn Hc]]]]].
    - exists 17. split; [lia|exact Hc].
    - exists n. split; [exact Hn|exact Hc]. }
  destruct Hseg as [n [Hn Hc]]. rewrite Hc in Hin.
  destruct (submission_in_segment url u pw Hn Hin) as [post [Hp Hno]].
  exists (firstn 15 (provisioning_script url u pw)), post.
  split; [rewrite Hc; exact Hp|].
  split; [simpl; auto 20|]. split; [simpl; auto 20|].
  split; [simpl; auto 20|]. split; [|exact Hno].
  simpl. intros H.
  repeat (destruct H as [H | H]; [discriminate|]). contradiction.
Qed.

(** A sequence for the first sample record in which the browser answers
    every call. *)
Lemma account_submitted_once_after_fields_are_set_witness :
  exists pre post,
    calls (log (create_standard_user calm "https://gtp" usd_user "snow" launched)) =
      pre ++ Click create_button_locator :: post /\
    In (Fill username_locator
          (str (Username usd_user) +++ str (Postfix usd_user))) pre /\
    In (Fill new_password_locator "snow") pre /\
    In (SelectOption currency_locator (currency_code_of usd_user)) pre /\
    ~ In (Click create_button_locator) pre /\
    ~ In (Click create_button_locator) post.
Proof.
  apply (@account_submitted_once_after_fields_are_set
           calm "https://gtp" usd_user "snow" launched).
  vm_compute. repeat (first [left; reflexivity | right]).
Defined.

(** X3. The line that reports the creation of the account is logged
    exactly when the sequence falls through, that is when every call has
    returned, the wait for the success message included. *)
Theorem success_line_iff_sequence_completed
    (E : env) (url : string) (u : UserRecord) (pw : string) (s : state) :
  existsb is_success_line (log (create_standard_user E url u pw s)) = true <->
  result (create_standard_user E url u pw s) = Val tt.
Proof.
  rewrite (crowned_create_standard_user E url u pw s).
  destruct (result (create_standard_user E url u pw s)) as [[]| | |e];
    split; intros H; try reflexivity; discriminate.
Qed.

(** X4. A provisioning sequence stops at the first call that fails.  When
    it raises on a driver without a page, it has issued no call and the
    exception is the one of line 99; when it raises on a driver with a
    page, the last event of its log is a browser call, issued at the last
    step [k] the sequence performed, and the exception is the one
    Playwright raises for the answer of the browser at that step. *)
Theorem provisioning_failure_stops_at_failing_call
    (E : env) (url : string) (u : UserRecord) (pw : string) (s : state)
    (e : exn) :
  result (create_standard_user E url u pw s) = Exc e ->
  (page s = false /\ e = mkExn "Exception" "Browser is not launched." /\
   calls (log (create_standard_user E url u pw s)) = []) \/
  (page s = true /\
   exists t c k,
     log (create_standard_user E url u pw s) = t ++ [Browser c] /\
     raised c (reply_at E k) = Some e /\
     clock (final (create_standard_user E url u pw s)) = S k).
Proof.
  intros He. destruct (page s) eqn:Hp.
  - right. split; [reflexivity|].
    apply (@create_standard_user_fails_at_call E url u pw s e Hp He).
  - left. split; [reflexivity|].
    rewrite (@create_standard_user_not_launched E url u pw s Hp) in *.
    unfold result, log in *. simpl in *. inversion He. auto.
Qed.

(** A sequence whose navigation to the form times out. *)
Lemma provisioning_failure_stops_at_failing_call_witness :
  (page launched = false /\
   mkExn "TimeoutError" "Timeout 60000ms exceeded." =
     mkExn "Exception" "Browser is not launched." /\
   calls (log (create_standard_user
                 (fail_at 8 (TimedOut "Timeout 60000ms exceeded."))
                 "https://gtp" usd_user "snow" launched)) = []) \/
  (page launched = true /\
   exists t c k,
     log (create_standard_user
            (fail_at 8 (TimedOut "Timeout 60000ms exceeded."))
            "https://gtp" usd_user "snow" launched) = t ++ [Browser c] /\
     raised c (reply_at (fail_at 8 (TimedOut "Timeout 60000ms exceeded.")) k) =
       Some (mkExn "TimeoutError" "Timeout 60000ms exceeded.") /\
     clock (final (create_standard_user
                     (fail_at 8 (TimedOut "Timeout 60000ms exceeded."))
                     "https://gtp" usd_user "snow" launched)) = S k).
Proof.
  apply (@provisioning_failure_stops_at_failing_call
           (fail_at 8 (TimedOut "Timeout 60000ms exceeded."))
           "https://gtp" usd_user "snow" launched).
  vm_compute. reflexivity.
Defined.

(** X5. Every element that [login] fills or clicks has been waited for:
    the call just before is the [expect] for that element to be visible.
    In [create_standard_user] the same holds of every element filled,
    clicked or selected but two, the entries picked in the market and in
    the product dropdown (lines 120 and 128), which are clicked right
    after the click that opens the dropdown; a sequence that falls through
    has clicked both. *)
Theorem actions_wait_for_their_element (E : env) :
  (forall url em pw s,
      unawaited (calls (log (login E url em pw s))) = []) /\
  (forall url u pw s,
      exists k,
        unawaited (calls (log (create_standard_user E url u pw s))) =
          firstn k [market_no_regulated; product_island_paradise]) /\
  (forall url u pw s,
      result (create_standard_user E url u pw s) = Val tt ->
      unawaited (calls (log (create_standard_user E url u pw s))) =
        [market_no_regulated; product_island_paradise]).
Proof.
  split; [|split].
  - intros url em pw s.
    destruct (calls_login E url em pw s)
      as [[e [n [_ [Hn ->]]]] | [k [Hk ->]]].
    + do 10 (destruct n as [|n]; [reflexivity|]). lia.
    + do 4 (destruct k as [|k]; [reflexivity|]). lia.
  - intros url u pw s.
    destruct (scripted_create_standard_user E url u pw s)
      as [[a [_ ->]] | [e [n [_ [Hn ->]]]]].
    + exists 2. reflexivity.
    + do 18 (destruct n as [|n];
             [first [exists 0; reflexivity | exists 1; reflexivity
                    | exists 2; reflexivity]|]).
      simpl in Hn. lia.
  - intros url u pw s Hr.
    destruct (scripted_create_standard_user E url u pw s)
      as [[a [_ ->]] | [e [n [He _]]]].
    + reflexivity.
    + congruence.
Qed.

(** X6. The browser calls of [login] follow the source.  Either [login]
    raises within the nine calls of lines 44 to 65 (the navigation, the
    email, the Next button, the password, the Verify button) having issued
    an initial segment of them; or it issues all nine, then an initial
    segment of the three calls of the detection block, then the wait for
    the approval.  So the password is entered only after the email has been
    submitted, and the approval is waited for only after the password has
    been submitted. *)
Theorem login_calls_follow_the_script
    (E : env) (url em pw : string) (s : state) :
  (exists e n, result (login E url em pw s) = Exc e /\ n <= 9 /\
               calls (log (login E url em pw s)) =
                 firstn n (login_script url em pw)) \/
  (exists k, k <= 3 /\
             calls (log (login E url em pw s)) =
               login_script url em pw ++ firstn k mfa_script ++
               [WaitForUrlNotOkta 120000]).
Proof. apply calls_login. Qed.

(* ================================================================== *)
(** * Further properties of the worker *)
(* ================================================================== *)

(** X7. In every run, whatever the browser answers, whenever [stop] is
    invoked and in either mode, the account-creation sequences started are
    those of an initial segment of [lvc_users] followed by
    [standard_users]: records are taken in list order, none is skipped
    and none is taken twice. *)
Theorem records_processed_in_order_without_gaps
    (E : env) (w : AutomationWorker) :
  exists n,
    n <= List.length (lvc_users w ++ standard_users w) /\
    attempts (trace E w) = firstn n (lvc_users w ++ standard_users w).
Proof. apply attempts_trace_segment. Qed.

(** X8. The announcement of completion is truthful.  A run that logs the
    line of line 259 has emitted no error signal and has started the
    sequence of every record it was to process: of all of [lvc_users] and
    then all of [standard_users], or of the first record of [lvc_users], if
    there is one, in debug mode. *)
Theorem announced_completion_means_all_processed
    (E : env) (w : AutomationWorker) :
  announced (trace E w) = true ->
  count is_error (trace E w) = 0 /\
  attempts (trace E w) =
    if debug_mode w then firstn 1 (lvc_users w)
    else lvc_users w ++ standard_users w.
Proof.
  intros Ha. rewrite announced_trace in Ha.
  destruct (@announced_run_body E w started eq_refl Ha) as [[a Hr] Hat].
  split.
  - rewrite errors_trace, Hr. reflexivity.
  - rewrite attempts_trace. exact Hat.
Qed.

(** The run of the sample worker with a browser that answers every
    call. *)
Lemma announced_completion_means_all_processed_witness :
  count is_error (trace calm (sample_worker false)) = 0 /\
  attempts (trace calm (sample_worker false)) =
    if debug_mode (sample_worker false)
    then firstn 1 (lvc_users (sample_worker false))
    else lvc_users (sample_worker false) ++ standard_users (sample_worker false).
Proof.
  apply (@announced_completion_means_all_processed calm (sample_worker false)).
  vm_compute. reflexivity.
Defined.

(** X9. The error signal of a run comes from the except clause of [run]
    and from nowhere else.  It carries the message built at lines 268 to
    272 from the exception that left the try block; the progress line
    that starts with [ERROR] and holds the same message has been logged
    before it; and after it the run only tears the session down and
    signals completion: it starts no account-creation sequence. *)
Theorem error_signal_is_followed_by_teardown_only
    (E : env) (w : AutomationWorker) (pre post : list event) (msg : string) :
  trace E w = pre ++ AutomationError msg :: post ->
  (exists e, result (run_body E w started) = Exc e /\
             msg = full_error_message e) /\
  In (Progress ("[ERROR] " +++ msg)) pre /\
  forallb after_cancel post = true /\
  attempts post = [].
Proof.
  intros Ht.
  destruct (error_signal_position E w pre post msg Ht)
    as [e [Hr [Hm [Hin Hpost]]]].
  split; [exists e; auto|]. split; [exact Hin|]. rewrite Hpost. split.
  - apply release_after_cancel.
  - apply attempts_none. apply release_not_create.
Qed.

(** The run of the sample worker in which the navigation to the login page
    times out. *)
Lemma error_signal_is_followed_by_teardown_only_witness :
  (exists e, result (run_body navigation_times_out (sample_worker false) started)
             = Exc e /\
             full_error_message
               (mkExn "TimeoutError" "Timeout 60000ms exceeded.") =
             full_error_message e) /\
  In (Progress ("[ERROR] " +++
                full_error_message
                  (mkExn "TimeoutError" "Timeout 60000ms exceeded.")))
     (before_first is_error (trace navigation_times_out (sample_worker false))) /\
  forallb after_cancel
    (after_first is_error (trace navigation_times_out (sample_worker false)))
    = true /\
  attempts
    (after_first is_error (trace navigation_times_out (sample_worker false)))
    = [].
Proof.
  apply (@error_signal_is_followed_by_teardown_only
           navigation_times_out (sample_worker false)).
  vm_compute. reflexivity.
Defined.

(** X10. No account is created before the operator is logged in.  In every
    run, what precedes the start of an account-creation sequence includes
    the opening of the browser page, the line that reports the approved
    login and the line that reports that the page has settled. *)
Theorem sequences_start_only_after_login
    (E : env) (w : AutomationWorker) (pre post : list event)
    (url pw : string) (u : UserRecord) :
  trace E w = pre ++ Invoke (m_create_standard_user url u pw) :: post ->
  In (Browser NewPage) pre /\
  In (Progress "MFA approved. Login successful!") pre /\
  In (Progress "Page has settled.") pre.
Proof.
  intros Ht.
  destruct (sequence_after_prelude E w pre post url pw u Ht)
    as [[a Hr] [pre' ->]].
  repeat split; apply in_or_app; left.
  - exact (@prelude_launches E w started a Hr).
  - exact (@prelude_logs_in E w started a Hr).
  - exact (@prelude_settles E w started a Hr).
Qed.

(** The run of the sample worker with a browser that answers every call,
    up to its first sequence. *)
Lemma sequences_start_only_after_login_witness :
  In (Browser NewPage)
     (before_first is_create (trace calm (sample_worker false))) /\
  In (Progress "MFA approved. Login successful!")
     (before_first is_create (trace calm (sample_worker false))) /\
  In (Progress "Page has settled.")
     (before_first is_create (trace calm (sample_worker false))).
Proof.
  apply (@sequences_start_only_after_login calm (sample_worker false)
           (before_first is_create (trace calm (sample_worker false)))
           (after_first is_create (trace calm (sample_worker false)))
           (gtp_url (sample_worker false)) (user_password (sample_worker false))
           usd_user).
  vm_compute. reflexivity.
Defined.

(** X11. Every account-creation sequence of a run is called with the base
    address and the new-account password the worker was constructed with,
    for a record of [lvc_users] or of [standard_users]. *)
Theorem sequences_use_the_settings_of_the_worker
    (E : env) (w : AutomationWorker) (pre post : list event)
    (url pw : string) (u : UserRecord) :
  trace E w = pre ++ Invoke (m_create_standard_user url u pw) :: post ->
  url = gtp_url w /\ pw = user_password w /\
  In u (lvc_users w ++ standard_users w).
Proof.
  intros Ht.
  pose proof (run_is_genuine E w) as Hg.
  rewrite Ht, forallb_app in Hg. apply andb_prop in Hg.
  destruct Hg as [_ Hg]. simpl in Hg. apply andb_prop in Hg.
  destruct Hg as [Hg _]. apply andb_prop in Hg. destruct Hg as [Hu Hp].
  apply String.eqb_eq in Hu. apply String.eqb_eq in Hp.
  split; [exact Hu|]. split; [exact Hp|].
  destruct (attempts_trace_segment E w) as [n [_ Hn]].
  apply (@in_firstn _ u n). rewrite <- Hn, Ht, attempts_app.
  apply in_or_app. right. left. reflexivity.
Qed.

(** The first sequence of the run of the sample worker. *)
Lemma sequences_use_the_settings_of_the_worker_witness :
  "https://admin-app1-gtp640.installprogram.eu" = gtp_url (sample_worker false) /\
  "snow" = user_password (sample_worker false) /\
  In usd_user (lvc_users (sample_worker false) ++
               standard_users (sample_worker false)).
Proof.
  apply (@sequences_use_the_settings_of_the_worker calm (sample_worker false)
           (before_first is_create (trace calm (sample_worker false)))
           (after_first is_create (trace calm (sample_worker false)))).
  vm_compute. reflexivity.
Defined.

(** X12. The worker never changes [is_running] itself: at the end of a
    run the flag is still set exactly when [stop] has not been invoked
    during the run. *)
Theorem flag_is_cleared_by_stop_only (E : env) (w : AutomationWorker) :
  is_running (final (run E w init)) = negb (stopped (trace E w)).
Proof. apply (tracks_run E w init). Qed.


(** X14. The error a run reports is the failure of the last browser call
    it issued in the try block.  When a run emits the error signal, the
    try block has ended with a browser call, issued at its last step [k];
    the message carries the type and the details of the exception
    Playwright raises for the answer of the browser at that step; and the
    only browser calls after that call are those of the teardown.  So the
    guards of lines 40 and 98 never fire in a run, and no step is attempted
    after a call has failed. *)
Theorem reported_error_is_the_failure_of_the_last_call
    (E : env) (w : AutomationWorker) (msg : string) :
  In (AutomationError msg) (trace E w) ->
  exists e c k t rest,
    msg = full_error_message e /\
    raised c (reply_at E k) = Some e /\
    clock (final (run_body E w started)) = S k /\
    trace E w = t ++ Browser c :: rest /\
    (forall c', In c' (calls rest) -> c' = BrowserClose \/ c' = PlaywrightStop).
Proof.
  intros Hin. apply in_split in Hin. destruct Hin as [pre [post Ht]].
  destruct (error_signal_position E w pre post msg Ht) as [e [Hr [Hm _]]].
  destruct (@fails_run_body E w started e Hr) as [t [c [k [Hl [Hc Hk]]]]].
  exists e, c, k, t,
    (log (report_error E e (final (run_body E w started))) ++
     log (release E (final (guarded_body E w started)))).
  split; [exact Hm|]. split; [exact Hc|]. split; [exact Hk|]. split.
  - rewrite trace_split, log_guarded_body, Hr, Hl, <- !app_assoc.
    reflexivity.
  - intros c' Hc'. apply (@teardown_only_calls _ c') in Hc'; [exact Hc'|].
    rewrite forallb_app. apply andb_true_intro. split.
    + apply report_error_teardown_only.
    + apply release_teardown_only.
Qed.

(** The run of the sample worker in which the navigation to the login page
    times out. *)
Lemma reported_error_is_the_failure_of_the_last_call_witness :
  exists e c k t rest,
    full_error_message (mkExn "TimeoutError" "Timeout 60000ms exceeded.") =
      full_error_message e /\
    raised c (reply_at navigation_times_out k) = Some e /\
    clock (final (run_body navigation_times_out (sample_worker false) started))
      = S k /\
    trace navigation_times_out (sample_worker false) = t ++ Browser c :: rest /\
    (forall c', In c' (calls rest) -> c' = BrowserClose \/ c' = PlaywrightStop).
Proof.
  apply (@reported_error_is_the_failure_of_the_last_call
           navigation_times_out (sample_worker false)).
  vm_compute. repeat (first [left; reflexivity | right]).
Defined.

(* ================================================================== *)
(** * Further properties of the input files and of the start *)
(* ================================================================== *)



(** X16. A worker is started only with checked inputs.  When
    [start_automation] starts a worker, the form had no input error, so the
    password for new accounts is not empty; the worker carries the address
    of the selected environment, that password and the debug choice of the
    form, the credentials [parse_credentials_file] returned and the two
    lists [parse_user_data] returned, whose records all have a currency;
    and the window has disabled its controls just before it started the
    thread, the last two things it did. *)
Theorem started_worker_carries_checked_inputs
    (fs : files) (f : form) (shown : list ui_event) (w : AutomationWorker) :
  start_automation fs f = (shown, Some w) ->
  input_errors f = [] /\
  user_password w <> EmptyString /\
  gtp_url w = GTP_VERSIONS (gtp_selection f) /\
  user_password w = new_user_password f /\
  debug_mode w = debug_checked f /\
  parse_credentials_file fs (cred_path f) = Returned (email w, password w) /\
  parse_user_data fs (user_data_path f) =
    Returned (lvc_users w, standard_users w) /\
  (forall u, In u (lvc_users w ++ standard_users w) -> Currency u <> None) /\
  exists before, shown = before ++ [ControlsDisabled; ThreadStarted].
Proof.
  unfold start_automation.
  destruct (input_errors f) as [|err errs] eqn:Hin; [|discriminate].
  destruct (preflight fs f) as [logged [[[em pw] [lvc st]]|e]] eqn:Hpre;
    [|discriminate].
  intros H. inversion H. subst. simpl.
  destruct (preflight_returned fs f Hpre) as [Hc Hu].
  split; [reflexivity|]. split.
  - unfold input_errors in Hin.
    destruct (new_user_password f); [|discriminate].
    simpl in Hin. apply app_eq_nil in Hin. destruct Hin as [_ Hin].
    apply app_eq_nil in Hin. destruct Hin as [_ Hin]. discriminate.
  - repeat split; auto.
    + exact (parse_user_data_returned fs _ Hu).
    + exists ([LogMessage (replicate 50 "=");
               LogMessage "Starting pre-flight checks..."] ++ logged ++
              [LogMessage
                 "Pre-flight checks passed. Starting automation process..."]).
      rewrite <- !app_assoc. reflexivity.
Qed.

(** The click on the start button with the two sample files selected. *)
Lemma started_worker_carries_checked_inputs_witness :
  input_errors (sample_form "credentials.txt" "users.xlsx") = [] /\
  user_password
    (mkWorker "https://admin-app1-gtp640.installprogram.eu"
       "operator@example.com" "secret" [usd_user; eur_user]
       [gbp_user; mkUser (Some "SEK") (Some "player") (Some "08")]
       "snow" false) <> EmptyString /\
  gtp_url
    (mkWorker "https://admin-app1-gtp640.installprogram.eu"
       "operator@example.com" "secret" [usd_user; eur_user]
       [gbp_user; mkUser (Some "SEK") (Some "player") (Some "08")]
       "snow" false) =
    GTP_VERSIONS (gtp_selection (sample_form "credentials.txt" "users.xlsx")) /\
  user_password
    (mkWorker "https://admin-app1-gtp640.installprogram.eu"
       "operator@example.com" "secret" [usd_user; eur_user]
       [gbp_user; mkUser (Some "SEK") (Some "player") (Some "08")]
       "snow" false) =
    new_user_password (sample_form "credentials.txt" "users.xlsx") /\
  debug_mode
    (mkWorker "https://admin-app1-gtp640.installprogram.eu"
       "operator@example.com" "secret" [usd_user; eur_user]
       [gbp_user; mkUser (Some "SEK") (Some "player") (Some "08")]
       "snow" false) =
    debug_checked (sample_form "credentials.txt" "users.xlsx") /\
  parse_credentials_file sample_files
    (cred_path (sample_form "credentials.txt" "users.xlsx")) =
    Returned ("operator@example.com", "secret") /\
  parse_user_data sample_files
    (user_data_path (sample_form "credentials.txt" "users.xlsx")) =
    Returned ([usd_user; eur_user],
              [gbp_user; mkUser (Some "SEK") (Some "player") (Some "08")]) /\
  (forall u,
      In u ([usd_user; eur_user] ++
            [gbp_user; mkUser (Some "SEK") (Some "player") (Some "08")]) ->
      Currency u <> None) /\
  exists before,
    fst (start_automation sample_files
           (sample_form "credentials.txt" "users.xlsx")) =
    before ++ [ControlsDisabled; ThreadStarted].
Proof.
  apply (@started_worker_carries_checked_inputs sample_files
           (sample_form "credentials.txt" "users.xlsx")
           (fst (start_automation sample_files
                   (sample_form "credentials.txt" "users.xlsx")))
           (mkWorker "https://admin-app1-gtp640.installprogram.eu"
              "operator@example.com" "secret" [usd_user; eur_user]
              [gbp_user; mkUser (Some "SEK") (Some "player") (Some "08")]
              "snow" false)).
  vm_compute. reflexivity.
Defined.

(* ================================================================== *)
(** * Further properties of the main window *)
(* ================================================================== *)



(** X18. A selected file is remembered across restarts.  After a file has
    been selected in the dialog, a window constructed later over the saved
    configuration shows the path if the file still exists, and the other
    label shows what the configuration held for it before; a dialog that
    is cancelled changes neither the window nor the disk. *)
Theorem selected_files_are_remembered_across_restarts
    (p : string) (w : window) (d : disk) :
  Py.is_empty p = false ->
  (cred_label (fst (select_credentials_file p w d)) = p /\
   forall d2,
     config_file d2 = config_file (snd (select_credentials_file p w d)) ->
     os_path_exists d2 p = true ->
     cred_label (new_window d2) = p /\
     user_file_label (new_window d2) =
       label_for "user_data_path" (win_config w) d2) /\
  (user_file_label (fst (select_user_data_file p w d)) = p /\
   forall d2,
     config_file d2 = config_file (snd (select_user_data_file p w d)) ->
     os_path_exists d2 p = true ->
     user_file_label (new_window d2) = p /\
     cred_label (new_window d2) =
       label_for "credentials_path" (win_config w) d2) /\
  select_credentials_file EmptyString w d = (w, d) /\
  select_user_data_file EmptyString w d = (w, d).
Proof.
  intros Hp.
  split; [|split; [|split; reflexivity]].
  - unfold select_credentials_file. rewrite Hp. simpl.
    split; [reflexivity|]. intros d2 Hd Hex.
    destruct (new_window_labels d2) as [Hc [Hu _]].
    assert (Hl : load_config d2 =
                 config_set "credentials_path" p (win_config w))
      by (unfold load_config; rewrite Hd; reflexivity).
    rewrite Hc, Hu, Hl. unfold label_for.
    rewrite config_get_set_same, Hp, Hex.
    rewrite config_get_set_other by reflexivity. auto.
  - unfold select_user_data_file. rewrite Hp. simpl.
    split; [reflexivity|]. intros d2 Hd Hex.
    destruct (new_window_labels d2) as [Hc [Hu _]].
    assert (Hl : load_config d2 =
                 config_set "user_data_path" p (win_config w))
      by (unfold load_config; rewrite Hd; reflexivity).
    rewrite Hc, Hu, Hl. unfold label_for.
    rewrite config_get_set_same, Hp, Hex.
    rewrite config_get_set_other by reflexivity. auto.
Qed.

(** The sample credentials file selected on a first launch. *)
Lemma selected_files_are_remembered_across_restarts_witness :
  (cred_label (fst (select_credentials_file "credentials.txt"
                      (new_window fresh_disk) fresh_disk)) =
     "credentials.txt" /\
   forall d2,
     config_file d2 =
       config_file (snd (select_credentials_file "credentials.txt"
                           (new_window fresh_disk) fresh_disk)) ->
     os_path_exists d2 "credentials.txt" = true ->
     cred_label (new_window d2) = "credentials.txt" /\
     user_file_label (new_window d2) =
       label_for "user_data_path" (win_config (new_window fresh_disk)) d2) /\
  (user_file_label (fst (select_user_data_file "credentials.txt"
                           (new_window fresh_disk) fresh_disk)) =
     "credentials.txt" /\
   forall d2,
     config_file d2 =
       config_file (snd (select_user_data_file "credentials.txt"
                           (new_window fresh_disk) fresh_disk)) ->
     os_path_exists d2 "credentials.txt" = true ->
     user_file_label (new_window d2) = "credentials.txt" /\
     cred_label (new_window d2) =
       label_for "credentials_path" (win_config (new_window fresh_disk)) d2) /\
  select_credentials_file EmptyString (new_window fresh_disk) fresh_disk =
    (new_window fresh_disk, fresh_disk) /\
  select_user_data_file EmptyString (new_window fresh_disk) fresh_disk =
    (new_window fresh_disk, fresh_disk).
Proof.
  apply (@selected_files_are_remembered_across_restarts
           "credentials.txt" (new_window fresh_disk) fresh_disk).
  reflexivity.
Defined.

(** X19. While no credentials file is shown, a click on the start button
    is refused.  On a first launch, and whenever the remembered
    credentials file is missing, the new window shows no credentials file;
    a click on its start button then starts no worker, logs nothing and
    leaves the controls enabled, whatever the files hold: the window only
    shows the input-error box with the failed checks, whose text starts
    with the request to select a credentials file. *)
Theorem start_is_refused_while_no_credentials_file_is_shown
    (d : disk) (fs : files) (x : entries) :
  label_for "credentials_path" (load_config d) d = NO_FILE ->
  click_start fs x (new_window d) =
    (message_box "Input Error"
       (Py.join Py.LF (input_errors (form_of (new_window d) x)))
       (new_window d),
     None) /\
  prefix "You must select a credentials file."
         (Py.join Py.LF (input_errors (form_of (new_window d) x))) = true /\
  controls_enabled (fst (click_start fs x (new_window d))) = true /\
  status_log (fst (click_start fs x (new_window d))) = [].
Proof.
  intros Hl. destruct (new_window_labels d) as [Hc [_ [_ [He _]]]].
  rewrite Hl in Hc.
  assert (Hlog : status_log (new_window d) = []).
  { unfold new_window, apply_config. simpl.
    destruct (remembered "credentials_path" _ d); simpl;
      destruct (remembered "user_data_path" _ d); reflexivity. }
  unfold click_start, start_automation, input_errors, form_of. simpl.
  rewrite Hc. simpl.
  destruct (Py.contains "No file selected" (user_file_label (new_window d)));
    destruct (Py.is_empty (entered_password x)); simpl;
    (split; [reflexivity|]); (split; [reflexivity|]);
    (split; [exact He|exact Hlog]).
Qed.

(** The first launch: no configuration file yet. *)
Lemma start_is_refused_while_no_credentials_file_is_shown_witness :
  click_start sample_files sample_entries (new_window fresh_disk) =
    (message_box "Input Error"
       (Py.join Py.LF
          (input_errors (form_of (new_window fresh_disk) sample_entries)))
       (new_window fresh_disk),
     None) /\
  prefix "You must select a credentials file."
         (Py.join Py.LF
            (input_errors (form_of (new_window fresh_disk) sample_entries)))
    = true /\
  controls_enabled
    (fst (click_start sample_files sample_entries (new_window fresh_disk)))
    = true /\
  status_log
    (fst (click_start sample_files sample_entries (new_window fresh_disk)))
    = [].
Proof.
  apply (@start_is_refused_while_no_credentials_file_is_shown
           fresh_disk sample_files sample_entries).
  reflexivity.
Defined.
